(** * power_cost.py: cached day-ahead price fetching and UTC reconciliation

    A shallow embedding of [src/power_cost.py].  The module talks to the file
    system ([os], [open], [json]), to the network ([requests]) and to two
    date libraries ([pytz], [dateutil]).  The two functions of the module are
    embedded as computations in a state-and-exception monad over a [world]
    record holding the cache tree, the list of requests sent so far and the
    heap of [ElectricityCost] objects; what the libraries compute is taken
    from a [Platform] instance. *)

From Stdlib Require Import ZArith Lia String Ascii DecimalString.
From Stdlib Require Import Floats.SpecFloat.
From stdpp Require Import base option list strings gmap.

Local Open Scope Z_scope.

(** ** Calendar arithmetic of [datetime]

    The proleptic Gregorian calendar as CPython's [datetime] implements it:
    day ordinals count from 0001-01-01 = 1. *)

Module Calendar.

Definition MINYEAR : Z := 1.
Definition MAXYEAR : Z := 9999.
Definition MAXORDINAL : Z := 3652059.

Definition is_leap (y : Z) : bool :=
  (y mod 4 =? 0) && (negb (y mod 100 =? 0) || (y mod 400 =? 0)).

Definition days_before_year (y : Z) : Z :=
  let p := y - 1 in p * 365 + p / 4 - p / 100 + p / 400.

(* _DAYS_IN_MONTH, for a common year *)
Definition DAYS_IN_MONTH (m : Z) : Z :=
  match m with
  | 1 => 31 | 2 => 28 | 3 => 31 | 4 => 30 | 5 => 31 | 6 => 30
  | 7 => 31 | 8 => 31 | 9 => 30 | 10 => 31 | 11 => 30 | 12 => 31
  | _ => 0
  end.

Definition days_in_month (y m : Z) : Z :=
  if (m =? 2) && is_leap y then 29 else DAYS_IN_MONTH m.

(* _DAYS_BEFORE_MONTH, for a common year *)
Definition DAYS_BEFORE_MONTH (m : Z) : Z :=
  match m with
  | 1 => 0 | 2 => 31 | 3 => 59 | 4 => 90 | 5 => 120 | 6 => 151
  | 7 => 181 | 8 => 212 | 9 => 243 | 10 => 273 | 11 => 304 | 12 => 334
  | _ => 0
  end.

Definition days_before_month (y m : Z) : Z :=
  DAYS_BEFORE_MONTH m + (if (2 <? m) && is_leap y then 1 else 0).

Definition ymd2ord (y m d : Z) : Z :=
  days_before_year y + days_before_month y m + d.

Definition DI400Y : Z := 146097.
Definition DI100Y : Z := 36524.
Definition DI4Y : Z := 1461.

(* the tail of _ord2ymd: month and day of day [n] (from 0) of a year *)
Definition month_day (n : Z) (leapyear : bool) : Z * Z :=
  let month := Z.shiftr (n + 50) 5 in
  let preceding :=
    DAYS_BEFORE_MONTH month + (if (2 <? month) && leapyear then 1 else 0) in
  if n <? preceding then
    let month := month - 1 in
    let preceding :=
      preceding - (DAYS_IN_MONTH month
                   + (if (month =? 2) && leapyear then 1 else 0)) in
    (month, n - preceding + 1)
  else (month, n - preceding + 1).

Definition ord2ymd (ordinal : Z) : Z * Z * Z :=
  let n := ordinal - 1 in
  let n400 := n / DI400Y in
  let n := n mod DI400Y in
  let n100 := n / DI100Y in
  let n := n mod DI100Y in
  let n4 := n / DI4Y in
  let n := n mod DI4Y in
  let n1 := n / 365 in
  let n := n mod 365 in
  let year := n400 * 400 + 1 + n100 * 100 + n4 * 4 + n1 in
  if (n1 =? 4) || (n100 =? 4) then (year - 1, 12, 31)
  else
    let leapyear := (n1 =? 3) && (negb (n4 =? 24) || (n100 =? 3)) in
    let '(month, day) := month_day n leapyear in
    (year, month, day).

(* date.weekday(): Monday is 0 *)
Definition weekday (y m d : Z) : Z := (ymd2ord y m d + 6) mod 7.

Definition valid_ymd (y m d : Z) : bool :=
  (MINYEAR <=? y) && (y <=? MAXYEAR) && (1 <=? m) && (m <=? 12)
  && (1 <=? d) && (d <=? days_in_month y m).

End Calendar.

(** ** [date], [datetime] and [timedelta] values *)

Record date := mkdate { d_year : Z; d_month : Z; d_day : Z }.

(** A [datetime]: the wall-clock fields and [tzinfo].  [tzinfo] holds the
    fixed UTC offset in seconds of an aware value; [None] is a value without
    one, which [astimezone] reads in the system's local zone. *)
Record datetime := mkdatetime {
  year : Z; month : Z; day : Z;
  hour : Z; minute : Z; second : Z; microsecond : Z;
  tzinfo : option Z
}.

(** A [timedelta], in microseconds. *)
Definition timedelta (days seconds : Z) : Z :=
  (days * 86400 + seconds) * 1000000.

Definition US_PER_DAY : Z := 86400 * 1000000.

(** The wall clock of a [datetime] as microseconds since ordinal day 0. *)
Definition wall_micros (dt : datetime) : Z :=
  ((Calendar.ymd2ord (year dt) (month dt) (day dt) * 86400
    + hour dt * 3600 + minute dt * 60 + second dt) * 1000000)
  + microsecond dt.

(** The [datetime] with the given wall clock; [None] is Python's
    [OverflowError] (the date leaves 0001-01-01 .. 9999-12-31). *)
Definition of_wall_micros (n : Z) (tz : option Z) : option datetime :=
  let days := n / US_PER_DAY in
  let rest := n mod US_PER_DAY in
  if (1 <=? days) && (days <=? Calendar.MAXORDINAL) then
    let '(y, m, d) := Calendar.ord2ymd days in
    let secs := rest / 1000000 in
    Some {| year := y; month := m; day := d;
            hour := secs / 3600; minute := (secs mod 3600) / 60;
            second := secs mod 60; microsecond := rest mod 1000000;
            tzinfo := tz |}
  else None.

(* datetime.__add__ / __sub__ with a timedelta *)
Definition datetime_add (dt : datetime) (delta : Z) : option datetime :=
  of_wall_micros (wall_micros dt + delta) (tzinfo dt).

Definition datetime_sub (dt : datetime) (delta : Z) : option datetime :=
  of_wall_micros (wall_micros dt - delta) (tzinfo dt).

(* datetime.date() *)
Definition datetime_date (dt : datetime) : date :=
  {| d_year := year dt; d_month := month dt; d_day := day dt |}.

(* date.__eq__ *)
Definition date_eqb (a b : date) : bool :=
  (d_year a =? d_year b) && (d_month a =? d_month b) && (d_day a =? d_day b).

(** Ordering of two aware datetimes that carry the same [tzinfo] object
    (here always [pytz.utc]): the field tuples are compared in dictionary
    order. *)
Fixpoint tuple_compare (a b : list Z) : comparison :=
  match a, b with
  | x :: a', y :: b' =>
      match x ?= y with Eq => tuple_compare a' b' | c => c end
  | [], [] => Eq
  | [], _ :: _ => Lt
  | _ :: _, [] => Gt
  end.

Definition datetime_fields (dt : datetime) : list Z :=
  [year dt; month dt; day dt; hour dt; minute dt; second dt; microsecond dt].

Definition datetime_compare (a b : datetime) : comparison :=
  tuple_compare (datetime_fields a) (datetime_fields b).

(* a > b *)
Definition datetime_gtb (a b : datetime) : bool :=
  match datetime_compare a b with Gt => true | _ => false end.

(* a <= b *)
Definition datetime_leb (a b : datetime) : bool :=
  match datetime_compare a b with Gt => false | _ => true end.

(** ** Text formatting *)

(* str(n) for an int *)
Definition str_int (n : Z) : string := NilZero.string_of_int (Z.to_int n).

(* "%0<w>d" % n *)
Definition zero_padded (w : nat) (n : Z) : string :=
  let s := str_int n in
  String.concat "" (replicate (w - String.length s)%nat "0"%string) +:+ s.

(** [strftime("%Y")], [strftime("%m")], [strftime("%d")].  CPython hands
    the format to the C library, which writes the year as a plain decimal
    number (year 999 gives 999, not 0999) and the month and the day on two
    digits. *)
Definition strftime_Y (d : date) : string := str_int (d_year d).
Definition strftime_m (d : date) : string := zero_padded 2 (d_month d).
Definition strftime_d (d : date) : string := zero_padded 2 (d_day d).

(* _format_offset *)
Definition format_offset (off : option Z) : string :=
  match off with
  | None => ""
  | Some o =>
      let sign := if o <? 0 then "-" else "+" in
      let o := Z.abs o in
      let hh := o / 3600 in
      let mm := (o mod 3600) / 60 in
      let ss := o mod 60 in
      sign +:+ zero_padded 2 hh +:+ ":" +:+ zero_padded 2 mm
        +:+ (if ss =? 0 then "" else ":" +:+ zero_padded 2 ss)
  end.

(* datetime.isoformat() *)
Definition isoformat (dt : datetime) : string :=
  zero_padded 4 (year dt) +:+ "-" +:+ zero_padded 2 (month dt) +:+ "-"
    +:+ zero_padded 2 (day dt) +:+ "T"
    +:+ zero_padded 2 (hour dt) +:+ ":" +:+ zero_padded 2 (minute dt) +:+ ":"
    +:+ zero_padded 2 (second dt)
    +:+ (if microsecond dt =? 0 then ""
         else "." +:+ zero_padded 6 (microsecond dt))
    +:+ format_offset (tzinfo dt).

(** ** Values decoded from JSON, and the module's data classes *)

(** What [json.load] and [response.json()] hand back: Python objects built
    from [None], [bool], [int], [float], [str], [list] and [dict].  A [dict]
    keeps its entries in insertion order. *)
#[warnings="-register-all"]
Inductive pyval :=
| PNone
| PBool (b : bool)
| PInt (n : Z)
| PFloat (x : spec_float)
| PStr (s : string)
| PList (items : list pyval)
| PDict (entries : list (string * pyval)).

(* class PriceArea(Enum); the values are the city names *)
Inductive PriceArea := SE1 | SE2 | SE3 | SE4.

(* area.name *)
Definition name (area : PriceArea) : string :=
  match area with
  | SE1 => "SE1" | SE2 => "SE2" | SE3 => "SE3" | SE4 => "SE4"
  end.

(** [@dataclass ElectricityCost].  The annotations ([float], [str]) are not
    enforced by Python: a field holds whatever the JSON item held. *)
Record ElectricityCost := mkElectricityCost {
  SEK_per_kWh : pyval;
  EUR_per_kWh : pyval;
  EXR : pyval;
  time_start : pyval;
  time_end : pyval
}.

Definition dict_get (key : string) (entries : list (string * pyval))
  : option pyval :=
  snd <$> List.find (fun kv => String.eqb (fst kv) key) entries.

(** Building an [ElectricityCost] from the keywords of [item] (the call with
    a double-starred argument): the generated [__init__] takes exactly the
    five fields by keyword; [None] is the [TypeError] of a missing or
    unexpected keyword, or of an [item] that is not a mapping. *)
Definition ElectricityCost_init (item : pyval) : option ElectricityCost :=
  match item with
  | PDict entries =>
      if (length entries =? 5)%nat then
        a ← dict_get "SEK_per_kWh" entries;
        b ← dict_get "EUR_per_kWh" entries;
        c ← dict_get "EXR" entries;
        d ← dict_get "time_start" entries;
        e ← dict_get "time_end" entries;
        Some (mkElectricityCost a b c d e)
      else None
  | _ => None
  end.

(** [for item in data]: what iterating a decoded value yields; [None] is the
    [TypeError] of a value that is not iterable. *)
Definition py_iter (data : pyval) : option (list pyval) :=
  match data with
  | PList items => Some items
  | PDict entries => Some (map (fun kv => PStr (fst kv)) entries)
  | PStr s => Some (map (fun c => PStr (String c "")) (list_ascii_of_string s))
  | _ => None
  end.

(* dataclasses.replace(cost, time_start=..., time_end=...) *)
Definition replace_times (cost : ElectricityCost) (ts te : string)
  : ElectricityCost :=
  {| SEK_per_kWh := SEK_per_kWh cost;
     EUR_per_kWh := EUR_per_kWh cost;
     EXR := EXR cost;
     time_start := PStr ts;
     time_end := PStr te |}.

(** ** The world: cache tree, network log and object heap *)

(** A path is its list of segments, as joined by [os.path.join]. *)
Abbreviation path := (list string).

(** A file is modelled by the JSON document its text encodes: the value
    [json.load] decodes from it, which is the value [json.dump] wrote;
    [None] is text that is not JSON. *)
Inductive node :=
| File (document : option pyval)
| Dir.

(** A reference to an [ElectricityCost] object. *)
Abbreviation loc := nat.

Record world := mkworld {
  fs : gmap (list string) node;     (* the tree under the working directory *)
  requests : list string;           (* URLs sent with requests.get, oldest first *)
  heap : list ElectricityCost       (* the objects created so far *)
}.

Definition with_fs (w : world) (t : gmap (list string) node) : world :=
  {| fs := t; requests := requests w; heap := heap w |}.

Definition with_request (w : world) (url : string) : world :=
  {| fs := fs w; requests := requests w ++ [url]; heap := heap w |}.

Definition with_object (w : world) (c : ElectricityCost) : world :=
  {| fs := fs w; requests := requests w; heap := heap w ++ [c] |}.

(** A response: its status and what [response.json()] decodes from its body
    ([None] when the body is not JSON). *)
Record response := mkresponse {
  status_code : Z;
  json : option pyval
}.

Inductive exn :=
| Exception (msg : string)
| ValueError
| OverflowError
| TypeError
| ParserError
| JSONDecodeError
| ConnectionError
| OSError
| SystemError.

Inductive outcome (A : Type) :=
| Return (a : A)
| Raise (e : exn).
Arguments Return {A} a.
Arguments Raise {A} e.

(** Code without side effects runs in [outcome]; stdpp's [x ← c; k] binds
    there. *)
#[global] Instance outcome_bind : MBind outcome :=
  fun A B k o =>
    match o with
    | Return a => k a
    | Raise e => Raise e
    end.

Definition or_raise {A} (e : exn) (o : option A) : outcome A :=
  match o with
  | Some a => Return a
  | None => Raise e
  end.

(** Computations: a state monad over [world] with exceptions; the world
    reached when an exception is raised is kept. *)
Definition M (A : Type) : Type := world -> outcome A * world.

Definition ret {A} (a : A) : M A := fun w => (Return a, w).

Definition raise {A} (e : exn) : M A := fun w => (Raise e, w).

Definition bind {A B} (c : M A) (k : A -> M B) : M B :=
  fun w =>
    match c w with
    | (Return a, w') => k a w'
    | (Raise e, w') => (Raise e, w')
    end.

Declare Scope py_scope.
Delimit Scope py_scope with py.
Notation "x <- c1 ;; c2" := (bind c1 (fun x => c2))
  (at level 100, c1 at next level, right associativity) : py_scope.
Notation "c1 ;; c2" := (bind c1 (fun _ => c2))
  (at level 100, right associativity) : py_scope.
Local Open Scope py_scope.

Definition lift {A} (o : outcome A) : M A := fun w => (o, w).

(** What the libraries and the environment compute. *)
Class Platform := {
  (* requests.get(url): None when no response arrives *)
  http_get : string -> option response;
  (* dateutil.parser.parse: None is a ParserError *)
  parser_parse : string -> option datetime;
  (* UTC offset, in seconds, of Europe/Stockholm at a UTC datetime *)
  stockholm_utcoffset : datetime -> Z;
  (* UTC offset, in seconds, of the system's local zone at a wall clock *)
  local_utcoffset : datetime -> Z
}.

(** ** The program *)

Section Program.
Context `{P : Platform}.

(** *** File system, network and heap primitives *)

(* os.path.exists(p) *)
Definition os_path_exists (p : path) : M bool :=
  fun w => (Return (bool_decide (is_Some (fs w !! p))), w).

(* os.path.dirname(p) *)
Definition os_path_dirname (p : path) : path := removelast p.

(* with open(p, 'r') as f: json.load(f) *)
Definition json_load (p : path) : M pyval :=
  fun w =>
    match fs w !! p with
    | Some (File (Some data)) => (Return data, w)
    | Some (File None) => (Raise JSONDecodeError, w)
    | _ => (Raise OSError, w)
    end.

(** [os.mkdir(p)] inside [os.makedirs(..., exist_ok=True)]: a failure is
    swallowed when [p] is an existing directory. *)
Definition mkdir_exist_ok (p : path) : M unit :=
  fun w =>
    match fs w !! p with
    | Some Dir => (Return tt, w)
    | Some (File _) => (Raise OSError, w)
    | None =>
        let parent := os_path_dirname p in
        match parent, fs w !! parent with
        | [], _ | _, Some Dir =>
            (Return tt, with_fs w (<[p := Dir]> (fs w)))
        | _, _ => (Raise OSError, w)
        end
    end.

(** [os.makedirs(name, exist_ok=True)], on the reversed segment list: the
    head is created first when it is missing, then [name] itself. *)
Fixpoint makedirs_rev (rname : list string) : M unit :=
  match rname with
  | [] => ret tt
  | _ :: rhead =>
      (match rhead with
       | [] => ret tt
       | _ :: _ =>
           head_exists <- os_path_exists (reverse rhead) ;;
           if head_exists then ret tt else makedirs_rev rhead
       end) ;;
      mkdir_exist_ok (reverse rname)
  end.

Definition os_makedirs (name : path) : M unit := makedirs_rev (reverse name).

(* with open(p, 'w') as f: json.dump(data, f) *)
Definition json_dump (data : pyval) (p : path) : M unit :=
  fun w =>
    match fs w !! p with
    | Some Dir => (Raise OSError, w)
    | _ =>
        let parent := os_path_dirname p in
        match parent, fs w !! parent with
        | [], _ | _, Some Dir =>
            (Return tt, with_fs w (<[p := File (Some data)]> (fs w)))
        | _, _ => (Raise OSError, w)
        end
    end.

(* requests.get(url) *)
Definition requests_get (url : string) : M response :=
  fun w =>
    match http_get url with
    | Some r => (Return r, with_request w url)
    | None => (Raise ConnectionError, with_request w url)
    end.

(* a new ElectricityCost object *)
Definition new_object (c : ElectricityCost) : M loc :=
  fun w =>
    (Return (length (heap w)), with_object w c).

(* reading the fields of the object behind a reference *)
Definition read_object (l : loc) : M ElectricityCost :=
  fun w =>
    match heap w !! l with
    | Some c => (Return c, w)
    | None => (Raise SystemError, w)
    end.

(** *** fetch_electricity_cost *)

(* the list comprehension building one ElectricityCost per item *)
Fixpoint build_costs (items : list pyval) : M (list loc) :=
  match items with
  | [] => ret []
  | item :: rest =>
      c <- lift (or_raise TypeError (ElectricityCost_init item)) ;;
      l <- new_object c ;;
      ls <- build_costs rest ;;
      ret (l :: ls)
  end.

Definition costs_of_json (data : pyval) : M (list loc) :=
  items <- lift (or_raise TypeError (py_iter data)) ;;
  build_costs items.

Definition cache_path_of (date : date) (area : PriceArea) : path :=
  let year := strftime_Y date in
  let month := strftime_m date in
  let day := strftime_d date in
  ["cache"; year; month; day +:+ "_" +:+ name area +:+ ".json"].

Definition url_of (date : date) (area : PriceArea) : string :=
  let year := strftime_Y date in
  let month := strftime_m date in
  let day := strftime_d date in
  "https://www.elprisetjustnu.se/api/v1/prices/" +:+ year +:+ "/"
    +:+ month +:+ "-" +:+ day +:+ "_" +:+ name area +:+ ".json".

Definition fetch_electricity_cost (date : date) (area : PriceArea)
  : M (list loc) :=
  let cache_path := cache_path_of date area in
  cached <- os_path_exists cache_path ;;
  if cached then
    cached_data <- json_load cache_path ;;
    costs_of_json cached_data
  else
    let url := url_of date area in
    response <- requests_get url ;;
    if status_code response =? 200 then
      data <- lift (or_raise JSONDecodeError (json response)) ;;
      os_makedirs (os_path_dirname cache_path) ;;
      json_dump data cache_path ;;
      costs_of_json data
    else
      raise (Exception ("Failed to fetch data: "
                        +:+ str_int (status_code response))).

(** *** fetch_electricity_cost_utc *)

(* datetime(year, month, day, tzinfo=pytz.utc) *)
Definition datetime_utc (y m d : Z) : outcome datetime :=
  if Calendar.valid_ymd y m d
  then Return (mkdatetime y m d 0 0 0 0 (Some 0))
  else Raise ValueError.

(** [dt.astimezone(pytz.utc)]: the wall clock minus the value's own offset,
    labelled UTC. *)
Definition astimezone_utc (dt : datetime) : outcome datetime :=
  let off := match tzinfo dt with
             | Some o => o
             | None => local_utcoffset dt
             end in
  or_raise OverflowError
    (of_wall_micros (wall_micros dt - off * 1000000) (Some 0)).

(** [dt.astimezone(stockholm_tz)]: through UTC, then [fromutc] adds the
    zone's offset at that instant. *)
Definition astimezone_stockholm (dt : datetime) : outcome datetime :=
  utc ← astimezone_utc dt;
  let off := stockholm_utcoffset utc in
  or_raise OverflowError
    (of_wall_micros (wall_micros utc + off * 1000000) (Some off)).

(* lines 82-83: the first and the last second of the UTC day *)
Definition utc_day (date_utc : datetime) : outcome (datetime * datetime) :=
  start_date_utc ←
    datetime_utc (year date_utc) (month date_utc) (day date_utc);
  next_day ← or_raise OverflowError
               (datetime_add start_date_utc (timedelta 1 0));
  end_date_utc ← or_raise OverflowError
                   (datetime_sub next_day (timedelta 0 1));
  Return (start_date_utc, end_date_utc).

(* lines 86-87: the Stockholm calendar dates of the two ends *)
Definition stockholm_dates (start_date_utc end_date_utc : datetime)
  : outcome (date * date) :=
  s ← astimezone_stockholm start_date_utc;
  e ← astimezone_stockholm end_date_utc;
  Return (datetime_date s, datetime_date e).

(* lines 90-93 *)
Definition fetch_costs_stockholm (start_date_stockholm end_date_stockholm : date)
    (area : PriceArea) : M (list loc) :=
  if date_eqb start_date_stockholm end_date_stockholm then
    fetch_electricity_cost start_date_stockholm area
  else
    first <- fetch_electricity_cost start_date_stockholm area ;;
    second <- fetch_electricity_cost end_date_stockholm area ;;
    ret (first ++ second).

(* parser.parse(v).astimezone(pytz.utc) *)
Definition parse_utc (v : pyval) : outcome datetime :=
  match v with
  | PStr s =>
      dt ← or_raise ParserError (parser_parse s);
      astimezone_utc dt
  | _ => Raise TypeError
  end.

(* line 102 *)
Definition in_utc_day (start_date_utc end_date_utc : datetime)
    (time_start_utc time_end_utc : datetime) : bool :=
  datetime_gtb time_end_utc start_date_utc
  && datetime_leb time_start_utc end_date_utc.

(* lines 96-104: the loop, with costs_utc as accumulator *)
Fixpoint filter_costs_utc (start_date_utc end_date_utc : datetime)
    (costs_stockholm : list loc) (costs_utc : list loc) : M (list loc) :=
  match costs_stockholm with
  | [] => ret costs_utc
  | cost :: rest =>
      c <- read_object cost ;;
      time_start_utc <- lift (parse_utc (time_start c)) ;;
      time_end_utc <- lift (parse_utc (time_end c)) ;;
      if in_utc_day start_date_utc end_date_utc time_start_utc time_end_utc
      then
        cost_utc <- new_object (replace_times c (isoformat time_start_utc)
                                                (isoformat time_end_utc)) ;;
        filter_costs_utc start_date_utc end_date_utc rest
                         (costs_utc ++ [cost_utc])
      else
        filter_costs_utc start_date_utc end_date_utc rest costs_utc
  end.

Definition fetch_electricity_cost_utc (date_utc : datetime) (area : PriceArea)
  : M (list loc) :=
  bounds <- lift (utc_day date_utc) ;;
  let '(start_date_utc, end_date_utc) := bounds in
  dates <- lift (stockholm_dates start_date_utc end_date_utc) ;;
  let '(start_date_stockholm, end_date_stockholm) := dates in
  costs_stockholm <-
    fetch_costs_stockholm start_date_stockholm end_date_stockholm area ;;
  filter_costs_utc start_date_utc end_date_utc costs_stockholm [].

End Program.

(** ** Library behaviour used in the worked scenario *)

(** The timestamps the upstream API publishes have the fixed ISO-8601 shape
    [YYYY-MM-DDTHH:MM:SS+HH:MM]; [dateutil.parser.parse] reads such a string
    as the aware datetime with these fields and this offset.  [parse_iso]
    reads that shape (with [Z], or nothing, in place of the offset too) and
    nothing else. *)
Module Iso.

Definition digit_val (c : ascii) : option Z :=
  let n := Z.of_N (N_of_ascii c) in
  if (48 <=? n) && (n <=? 57) then Some (n - 48) else None.

Fixpoint number (s : string) (acc : Z) : option Z :=
  match s with
  | EmptyString => Some acc
  | String c s' => d ← digit_val c; number s' (acc * 10 + d)
  end.

(* the [len] decimal digits at [pos] *)
Definition field (s : string) (pos len : nat) : option Z :=
  let t := substring pos len s in
  if (String.length t =? len)%nat then number t 0 else None.

Definition char_is (s : string) (pos : nat) (c : ascii) : option unit :=
  match String.get pos s with
  | Some c' => if Ascii.eqb c c' then Some tt else None
  | None => None
  end.

Definition offset (s : string) : option (option Z) :=
  if String.eqb s "" then Some None
  else if String.eqb s "Z" then Some (Some 0)
  else if (String.length s =? 6)%nat then
    sign ← match String.get 0 s with
           | Some "+"%char => Some 1
           | Some "-"%char => Some (-1)
           | _ => None
           end;
    hh ← field s 1 2;
    _ ← char_is s 3 ":";
    mm ← field s 4 2;
    if (hh <? 24) && (mm <? 60)
    then Some (Some (sign * (hh * 3600 + mm * 60))) else None
  else None.

Definition parse_iso (s : string) : option datetime :=
  y ← field s 0 4;
  _ ← char_is s 4 "-";
  m ← field s 5 2;
  _ ← char_is s 7 "-";
  d ← field s 8 2;
  _ ← char_is s 10 "T";
  hh ← field s 11 2;
  _ ← char_is s 13 ":";
  mm ← field s 14 2;
  _ ← char_is s 16 ":";
  ss ← field s 17 2;
  tz ← offset (substring 19 (String.length s - 19) s);
  if Calendar.valid_ymd y m d && (hh <? 24) && (mm <? 60) && (ss <? 60)
  then Some (mkdatetime y m d hh mm ss 0 tz) else None.

(** The UTC datetime of a timestamp that carries its offset. *)
Definition to_utc (s : string) : option datetime :=
  dt ← parse_iso s;
  off ← tzinfo dt;
  of_wall_micros (wall_micros dt - off * 1000000) (Some 0).

(** The UTC start and end of an interval whose timestamps carry theirs. *)
Definition utc_times (c : ElectricityCost) : option (datetime * datetime) :=
  match time_start c, time_end c with
  | PStr s1, PStr s2 => ts ← to_utc s1; te ← to_utc s2; Some (ts, te)
  | _, _ => None
  end.

End Iso.

(** Europe/Stockholm under the summer-time rule in force since 1996: UTC+2
    from 01:00 UTC on the last Sunday of March until 01:00 UTC on the last
    Sunday of October, UTC+1 otherwise. *)
Module Stockholm.

Definition last_sunday (y m : Z) : Z :=
  let last := Calendar.days_in_month y m in
  last - (Calendar.weekday y m last + 1) mod 7.

Definition summer_time (utc : datetime) : bool :=
  let y := year utc in
  let from := wall_micros (mkdatetime y 3 (last_sunday y 3) 1 0 0 0 (Some 0)) in
  let to := wall_micros (mkdatetime y 10 (last_sunday y 10) 1 0 0 0 (Some 0)) in
  (from <=? wall_micros utc) && (wall_micros utc <? to).

Definition utcoffset (utc : datetime) : Z :=
  if summer_time utc then 7200 else 3600.

End Stockholm.

(** ** Value-level readings used in the statements *)

(** The objects behind a list of references. *)
Definition objects (h : list ElectricityCost) (ls : list loc)
  : option (list ElectricityCost) :=
  mapM (fun l => h !! l) ls.

(** The series a decoded document stands for: one interval per item. *)
Definition decode_series (data : pyval) : outcome (list ElectricityCost) :=
  items ← or_raise TypeError (py_iter data);
  or_raise TypeError (mapM ElectricityCost_init items).

(** The outcome of a computation returning references, read as values. *)
Definition series_of (r : outcome (list loc) * world)
  : outcome (list ElectricityCost) :=
  match r with
  | (Return ls, w) => or_raise SystemError (objects (heap w) ls)
  | (Raise e, _) => Raise e
  end.

(** Orderings of datetimes as propositions. *)
Definition datetime_gt (a b : datetime) : Prop := datetime_compare a b = Gt.
Definition datetime_le (a b : datetime) : Prop := datetime_compare a b <> Gt.
Definition datetime_lt (a b : datetime) : Prop := datetime_compare a b = Lt.

#[global] Instance datetime_gt_dec a b : Decision (datetime_gt a b).
Proof. unfold datetime_gt. solve_decision. Defined.

#[global] Instance datetime_le_dec a b : Decision (datetime_le a b).
Proof. unfold datetime_le. solve_decision. Defined.

(** Steps 4 and 5 of the reconciler as the specification words them: an
    interval with UTC times [ts], [te] is kept when [te] is after the start
    of the window and [ts] is not after its end, and the kept interval is a
    copy with the UTC timestamps written in ISO-8601. *)
Definition spec_utc_interval (start_utc end_utc : datetime)
    (item : ElectricityCost * (datetime * datetime))
  : option ElectricityCost :=
  let '(c, (ts, te)) := item in
  if decide (datetime_gt te start_utc /\ datetime_le ts end_utc)
  then Some (replace_times c (isoformat ts) (isoformat te))
  else None.

Definition spec_utc_series (start_utc end_utc : datetime)
    (cs : list ElectricityCost) (times : list (datetime * datetime))
  : list ElectricityCost :=
  omap (spec_utc_interval start_utc end_utc) (zip cs times).

(** The UTC readings of the two timestamps of an interval. *)
Definition utc_times_of `{P : Platform} (c : ElectricityCost)
    (t : datetime * datetime) : Prop :=
  parse_utc (time_start c) = Return (fst t)
  /\ parse_utc (time_end c) = Return (snd t).

(** A datetime whose fields are in their ranges, as every [datetime]
    object is. *)
Definition well_formed (dt : datetime) : Prop :=
  Calendar.valid_ymd (year dt) (month dt) (day dt) = true
  /\ 0 <= hour dt < 24 /\ 0 <= minute dt < 60 /\ 0 <= second dt < 60
  /\ 0 <= microsecond dt < 1000000.

(** The UTC offset, in seconds, a parsed timestamp stands at: its own when
    the text carries one, the system zone's otherwise. *)
Definition spec_utc_offset `{P : Platform} (dt : datetime) : Z :=
  match tzinfo dt with
  | Some off => off
  | None => local_utcoffset dt
  end.

(** The UTC reading of a timestamp as the specification words it: the text
    is parsed as an instant, and the reading is that instant in UTC, a
    datetime labelled UTC whose wall clock is the parsed wall clock minus
    the parsed offset.  Nothing here refers to how the program converts. *)
Definition spec_utc_reading `{P : Platform} (v : pyval) (t : datetime)
  : Prop :=
  exists text parsed,
    v = PStr text
    /\ parser_parse text = Some parsed
    /\ well_formed t
    /\ tzinfo t = Some 0
    /\ wall_micros t
       = wall_micros parsed - spec_utc_offset parsed * 1000000.

Definition spec_utc_times `{P : Platform} (c : ElectricityCost)
    (t : datetime * datetime) : Prop :=
  spec_utc_reading (time_start c) (fst t)
  /\ spec_utc_reading (time_end c) (snd t).

(** Success statuses of HTTP, as the specification words them. *)
Definition spec_success_status (status : Z) : bool :=
  (200 <=? status) && (status <? 300).

Definition is_digit (c : ascii) : bool :=
  match Iso.digit_val c with Some _ => true | None => false end.

(** [s] is the decimal writing of [v] on exactly [n] digits. *)
Definition decimal_of_width (n : nat) (v : Z) (s : string) : bool :=
  (String.length s =? n)%nat
  && forallb is_digit (list_ascii_of_string s)
  && match Iso.number s 0 with Some v' => v' =? v | None => false end.

(** The number of digits of a year in 1..9999 written without padding. *)
Definition digits_of_year (y : Z) : nat :=
  if y <? 10 then 1 else if y <? 100 then 2 else if y <? 1000 then 3 else 4.

(** No regular file sits where a directory of [dir] is needed. *)
Definition no_file_in_the_way (t : gmap (list string) node) (dir : path)
  : Prop :=
  forall p doc, p <> [] -> p `prefix_of` dir -> t !! p <> Some (File doc).

(** ** A worked scenario: UTC day 2024-01-01 in area SE4 *)

Module Scenario.

Definition day1 : date := mkdate 2024 1 1.
Definition day2 : date := mkdate 2024 1 2.

(* [h] hours after midnight of [d] on a clock at UTC offset [off] *)
Definition stamp (d : date) (off : Z) (h : Z) : string :=
  default ""%string
    (isoformat <$>
       datetime_add (mkdatetime (d_year d) (d_month d) (d_day d) 0 0 0 0
                                (Some off))
                    (timedelta 0 (h * 3600))).

(** The [h]-th hourly interval of local day [d] at offset +01:00, with the
    price fields of [p h]. *)
Definition local_interval (d : date) (p : Z -> ElectricityCost) (h : Z)
  : ElectricityCost :=
  replace_times (p h) (stamp d 3600 h) (stamp d 3600 (h + 1)).

Definition local_series (d : date) (p : Z -> ElectricityCost)
  : list ElectricityCost :=
  map (local_interval d p) (seqZ 0 24).

(** The UTC start and end of the [h]-th hourly interval counted from local
    midnight of 2024-01-01, which is 2023-12-31T23:00 UTC. *)
Definition utc_time (h : Z) : datetime :=
  default (mkdatetime 2023 12 31 23 0 0 0 (Some 0))
    (datetime_add (mkdatetime 2023 12 31 23 0 0 0 (Some 0))
                  (timedelta 0 (h * 3600))).

Definition utc_times : list (datetime * datetime) :=
  map (fun h => (utc_time h, utc_time (h + 1))) (seqZ 0 48).

(** The [h]-th hour of UTC day 2024-01-01: the prices of local hour [h + 1]
    of day 1, or of local hour 0 of day 2 for the last one. *)
Definition utc_interval (p1 p2 : Z -> ElectricityCost) (h : Z)
  : ElectricityCost :=
  replace_times (if h <? 23 then p1 (h + 1) else p2 0)
                (stamp day1 0 h) (stamp day1 0 (h + 1)).

Definition utc_series (p1 p2 : Z -> ElectricityCost) : list ElectricityCost :=
  map (utc_interval p1 p2) (seqZ 0 24).

(** Upstream data for the two days: prices in quarters of a krona. *)
Definition quarters (k : Z) : pyval :=
  PFloat (binary_normalize 53 1024 k (-2) false).

Definition prices (base : Z) (h : Z) : ElectricityCost :=
  {| SEK_per_kWh := quarters (base + h);
     EUR_per_kWh := quarters (base + h + 100);
     EXR := quarters 45;
     time_start := PNone; time_end := PNone |}.

Definition item_of (c : ElectricityCost) : pyval :=
  PDict [("SEK_per_kWh"%string, SEK_per_kWh c);
         ("EUR_per_kWh"%string, EUR_per_kWh c);
         ("EXR"%string, EXR c);
         ("time_start"%string, time_start c);
         ("time_end"%string, time_end c)].

Definition document (d : date) (p : Z -> ElectricityCost) : pyval :=
  PList (map item_of (local_series d p)).

(** The upstream server: the documents of 1 and 2 January for SE4 with
    status 200, the one of 3 January relayed by a proxy with status 203, and
    404 for everything else. *)
Definition upstream (url : string) : option response :=
  if String.eqb url
       "https://www.elprisetjustnu.se/api/v1/prices/2024/01-01_SE4.json"
  then Some (mkresponse 200 (Some (document day1 (prices 1))))
  else if String.eqb url
       "https://www.elprisetjustnu.se/api/v1/prices/2024/01-02_SE4.json"
  then Some (mkresponse 200 (Some (document day2 (prices 25))))
  else if String.eqb url
       "https://www.elprisetjustnu.se/api/v1/prices/2024/01-03_SE4.json"
  then Some (mkresponse 203 (Some (document (mkdate 2024 1 3) (prices 49))))
  else Some (mkresponse 404 None).

Definition platform : Platform :=
  {| http_get := upstream;
     parser_parse := Iso.parse_iso;
     stockholm_utcoffset := Stockholm.utcoffset;
     local_utcoffset := fun _ => 0 |}.

(** An empty working directory, nothing requested, no objects. *)
Definition fresh : world := {| fs := ∅; requests := []; heap := [] |}.

(** A world where day 1 for SE4 is already cached. *)
Definition cached : world :=
  {| fs := <[ ["cache"; "2024"; "01"; "01_SE4.json"]%string
              := File (Some (document day1 (prices 1))) ]>
           (<[ ["cache"; "2024"; "01"]%string := Dir ]>
            (<[ ["cache"; "2024"]%string := Dir ]>
             (<[ ["cache"]%string := Dir ]> ∅)));
     requests := []; heap := [] |}.

(* datetime(2024, 1, 1), as in the module's example call *)
Definition date_example : datetime := mkdatetime 2024 1 1 0 0 0 0 None.

End Scenario.

(** ** A misbehaving upstream

    A server that answers 200 with a JSON error object for 1 January, 200
    with a body that is not JSON for 2 January, and does not answer at all
    for any other day. *)

Module Faulty.

Definition upstream (url : string) : option response :=
  if String.eqb url
       "https://www.elprisetjustnu.se/api/v1/prices/2024/01-01_SE4.json"
  then Some (mkresponse 200
               (Some (PDict [("error"%string, PStr "maintenance")])))
  else if String.eqb url
       "https://www.elprisetjustnu.se/api/v1/prices/2024/01-02_SE4.json"
  then Some (mkresponse 200 None)
  else None.

Definition platform : Platform :=
  {| http_get := upstream;
     parser_parse := Iso.parse_iso;
     stockholm_utcoffset := Stockholm.utcoffset;
     local_utcoffset := fun _ => 0 |}.

End Faulty.

(** * Properties *)

(** A check that holds on a whole range holds at each of its points. *)
Lemma forallb_seqZ (f : Z -> bool) (m n x : Z) :
  forallb f (seqZ m n) = true -> m <= x < m + n -> f x = true.
Proof.
  intros H Hx. rewrite forallb_forall in H. apply H.
  apply list_elem_of_In, elem_of_seqZ. exact Hx.
Qed.


(** ** The calendar: ordinals and dates *)

Module CalendarFacts.
Import Calendar.

Lemma days_before_year_decomp a b c e :
  0 <= b <= 3 -> 0 <= c <= 24 -> 0 <= e <= 3 ->
  days_before_year (400 * a + 100 * b + 4 * c + e + 1)
  = 146097 * a + 36524 * b + 1461 * c + 365 * e.
Proof.
  intros Hb Hc He. unfold days_before_year. cbv zeta.
  replace (400 * a + 100 * b + 4 * c + e + 1 - 1)
    with (400 * a + 100 * b + 4 * c + e) by lia.
  assert ((400 * a + 100 * b + 4 * c + e) / 4 = 100 * a + 25 * b + c) as ->
    by (symmetry; apply (Z.div_unique _ 4 _ e); lia).
  assert ((400 * a + 100 * b + 4 * c + e) / 100 = 4 * a + b) as ->
    by (symmetry; apply (Z.div_unique _ 100 _ (4 * c + e)); lia).
  assert ((400 * a + 100 * b + 4 * c + e) / 400 = a) as ->
    by (symmetry; apply (Z.div_unique _ 400 _ (100 * b + 4 * c + e)); lia).
  lia.
Qed.

Lemma is_leap_decomp a b c e :
  0 <= b <= 3 -> 0 <= c <= 24 -> 0 <= e <= 3 ->
  is_leap (400 * a + 100 * b + 4 * c + e + 1)
  = (e =? 3) && (negb (c =? 24) || (b =? 3)).
Proof.
  intros Hb Hc He. unfold is_leap.
  set (y := 400 * a + 100 * b + 4 * c + e + 1).
  assert (y mod 4 = (e + 1) mod 4) as H4.
  { unfold y. replace (400 * a + 100 * b + 4 * c + e + 1)
      with ((e + 1) + (100 * a + 25 * b + c) * 4) by lia.
    apply Z.mod_add. lia. }
  assert (y mod 100 = (4 * c + e + 1) mod 100) as H100.
  { unfold y. replace (400 * a + 100 * b + 4 * c + e + 1)
      with ((4 * c + e + 1) + (4 * a + b) * 100) by lia.
    apply Z.mod_add. lia. }
  assert (y mod 400 = (100 * b + 4 * c + e + 1) mod 400) as H400.
  { unfold y. replace (400 * a + 100 * b + 4 * c + e + 1)
      with ((100 * b + 4 * c + e + 1) + a * 400) by lia.
    apply Z.mod_add. lia. }
  rewrite H4, H100, H400.
  assert (e = 0 \/ e = 1 \/ e = 2 \/ e = 3) as He' by lia.
  destruct (Z.eqb_spec e 3) as [->|Hne].
  - replace ((3 + 1) mod 4) with 0 by reflexivity. simpl (0 =? 0).
    destruct (Z.eqb_spec c 24) as [->|Hc24].
    + replace ((4 * 24 + 3 + 1) mod 100) with 0 by reflexivity.
      simpl (0 =? 0). simpl negb.
      destruct (Z.eqb_spec b 3) as [->|Hb3].
      * reflexivity.
      * simpl. assert (b = 0 \/ b = 1 \/ b = 2) as Hb' by lia.
        destruct Hb' as [-> | [-> | ->]]; reflexivity.
    + simpl negb.
      assert ((4 * c + 3 + 1) mod 100 <> 0) as Hn.
      { rewrite Z.mod_small by lia. lia. }
      apply Z.eqb_neq in Hn. rewrite Hn. reflexivity.
  - assert ((e + 1) mod 4 <> 0) as Hn.
    { rewrite Z.mod_small by lia. lia. }
    apply Z.eqb_neq in Hn. rewrite Hn. reflexivity.
Qed.

Lemma days_in_month_flag y m :
  days_in_month y m
  = DAYS_IN_MONTH m + (if (m =? 2) && is_leap y then 1 else 0).
Proof.
  unfold days_in_month. destruct (Z.eqb_spec m 2) as [->|Hm]; simpl.
  - destruct (is_leap y); reflexivity.
  - lia.
Qed.

Lemma ymd2ord_decomp a b c e m d :
  0 <= b <= 3 -> 0 <= c <= 24 -> 0 <= e <= 3 ->
  ymd2ord (400 * a + 100 * b + 4 * c + e + 1) m d
  = 146097 * a + 36524 * b + 1461 * c + 365 * e
    + DAYS_BEFORE_MONTH m
    + (if (2 <? m) && ((e =? 3) && (negb (c =? 24) || (b =? 3)))
       then 1 else 0)
    + d.
Proof.
  intros Hb Hc He. unfold ymd2ord, days_before_month.
  rewrite days_before_year_decomp, is_leap_decomp by assumption. lia.
Qed.

(** The month and day of a day of the year, and back. *)
Lemma month_day_sound leap r :
  0 <= r <= 364 ->
  exists m d,
    month_day r leap = (m, d)
    /\ 1 <= m <= 12 /\ 1 <= d
    /\ d <= DAYS_IN_MONTH m + (if (m =? 2) && leap then 1 else 0)
    /\ DAYS_BEFORE_MONTH m + (if (2 <? m) && leap then 1 else 0) + d = r + 1.
Proof.
  intros Hr.
  assert (forall lp,
    forallb (fun r =>
      let '(m, d) := month_day r lp in
      (1 <=? m) && (m <=? 12) && (1 <=? d)
      && (d <=? DAYS_IN_MONTH m + (if (m =? 2) && lp then 1 else 0))
      && (DAYS_BEFORE_MONTH m + (if (2 <? m) && lp then 1 else 0) + d
          =? r + 1)) (seqZ 0 365) = true) as Htab.
  { intros [|]; vm_compute; reflexivity. }
  pose proof (forallb_seqZ _ 0 365 r (Htab leap) ltac:(lia)) as H.
  cbv beta in H. destruct (month_day r leap) as [m d].
  rewrite !andb_true_iff, !Z.leb_le, Z.eqb_eq in H.
  exists m, d. intuition lia.
Qed.

Lemma month_day_complete leap m d :
  1 <= m <= 12 ->
  1 <= d <= DAYS_IN_MONTH m + (if (m =? 2) && leap then 1 else 0) ->
  let k := DAYS_BEFORE_MONTH m + (if (2 <? m) && leap then 1 else 0) + d - 1 in
  0 <= k <= 364 + (if leap then 1 else 0)
  /\ (k <= 364 -> month_day k leap = (m, d))
  /\ (k = 365 -> m = 12 /\ d = 31).
Proof.
  intros Hm Hd k.
  assert (forall lp,
    forallb (fun m => forallb (fun d =>
      let k := DAYS_BEFORE_MONTH m + (if (2 <? m) && lp then 1 else 0)
               + d - 1 in
      negb (d <=? DAYS_IN_MONTH m + (if (m =? 2) && lp then 1 else 0))
      || ((0 <=? k) && (k <=? 364 + (if lp then 1 else 0))
          && (negb (k <=? 364)
              || (let '(m', d') := month_day k lp in (m' =? m) && (d' =? d)))
          && (negb (k =? 365) || ((m =? 12) && (d =? 31)))))
      (seqZ 1 31)) (seqZ 1 12) = true) as Htab.
  { intros [|]; vm_compute; reflexivity. }
  pose proof (forallb_seqZ _ 1 12 m (Htab leap) ltac:(lia)) as H.
  cbv beta in H.
  assert (d <= 31) as Hd31.
  { destruct Hd as [_ Hd]. revert Hd.
    assert (DAYS_IN_MONTH m <= 31) by
      (assert (m = 1 \/ m = 2 \/ m = 3 \/ m = 4 \/ m = 5 \/ m = 6 \/ m = 7
               \/ m = 8 \/ m = 9 \/ m = 10 \/ m = 11 \/ m = 12) as Hc by lia;
       repeat destruct Hc as [->|Hc]; try subst m; simpl; lia).
    destruct (Z.eqb_spec m 2) as [->|]; simpl.
    - destruct leap; simpl; lia.
    - lia. }
  pose proof (forallb_seqZ _ 1 31 d H ltac:(lia)) as H'.
  cbv beta zeta in H'. fold k in H'.
  apply orb_true_iff in H'. destruct H' as [H'|H'].
  { apply negb_true_iff, Z.leb_gt in H'. lia. }
  rewrite !andb_true_iff in H'. destruct H' as [[[H0 H1] H2] H3].
  apply Z.leb_le in H0, H1.
  split; [lia|]. split.
  - intros Hk. apply orb_true_iff in H2. destruct H2 as [H2|H2].
    + apply negb_true_iff, Z.leb_gt in H2. lia.
    + destruct (month_day k leap) as [m' d'].
      apply andb_true_iff in H2. destruct H2 as [Ha Hb].
      apply Z.eqb_eq in Ha, Hb. congruence.
  - intros Hk. apply orb_true_iff in H3. destruct H3 as [H3|H3].
    + apply negb_true_iff, Z.eqb_neq in H3. lia.
    + apply andb_true_iff in H3. destruct H3 as [Ha Hb].
      apply Z.eqb_eq in Ha, Hb. auto.
Qed.

(** Every ordinal in range is the ordinal of the valid date [ord2ymd]
    gives for it. *)
Lemma ord2ymd_spec n :
  1 <= n <= MAXORDINAL ->
  exists y m d,
    ord2ymd n = (y, m, d)
    /\ valid_ymd y m d = true
    /\ ymd2ord y m d = n.
Proof.
  unfold MAXORDINAL. intros Hn. unfold ord2ymd, DI400Y, DI100Y, DI4Y.
  cbv zeta.
  pose proof (Z.div_mod (n - 1) 146097 ltac:(lia)) as E1.
  pose proof (Z.mod_pos_bound (n - 1) 146097 ltac:(lia)) as B1.
  set (a := (n - 1) / 146097) in *. set (r1 := (n - 1) mod 146097) in *.
  pose proof (Z.div_mod r1 36524 ltac:(lia)) as E2.
  pose proof (Z.mod_pos_bound r1 36524 ltac:(lia)) as B2.
  set (b := r1 / 36524) in *. set (r2 := r1 mod 36524) in *.
  pose proof (Z.div_mod r2 1461 ltac:(lia)) as E3.
  pose proof (Z.mod_pos_bound r2 1461 ltac:(lia)) as B3.
  set (c := r2 / 1461) in *. set (r3 := r2 mod 1461) in *.
  pose proof (Z.div_mod r3 365 ltac:(lia)) as E4.
  pose proof (Z.mod_pos_bound r3 365 ltac:(lia)) as B4.
  set (e := r3 / 365) in *. set (r := r3 mod 365) in *.
  clearbody a r1 b r2 c r3 e r.
  assert (0 <= a <= 24) as Ha by lia.
  assert (0 <= b <= 4) as Hb by lia.
  assert (0 <= c <= 24) as Hc by lia.
  assert (0 <= e <= 4) as He by lia.
  destruct (Z.eqb_spec e 4) as [He4|He4]; simpl orb.
  - (* the last day of a leap year that ends a four-year block *)
    assert (r = 0) by lia. assert (c <= 23) by lia. assert (b <= 3) by lia.
    exists (400 * a + 100 * b + 4 * c + 3 + 1), 12, 31.
    split; [f_equal; f_equal; lia|].
    split.
    + unfold valid_ymd, MINYEAR, MAXYEAR.
      rewrite days_in_month_flag, is_leap_decomp by lia.
      rewrite !andb_true_iff, !Z.leb_le. simpl. lia.
    + rewrite ymd2ord_decomp by lia.
      replace (c =? 24) with false by (symmetry; apply Z.eqb_neq; lia).
      simpl. lia.
  - destruct (Z.eqb_spec b 4) as [Hb4|Hb4].
    + (* the last day of a 400-year cycle *)
      assert (r2 = 0) by lia. assert (c = 0) by lia. assert (e = 0) by lia.
      assert (r = 0) by lia. assert (a <= 23) by lia.
      exists (400 * a + 100 * 3 + 4 * 24 + 3 + 1), 12, 31.
      split; [f_equal; f_equal; lia|].
      split.
      * unfold valid_ymd, MINYEAR, MAXYEAR.
        rewrite days_in_month_flag, is_leap_decomp by lia.
        rewrite !andb_true_iff, !Z.leb_le. simpl. lia.
      * rewrite ymd2ord_decomp by lia. simpl. lia.
    + assert (b <= 3) by lia. assert (e <= 3) by lia.
      destruct (month_day_sound ((e =? 3) && (negb (c =? 24) || (b =? 3))) r)
        as (m & d & Emd & Hm & Hd1 & Hd2 & Hsum); [lia|].
      rewrite Emd.
      exists (400 * a + 100 * b + 4 * c + e + 1), m, d.
      split; [f_equal; f_equal; lia|].
      split.
      * unfold valid_ymd, MINYEAR, MAXYEAR.
        rewrite days_in_month_flag, is_leap_decomp by lia.
        rewrite !andb_true_iff, !Z.leb_le. repeat split; try lia.
      * rewrite ymd2ord_decomp by lia. lia.
Qed.

(** The date of the ordinal of a valid date is that date. *)
Lemma ord2ymd_ymd2ord y m d :
  valid_ymd y m d = true -> ord2ymd (ymd2ord y m d) = (y, m, d).
Proof.
  unfold valid_ymd, MINYEAR, MAXYEAR.
  rewrite !andb_true_iff, !Z.leb_le. intros [[[[[Hy1 Hy2] Hm1] Hm2] Hd1] Hd2].
  pose proof (Z.div_mod (y - 1) 400 ltac:(lia)) as E1.
  pose proof (Z.mod_pos_bound (y - 1) 400 ltac:(lia)) as B1.
  set (a := (y - 1) / 400) in *. set (p1 := (y - 1) mod 400) in *.
  pose proof (Z.div_mod p1 100 ltac:(lia)) as E2.
  pose proof (Z.mod_pos_bound p1 100 ltac:(lia)) as B2.
  set (b := p1 / 100) in *. set (p2 := p1 mod 100) in *.
  pose proof (Z.div_mod p2 4 ltac:(lia)) as E3.
  pose proof (Z.mod_pos_bound p2 4 ltac:(lia)) as B3.
  set (c := p2 / 4) in *. set (e := p2 mod 4) in *.
  clearbody a p1 b p2 c e.
  assert (y = 400 * a + 100 * b + 4 * c + e + 1) as Ey by lia.
  assert (0 <= b <= 3) as Hb by lia.
  assert (0 <= c <= 24) as Hc by lia.
  assert (0 <= e <= 3) as He by lia.
  rewrite days_in_month_flag in Hd2. rewrite Ey in Hd2 |- *.
  rewrite is_leap_decomp in Hd2 by lia.
  rewrite ymd2ord_decomp by lia.
  set (leap := (e =? 3) && (negb (c =? 24) || (b =? 3))) in *.
  destruct (month_day_complete leap m d ltac:(lia) ltac:(lia))
    as (Hk & Hsmall & Hlast).
  set (k := DAYS_BEFORE_MONTH m + (if (2 <? m) && leap then 1 else 0) + d - 1)
    in *.
  replace (146097 * a + 36524 * b + 1461 * c + 365 * e + DAYS_BEFORE_MONTH m
           + (if (2 <? m) && leap then 1 else 0) + d)
    with (146097 * a + 36524 * b + 1461 * c + 365 * e + k + 1)
    by (unfold k; lia).
  clearbody k.
  assert (leap = true -> e = 3 /\ (c <> 24 \/ b = 3)) as Hleap.
  { unfold leap. rewrite andb_true_iff, orb_true_iff, negb_true_iff,
      !Z.eqb_eq, Z.eqb_neq. tauto. }
  assert (k = 365 -> e = 3 /\ (c <> 24 \/ b = 3)) as Hk365.
  { intros ->. destruct leap; [auto|simpl in Hk; lia]. }
  unfold ord2ymd, DI400Y, DI100Y, DI4Y. cbv zeta.
  replace (146097 * a + 36524 * b + 1461 * c + 365 * e + k + 1 - 1)
    with (146097 * a + 36524 * b + 1461 * c + 365 * e + k) by lia.
  set (q := 146097 * a + 36524 * b + 1461 * c + 365 * e + k).
  set (r1 := 36524 * b + 1461 * c + 365 * e + k).
  assert (0 <= r1 < 146097) as Hr1 by (unfold r1; destruct leap; simpl in Hk; lia).
  assert (q / 146097 = a) as ->
    by (symmetry; apply (Z.div_unique _ 146097 _ r1); unfold q, r1; lia).
  assert (q mod 146097 = r1) as ->
    by (symmetry; apply (Z.mod_unique _ 146097 a); unfold q, r1; lia).
  destruct (Z.eq_dec k 365) as [Hk5|Hk5].
  - (* 31 December of a leap year *)
    destruct (Hk365 Hk5) as [-> Hcb]. destruct (Hlast Hk5) as [-> ->].
    destruct (Z.eq_dec c 24) as [Hc24|Hc24].
    + assert (b = 3) by lia.
      assert (r1 = 146096) as -> by (unfold r1; lia).
      replace (146096 / 36524) with 4 by reflexivity.
      replace (146096 mod 36524) with 0 by reflexivity.
      replace (0 / 1461) with 0 by reflexivity.
      replace (0 mod 1461) with 0 by reflexivity.
      replace (0 / 365) with 0 by reflexivity.
      simpl orb. cbv iota. f_equal. f_equal. lia.
    + assert (c <= 23) by lia.
      set (r2 := 1461 * c + 365 * 3 + k).
      assert (r1 / 36524 = b) as ->
        by (symmetry; apply (Z.div_unique _ 36524 _ r2); unfold r1, r2; lia).
      assert (r1 mod 36524 = r2) as ->
        by (symmetry; apply (Z.mod_unique _ 36524 b); unfold r1, r2; lia).
      assert (r2 / 1461 = c) as ->
        by (symmetry; apply (Z.div_unique _ 1461 _ 1460); unfold r2; lia).
      assert (r2 mod 1461 = 1460) as ->
        by (symmetry; apply (Z.mod_unique _ 1461 c); unfold r2; lia).
      replace (1460 / 365) with 4 by reflexivity.
      simpl orb. cbv iota. f_equal. f_equal. lia.
  - assert (k <= 364) as Hk4 by (destruct leap; simpl in Hk; lia).
    set (r2 := 1461 * c + 365 * e + k).
    assert (r1 / 36524 = b) as ->
      by (symmetry; apply (Z.div_unique _ 36524 _ r2); unfold r1, r2; lia).
    assert (r1 mod 36524 = r2) as ->
      by (symmetry; apply (Z.mod_unique _ 36524 b); unfold r1, r2; lia).
    set (r3 := 365 * e + k).
    assert (r2 / 1461 = c) as ->
      by (symmetry; apply (Z.div_unique _ 1461 _ r3); unfold r2, r3; lia).
    assert (r2 mod 1461 = r3) as ->
      by (symmetry; apply (Z.mod_unique _ 1461 c); unfold r2, r3; lia).
    assert (r3 / 365 = e) as ->
      by (symmetry; apply (Z.div_unique _ 365 _ k); unfold r3; lia).
    assert (r3 mod 365 = k) as ->
      by (symmetry; apply (Z.mod_unique _ 365 e); unfold r3; lia).
    replace (e =? 4) with false by (symmetry; apply Z.eqb_neq; lia).
    replace (b =? 4) with false by (symmetry; apply Z.eqb_neq; lia).
    simpl orb. cbv iota. fold leap. rewrite (Hsmall Hk4).
    f_equal. f_equal. lia.
Qed.

(** The ordinal of a valid date is in range, and only 9999-12-31 has the
    last one. *)
Lemma ymd2ord_range y m d :
  valid_ymd y m d = true -> 1 <= ymd2ord y m d <= MAXORDINAL.
Proof.
  intros Hv.
  assert (exists y' m' d', ord2ymd (ymd2ord y m d) = (y', m', d')) as _
    by (destruct (ord2ymd (ymd2ord y m d)) as [[? ?] ?]; eauto).
  revert Hv. unfold valid_ymd, MINYEAR, MAXYEAR, MAXORDINAL.
  rewrite !andb_true_iff, !Z.leb_le. intros [[[[[Hy1 Hy2] Hm1] Hm2] Hd1] Hd2].
  pose proof (Z.div_mod (y - 1) 400 ltac:(lia)) as E1.
  pose proof (Z.mod_pos_bound (y - 1) 400 ltac:(lia)) as B1.
  set (a := (y - 1) / 400) in *. set (p1 := (y - 1) mod 400) in *.
  pose proof (Z.div_mod p1 100 ltac:(lia)) as E2.
  pose proof (Z.mod_pos_bound p1 100 ltac:(lia)) as B2.
  set (b := p1 / 100) in *. set (p2 := p1 mod 100) in *.
  pose proof (Z.div_mod p2 4 ltac:(lia)) as E3.
  pose proof (Z.mod_pos_bound p2 4 ltac:(lia)) as B3.
  set (c := p2 / 4) in *. set (e := p2 mod 4) in *.
  clearbody a p1 b p2 c e.
  assert (y = 400 * a + 100 * b + 4 * c + e + 1) as Ey by lia.
  rewrite days_in_month_flag in Hd2. rewrite Ey in Hd2 |- *.
  rewrite is_leap_decomp in Hd2 by lia.
  rewrite ymd2ord_decomp by lia.
  set (leap := (e =? 3) && (negb (c =? 24) || (b =? 3))) in *.
  destruct (month_day_complete leap m d ltac:(lia) ltac:(lia))
    as (Hk & _ & _).
  assert (leap = true -> e = 3) as Hleap.
  { unfold leap. rewrite andb_true_iff, Z.eqb_eq. tauto. }
  destruct leap; simpl in Hk.
  - specialize (Hleap eq_refl). lia.
  - lia.
Qed.

Lemma ymd2ord_last y m d :
  valid_ymd y m d = true -> ymd2ord y m d = MAXORDINAL ->
  y = 9999 /\ m = 12 /\ d = 31.
Proof.
  intros Hv E. pose proof (ord2ymd_ymd2ord y m d Hv) as H.
  rewrite E in H. vm_compute in H. inversion H. auto.
Qed.

End CalendarFacts.

(** ** Worlds and the monad *)

Lemma world_eq (w1 w2 : world) :
  fs w1 = fs w2 -> requests w1 = requests w2 -> heap w1 = heap w2 -> w1 = w2.
Proof. destruct w1, w2; simpl; intros; subst; reflexivity. Qed.

Lemma bind_Return {A B} (c : M A) (k : A -> M B) w a w' :
  c w = (Return a, w') -> bind c k w = k a w'.
Proof. intros E. unfold bind. rewrite E. reflexivity. Qed.

Lemma bind_Raise {A B} (c : M A) (k : A -> M B) w e w' :
  c w = (Raise e, w') -> bind c k w = (Raise e, w').
Proof. intros E. unfold bind. rewrite E. reflexivity. Qed.

Lemma bind_inv_Return {A B} (c : M A) (k : A -> M B) w b w' :
  bind c k w = (Return b, w') ->
  exists a w1, c w = (Return a, w1) /\ k a w1 = (Return b, w').
Proof.
  unfold bind. destruct (c w) as [[a|e] w1]; intros E; [eauto | discriminate].
Qed.

Lemma lift_inv_Return {A} (o : outcome A) w a w' :
  lift o w = (Return a, w') -> o = Return a /\ w' = w.
Proof. unfold lift. intros E. inversion E. auto. Qed.

Lemma outcome_bind_inv {A B} (o : outcome A) (k : A -> outcome B) b :
  o ≫= k = Return b -> exists a, o = Return a /\ k a = Return b.
Proof. destruct o as [a|e]; simpl; intros E; [eauto | discriminate]. Qed.

Lemma or_raise_inv {A} e (o : option A) a :
  or_raise e o = Return a -> o = Some a.
Proof. destruct o; simpl; intros E; inversion E; reflexivity. Qed.

(** ** Objects on the heap *)

Lemma objects_Forall2 h ls cs :
  objects h ls = Some cs <-> Forall2 (fun l c => h !! l = Some c) ls cs.
Proof. unfold objects. apply mapM_Some. Qed.

Lemma objects_fresh h cs :
  objects (h ++ cs) (seq (length h) (length cs)) = Some cs.
Proof.
  apply objects_Forall2. revert h.
  induction cs as [|c cs IH]; intros h; simpl; constructor.
  - rewrite lookup_app_r by lia. replace (length h - length h)%nat with 0%nat by lia.
    reflexivity.
  - specialize (IH (h ++ [c])). rewrite <- app_assoc in IH. simpl in IH.
    rewrite length_app in IH. simpl in IH.
    replace (length h + 1)%nat with (S (length h)) in IH by lia. exact IH.
Qed.

Lemma objects_prefix h h' ls cs :
  h `prefix_of` h' -> objects h ls = Some cs -> objects h' ls = Some cs.
Proof.
  intros [t ->]. rewrite !objects_Forall2. intros H.
  eapply Forall2_impl; [exact H|].
  intros l c E. apply lookup_app_l_Some. exact E.
Qed.

Lemma objects_app h l1 l2 c1 c2 :
  objects h l1 = Some c1 -> objects h l2 = Some c2 ->
  objects h (l1 ++ l2) = Some (c1 ++ c2).
Proof. rewrite !objects_Forall2. apply Forall2_app. Qed.

Lemma decode_series_raises data e :
  decode_series data = Raise e -> e = TypeError.
Proof.
  unfold decode_series. destruct (py_iter data) as [items|]; simpl.
  - destruct (mapM ElectricityCost_init items); simpl; congruence.
  - congruence.
Qed.

(** ** The list comprehension over the decoded items *)

Section Fetch.
Context `{P : Platform}.

Lemma build_costs_Some items cs w :
  mapM ElectricityCost_init items = Some cs ->
  build_costs items w
  = (Return (seq (length (heap w)) (length cs)),
     {| fs := fs w; requests := requests w; heap := heap w ++ cs |}).
Proof.
  revert cs w. induction items as [|item items IH]; intros cs w E.
  - simpl in E. inversion E; subst. simpl. unfold ret. f_equal.
    apply world_eq; simpl; auto. symmetry. apply app_nil_r.
  - simpl in E. destruct (ElectricityCost_init item) as [c|] eqn:Ec;
      [|discriminate].
    simpl in E. destruct (mapM ElectricityCost_init items) as [cs'|] eqn:Em;
      [|discriminate].
    simpl in E. inversion E; subst cs. clear E.
    simpl. unfold bind at 1. unfold lift. rewrite Ec. simpl.
    unfold bind at 1. unfold new_object.
    unfold bind at 1. rewrite (IH cs' (with_object w c) eq_refl).
    unfold ret. simpl. rewrite length_app. simpl.
    replace (length (heap w) + 1)%nat with (S (length (heap w))) by lia.
    f_equal. apply world_eq; simpl; auto. rewrite <- app_assoc. reflexivity.
Qed.

Lemma build_costs_None items w :
  mapM ElectricityCost_init items = None ->
  exists w', build_costs items w = (Raise TypeError, w')
             /\ fs w' = fs w /\ requests w' = requests w
             /\ heap w `prefix_of` heap w'.
Proof.
  revert w. induction items as [|item items IH]; intros w E.
  - discriminate.
  - simpl in E. simpl. unfold bind at 1. unfold lift.
    destruct (ElectricityCost_init item) as [c|] eqn:Ec; simpl.
    + simpl in E.
      destruct (mapM ElectricityCost_init items) as [cs'|] eqn:Em;
        [discriminate|].
      destruct (IH (with_object w c) eq_refl) as (w' & E' & Hf & Hr & Hh).
      unfold bind at 1. unfold new_object. unfold bind at 1. rewrite E'.
      exists w'. repeat split; auto.
      simpl in Hh. etransitivity; [|exact Hh]. apply prefix_app_r. reflexivity.
    + exists w. repeat split; auto.
Qed.

Lemma costs_of_json_spec data w :
  exists w',
    snd (costs_of_json data w) = w'
    /\ fs w' = fs w /\ requests w' = requests w
    /\ heap w `prefix_of` heap w'
    /\ series_of (costs_of_json data w) = decode_series data
    /\ forall cs, decode_series data = Return cs ->
         costs_of_json data w
         = (Return (seq (length (heap w)) (length cs)),
            {| fs := fs w; requests := requests w; heap := heap w ++ cs |}).
Proof.
  unfold costs_of_json, decode_series.
  destruct (py_iter data) as [items|]; simpl.
  - unfold bind, lift. simpl.
    destruct (mapM ElectricityCost_init items) as [cs|] eqn:Em.
    + rewrite (build_costs_Some _ _ _ Em). simpl.
      eexists; split; [reflexivity|]. simpl. repeat split; auto.
      * apply prefix_app_r. reflexivity.
      * rewrite objects_fresh. reflexivity.
      * intros cs' E. inversion E; subst. reflexivity.
    + destruct (build_costs_None _ w Em) as (w' & E' & Hf & Hr & Hh).
      rewrite E'. simpl. exists w'. repeat split; auto. discriminate.
  - unfold bind, lift. simpl. exists w. repeat split; auto. discriminate.
Qed.

End Fetch.

Lemma outcome_bind_Return {A B} (o : outcome A) (k : A -> outcome B) a :
  o = Return a -> o ≫= k = k a.
Proof. intros ->. reflexivity. Qed.

(** Reading an outcome as values: a series is read exactly off a call that
    returned references to it, a [TypeError] exactly off a call that raised
    it. *)
Lemma series_of_Return r cs :
  series_of r = Return cs ->
  exists ls, fst r = Return ls /\ objects (heap (snd r)) ls = Some cs.
Proof.
  destruct r as [[ls|e] w]; simpl; [|discriminate].
  intros H. apply or_raise_inv in H. eauto.
Qed.

Lemma series_of_TypeError r :
  series_of r = Raise TypeError -> fst r = Raise TypeError.
Proof.
  destruct r as [[ls|e] w]; simpl.
  - destruct (objects (heap w) ls); discriminate.
  - intros H. injection H as ->. reflexivity.
Qed.

(** ** Wall clocks and the UTC day *)

Lemma of_wall_micros_fields y m d hh mm ss us tz :
  Calendar.valid_ymd y m d = true ->
  0 <= hh < 24 -> 0 <= mm < 60 -> 0 <= ss < 60 -> 0 <= us < 1000000 ->
  of_wall_micros
    (((Calendar.ymd2ord y m d * 86400 + hh * 3600 + mm * 60 + ss) * 1000000)
     + us) tz
  = Some (mkdatetime y m d hh mm ss us tz).
Proof.
  intros Hv Hh Hm Hs Hu.
  pose proof (CalendarFacts.ymd2ord_range y m d Hv) as Hr.
  unfold Calendar.MAXORDINAL in Hr.
  unfold of_wall_micros, US_PER_DAY. cbv zeta.
  set (O := Calendar.ymd2ord y m d) in *.
  set (secs := hh * 3600 + mm * 60 + ss).
  assert (0 <= secs < 86400) as Hsecs by (unfold secs; lia).
  replace ((O * 86400 + hh * 3600 + mm * 60 + ss) * 1000000 + us)
    with (O * (86400 * 1000000) + (secs * 1000000 + us))
    by (unfold secs; lia).
  assert ((O * (86400 * 1000000) + (secs * 1000000 + us)) / (86400 * 1000000)
          = O) as ->
    by (symmetry; apply (Z.div_unique _ _ _ (secs * 1000000 + us)); lia).
  assert ((O * (86400 * 1000000) + (secs * 1000000 + us))
            mod (86400 * 1000000) = secs * 1000000 + us) as ->
    by (symmetry; apply (Z.mod_unique _ _ O); lia).
  replace ((1 <=? O) && (O <=? Calendar.MAXORDINAL)) with true
    by (symmetry; unfold Calendar.MAXORDINAL;
        rewrite andb_true_iff, !Z.leb_le; lia).
  unfold O. rewrite (CalendarFacts.ord2ymd_ymd2ord y m d Hv).
  assert ((secs * 1000000 + us) / 1000000 = secs) as ->
    by (symmetry; apply (Z.div_unique _ _ _ us); lia).
  assert ((secs * 1000000 + us) mod 1000000 = us) as ->
    by (symmetry; apply (Z.mod_unique _ _ secs); lia).
  assert (secs / 3600 = hh) as ->
    by (symmetry; apply (Z.div_unique _ _ _ (mm * 60 + ss)); unfold secs; lia).
  assert (secs mod 3600 = mm * 60 + ss) as ->
    by (symmetry; apply (Z.mod_unique _ _ hh); unfold secs; lia).
  assert ((mm * 60 + ss) / 60 = mm) as ->
    by (symmetry; apply (Z.div_unique _ _ _ ss); lia).
  assert (secs mod 60 = ss) as ->
    by (symmetry; apply (Z.mod_unique _ _ (hh * 60 + mm)); unfold secs; lia).
  reflexivity.
Qed.

(** The wall clock of what [of_wall_micros] builds is the clock it was given. *)
Lemma wall_micros_of_wall_micros n tz dt :
  of_wall_micros n tz = Some dt -> wall_micros dt = n /\ tzinfo dt = tz.
Proof.
  unfold of_wall_micros, US_PER_DAY. cbv zeta.
  destruct ((1 <=? n / (86400 * 1000000))
            && (n / (86400 * 1000000) <=? Calendar.MAXORDINAL)) eqn:Hr;
    [|discriminate].
  apply andb_true_iff in Hr. destruct Hr as [H1 H2].
  apply Z.leb_le in H1, H2.
  destruct (CalendarFacts.ord2ymd_spec (n / (86400 * 1000000)))
    as (y & m & d & E & Hv & Ho); [lia|].
  rewrite E. intros H. inversion H; subst dt; clear H.
  split; [|reflexivity]. unfold wall_micros. simpl. rewrite Ho.
  pose proof (Z.div_mod n (86400 * 1000000) ltac:(lia)) as D1.
  pose proof (Z.mod_pos_bound n (86400 * 1000000) ltac:(lia)) as B1.
  set (days := n / (86400 * 1000000)) in *.
  set (rest := n mod (86400 * 1000000)) in *.
  pose proof (Z.div_mod rest 1000000 ltac:(lia)) as D2.
  pose proof (Z.mod_pos_bound rest 1000000 ltac:(lia)) as B2.
  set (secs := rest / 1000000) in *. set (us := rest mod 1000000) in *.
  pose proof (Z.div_mod secs 3600 ltac:(lia)) as D3.
  pose proof (Z.mod_pos_bound secs 3600 ltac:(lia)) as B3.
  set (hh := secs / 3600) in *. set (ms := secs mod 3600) in *.
  pose proof (Z.div_mod ms 60 ltac:(lia)) as D4.
  assert (secs mod 60 = ms mod 60) as ->.
  { rewrite D3 at 1. replace (3600 * hh + ms) with (ms + (60 * hh) * 60) by lia.
    apply Z.mod_add. lia. }
  set (mi := ms / 60) in *. set (se := ms mod 60) in *.
  clearbody days rest secs us hh ms mi se. lia.
Qed.

Section UtcDay.
Context `{P : Platform}.

(** When lines 82-83 succeed, [start_date_utc] is midnight of the date and
    [end_date_utc] its last second. *)
Lemma utc_day_spec date_utc s e :
  utc_day date_utc = Return (s, e) ->
  Calendar.valid_ymd (year date_utc) (month date_utc) (day date_utc) = true
  /\ s = mkdatetime (year date_utc) (month date_utc) (day date_utc)
                    0 0 0 0 (Some 0)
  /\ e = mkdatetime (year date_utc) (month date_utc) (day date_utc)
                    23 59 59 0 (Some 0)
  /\ exists next, datetime_add s (timedelta 1 0) = Some next
                  /\ datetime_sub next (timedelta 0 1) = Some e.
Proof.
  unfold utc_day. intros H.
  apply outcome_bind_inv in H as (s0 & Hs & H).
  apply outcome_bind_inv in H as (next & Hn & H). apply or_raise_inv in Hn.
  apply outcome_bind_inv in H as (e0 & He & H). apply or_raise_inv in He.
  inversion H; subst s0 e0; clear H.
  assert (exists next, datetime_add s (timedelta 1 0) = Some next
                       /\ datetime_sub next (timedelta 0 1) = Some e) as Hex
    by (exists next; split; assumption).
  revert Hs. unfold datetime_utc.
  destruct (Calendar.valid_ymd (year date_utc) (month date_utc)
              (day date_utc)) eqn:Hv; [|discriminate].
  intros Hs. injection Hs as Es.
  assert (e = mkdatetime (year date_utc) (month date_utc) (day date_utc)
                         23 59 59 0 (Some 0)) as Ee.
  { clear Hex. revert Hn. rewrite <- Es. unfold datetime_add. intros Hn.
    apply wall_micros_of_wall_micros in Hn. destruct Hn as [Hw Htz].
    revert He. unfold datetime_sub. rewrite Hw, Htz.
    unfold wall_micros, timedelta.
    cbn [year month day hour minute second microsecond tzinfo].
    match goal with
    | |- of_wall_micros ?n _ = _ -> _ =>
        replace n
          with ((Calendar.ymd2ord (year date_utc) (month date_utc)
                   (day date_utc) * 86400 + 23 * 3600 + 59 * 60 + 59)
                * 1000000 + 0) by lia
    end.
    rewrite (of_wall_micros_fields _ _ _ 23 59 59 0 (Some 0) Hv) by lia.
    intros He. injection He as He. symmetry. exact He. }
  split; [reflexivity|]. split; [symmetry; exact Es|].
  split; [exact Ee | exact Hex].
Qed.

(** Lines 82-83 succeed for every valid date but 9999-12-31, where adding a
    day leaves the range of [datetime]. *)
Lemma utc_day_total date_utc :
  Calendar.valid_ymd (year date_utc) (month date_utc) (day date_utc) = true ->
  ~ (year date_utc = 9999 /\ month date_utc = 12 /\ day date_utc = 31) ->
  utc_day date_utc
  = Return (mkdatetime (year date_utc) (month date_utc) (day date_utc)
                       0 0 0 0 (Some 0),
            mkdatetime (year date_utc) (month date_utc) (day date_utc)
                       23 59 59 0 (Some 0)).
Proof.
  intros Hv Hlast.
  set (y := year date_utc) in *. set (m := month date_utc) in *.
  set (d := day date_utc) in *.
  pose proof (CalendarFacts.ymd2ord_range y m d Hv) as Hr.
  assert (Calendar.ymd2ord y m d <> Calendar.MAXORDINAL) as Hne.
  { intros E. apply Hlast. apply CalendarFacts.ymd2ord_last; assumption. }
  destruct (CalendarFacts.ord2ymd_spec (Calendar.ymd2ord y m d + 1))
    as (y' & m' & d' & Eo & Hv' & Ho'); [lia|].
  assert (datetime_add (mkdatetime y m d 0 0 0 0 (Some 0)) (timedelta 1 0)
          = Some (mkdatetime y' m' d' 0 0 0 0 (Some 0))) as Hadd.
  { unfold datetime_add, wall_micros, timedelta.
    cbn [year month day hour minute second microsecond tzinfo].
    match goal with
    | |- of_wall_micros ?n _ = _ =>
        replace n
          with ((Calendar.ymd2ord y' m' d' * 86400 + 0 * 3600 + 0 * 60 + 0)
                * 1000000 + 0) by lia
    end.
    apply of_wall_micros_fields; [exact Hv'|lia..]. }
  assert (datetime_sub (mkdatetime y' m' d' 0 0 0 0 (Some 0)) (timedelta 0 1)
          = Some (mkdatetime y m d 23 59 59 0 (Some 0))) as Hsub.
  { unfold datetime_sub, wall_micros, timedelta.
    cbn [year month day hour minute second microsecond tzinfo].
    match goal with
    | |- of_wall_micros ?n _ = _ =>
        replace n
          with ((Calendar.ymd2ord y m d * 86400 + 23 * 3600 + 59 * 60 + 59)
                * 1000000 + 0) by lia
    end.
    apply of_wall_micros_fields; [exact Hv|lia..]. }
  unfold utc_day, datetime_utc. fold y m d. rewrite Hv.
  unfold mbind, outcome_bind. rewrite Hadd. unfold or_raise at 1.
  cbv beta iota. rewrite Hsub. reflexivity.
Qed.

End UtcDay.

(** ** The order of datetimes *)

Lemma tuple_compare_refl a : tuple_compare a a = Eq.
Proof. induction a as [|x a IH]; simpl; [|rewrite Z.compare_refl]; auto. Qed.

Lemma tuple_compare_Gt_trans a :
  forall b c,
    tuple_compare a b = Gt -> tuple_compare b c = Gt -> tuple_compare a c = Gt.
Proof.
  induction a as [|x a IH]; intros [|y b] [|z c]; simpl; try congruence.
  destruct (Z.compare_spec x y), (Z.compare_spec y z);
    try congruence; intros H1 H2.
  - subst. rewrite Z.compare_refl. eapply IH; eassumption.
  - subst. apply Z.compare_gt_iff in H0 as ->. reflexivity.
  - subst. apply Z.compare_gt_iff in H as ->. reflexivity.
  - assert (z < x) as Hzx by lia. apply Z.compare_gt_iff in Hzx as ->.
    reflexivity.
Qed.

Lemma datetime_gt_trans a b c :
  datetime_gt a b -> datetime_gt b c -> datetime_gt a c.
Proof. apply tuple_compare_Gt_trans. Qed.

Lemma datetime_gt_irrefl a : ~ datetime_gt a a.
Proof.
  unfold datetime_gt, datetime_compare. rewrite tuple_compare_refl.
  discriminate.
Qed.

Lemma datetime_le_refl a : datetime_le a a.
Proof.
  unfold datetime_le, datetime_compare. rewrite tuple_compare_refl.
  discriminate.
Qed.

Lemma last_second_after_midnight y m d tz :
  datetime_gt (mkdatetime y m d 23 59 59 0 tz) (mkdatetime y m d 0 0 0 0 tz).
Proof.
  unfold datetime_gt, datetime_compare, datetime_fields. simpl.
  rewrite !Z.compare_refl. reflexivity.
Qed.

(** ** fetch_electricity_cost: the two paths *)

Section FetchPaths.
Context `{P : Platform}.

Lemma fetch_cached date area w :
  is_Some (fs w !! cache_path_of date area) ->
  fetch_electricity_cost date area w
  = bind (json_load (cache_path_of date area)) costs_of_json w.
Proof.
  intros H. unfold fetch_electricity_cost. unfold bind at 1.
  unfold os_path_exists. rewrite bool_decide_eq_true_2 by exact H. reflexivity.
Qed.

Lemma fetch_uncached date area w :
  fs w !! cache_path_of date area = None ->
  fetch_electricity_cost date area w
  = bind (requests_get (url_of date area))
      (fun response =>
         if status_code response =? 200 then
           bind (lift (or_raise JSONDecodeError (json response))) (fun data =>
           bind (os_makedirs (os_path_dirname (cache_path_of date area)))
                (fun _ =>
           bind (json_dump data (cache_path_of date area)) (fun _ =>
           costs_of_json data)))
         else
           raise (Exception ("Failed to fetch data: "
                             +:+ str_int (status_code response)))) w.
Proof.
  intros H. unfold fetch_electricity_cost. unfold bind at 1.
  unfold os_path_exists. rewrite bool_decide_eq_false_2; [reflexivity|].
  rewrite H. intros [x Hx]. discriminate.
Qed.

(** A cache hit: the outcome is the decoded document, and only the heap
    grows. *)
Lemma fetch_cached_spec date area w :
  is_Some (fs w !! cache_path_of date area) ->
  exists w',
    snd (fetch_electricity_cost date area w) = w'
    /\ fs w' = fs w /\ requests w' = requests w
    /\ heap w `prefix_of` heap w'
    /\ series_of (fetch_electricity_cost date area w)
       = match fs w !! cache_path_of date area with
         | Some (File (Some data)) => decode_series data
         | Some (File None) => Raise JSONDecodeError
         | _ => Raise OSError
         end.
Proof.
  intros H. rewrite (fetch_cached _ _ _ H). unfold bind, json_load.
  destruct (fs w !! cache_path_of date area) as [[[data|]|]|] eqn:E.
  - destruct (costs_of_json_spec data w) as (w' & Hw & Hf & Hr & Hh & Hs & _).
    exists w'. repeat split; auto.
  - exists w. repeat split; auto.
  - exists w. repeat split; auto.
  - exists w. repeat split; auto.
Qed.

(** A cache miss answered with a status other than 200. *)
Lemma fetch_uncached_not_200 date area w r :
  fs w !! cache_path_of date area = None ->
  http_get (url_of date area) = Some r ->
  status_code r <> 200 ->
  fetch_electricity_cost date area w
  = (Raise (Exception ("Failed to fetch data: " +:+ str_int (status_code r))),
     with_request w (url_of date area)).
Proof.
  intros Hc Hr Hs. rewrite (fetch_uncached _ _ _ Hc).
  unfold bind, requests_get. rewrite Hr.
  destruct (Z.eqb_spec (status_code r) 200) as [E|E]; [contradiction|].
  reflexivity.
Qed.

End FetchPaths.

(** ** Creating the cache directories *)

Section Makedirs.
Context `{P : Platform}.

Lemma mkdir_exist_ok_spec p w :
  (forall doc, fs w !! p <> Some (File doc)) ->
  os_path_dirname p = [] \/ fs w !! os_path_dirname p = Some Dir ->
  exists w',
    mkdir_exist_ok p w = (Return tt, w')
    /\ requests w' = requests w /\ heap w' = heap w
    /\ fs w' !! p = Some Dir
    /\ forall q, q <> p -> fs w' !! q = fs w !! q.
Proof.
  intros Hnf Hpar. unfold mkdir_exist_ok.
  destruct (fs w !! p) as [[doc|]|] eqn:E.
  - exfalso. eapply Hnf. reflexivity.
  - exists w. repeat split; auto.
  - cbv zeta. exists (with_fs w (<[p := Dir]> (fs w))). split.
    { revert Hpar. destruct (os_path_dirname p) as [|s l]; [reflexivity|].
      intros [Hp|Hp]; [discriminate|]. rewrite Hp. reflexivity. }
    simpl. repeat split.
    + apply lookup_insert_eq.
    + intros q Hq. apply lookup_insert_ne. congruence.
Qed.

Lemma dirname_snoc (p : path) (t : string) : os_path_dirname (p ++ [t]) = p.
Proof. unfold os_path_dirname. apply removelast_last. Qed.

Lemma makedirs_rev_spec rname w :
  (forall p doc, p <> [] -> p `prefix_of` reverse rname ->
                 fs w !! p <> Some (File doc)) ->
  exists w',
    makedirs_rev rname w = (Return tt, w')
    /\ requests w' = requests w /\ heap w' = heap w
    /\ (rname <> [] -> fs w' !! reverse rname = Some Dir)
    /\ forall q, fs w' !! q = fs w !! q
                 \/ (fs w !! q = None /\ fs w' !! q = Some Dir
                     /\ q <> [] /\ q `prefix_of` reverse rname).
Proof.
  revert w. induction rname as [|t rhead IH]; intros w Hnf.
  - exists w. simpl. unfold ret. repeat split; auto. congruence.
  - assert (exists w1,
      (match rhead with
       | [] => ret tt
       | _ :: _ =>
           bind (os_path_exists (reverse rhead)) (fun head_exists =>
           if head_exists then ret tt else makedirs_rev rhead)
       end) w = (Return tt, w1)
      /\ requests w1 = requests w /\ heap w1 = heap w
      /\ (rhead <> [] -> fs w1 !! reverse rhead = Some Dir)
      /\ forall q, fs w1 !! q = fs w !! q
                   \/ (fs w !! q = None /\ fs w1 !! q = Some Dir
                       /\ q <> [] /\ q `prefix_of` reverse rhead))
      as (w1 & E1 & Hr1 & Hh1 & Hd1 & Hq1).
    { destruct rhead as [|t2 rh2] eqn:Erh.
      - exists w. unfold ret. repeat split; auto. congruence.
      - rewrite <- Erh in *. unfold bind at 1. unfold os_path_exists.
        case_bool_decide as Hex.
        + exists w. unfold ret. repeat split; auto.
          intros _. destruct Hex as [[doc|] Hn]; [|exact Hn].
          exfalso. eapply (Hnf (reverse rhead) doc); [| |exact Hn].
          * subst rhead. rewrite reverse_cons. intros E.
            apply app_eq_nil in E. destruct E; discriminate.
          * rewrite reverse_cons. apply prefix_app_r. reflexivity.
        + destruct (IH w) as (w1 & E1 & Hr1 & Hh1 & Hd1 & Hq1).
          { intros p doc Hp Hpre. apply Hnf; [exact Hp|].
            rewrite reverse_cons. apply prefix_app_r. exact Hpre. }
          exists w1. repeat split; auto. }
    simpl makedirs_rev. change (bind ?c (fun _ => ?k)) with (bind c (fun _ => k)).
    destruct (mkdir_exist_ok_spec (reverse (t :: rhead)) w1)
      as (w2 & E2 & Hr2 & Hh2 & Hd2 & Hq2).
    { intros doc Hn. destruct (Hq1 (reverse (t :: rhead))) as [Hs|(_ & Hs & _)].
      - rewrite Hs in Hn. revert Hn. apply Hnf; [|reflexivity].
        rewrite reverse_cons. intros E. apply app_eq_nil in E.
        destruct E; discriminate.
      - rewrite Hs in Hn. discriminate. }
    { rewrite reverse_cons, dirname_snoc.
      destruct rhead as [|t2 rh2]; [left; reflexivity|right].
      apply Hd1. discriminate. }
    exists w2. split.
    { unfold bind at 1. rewrite E1. exact E2. }
    split; [congruence|]. split; [congruence|]. split; [intros _; exact Hd2|].
    intros q. destruct (decide (q = reverse (t :: rhead))) as [->|Hne].
    + destruct (fs w !! reverse (t :: rhead)) as [[doc|]|] eqn:Ew.
      * exfalso. eapply Hnf; [| |exact Ew]; [|reflexivity].
        rewrite reverse_cons. intros E. apply app_eq_nil in E.
        destruct E; discriminate.
      * left. exact Hd2.
      * right. repeat split; auto.
        rewrite reverse_cons. intros E. apply app_eq_nil in E.
        destruct E; discriminate.
    + rewrite (Hq2 q Hne). destruct (Hq1 q) as [Hs|(Ha & Hb & Hc & Hd)].
      * left. exact Hs.
      * right. repeat split; auto. rewrite reverse_cons.
        apply prefix_app_r. exact Hd.
Qed.

Lemma os_makedirs_spec name w :
  name <> [] ->
  (forall p doc, p <> [] -> p `prefix_of` name ->
                 fs w !! p <> Some (File doc)) ->
  exists w',
    os_makedirs name w = (Return tt, w')
    /\ requests w' = requests w /\ heap w' = heap w
    /\ fs w' !! name = Some Dir
    /\ forall q, fs w' !! q = fs w !! q
                 \/ (fs w !! q = None /\ fs w' !! q = Some Dir
                     /\ q <> [] /\ q `prefix_of` name).
Proof.
  intros Hne Hnf. unfold os_makedirs.
  destruct (makedirs_rev_spec (reverse name) w) as (w' & E & Hr & Hh & Hd & Hq).
  { rewrite reverse_involutive. exact Hnf. }
  rewrite reverse_involutive in *.
  exists w'. repeat split; auto. apply Hd.
  intros E'. apply (f_equal reverse) in E'.
  rewrite reverse_involutive in E'. contradiction.
Qed.

End Makedirs.

(** ** fetch_electricity_cost: a miss answered with status 200 *)

Section FetchMiss.
Context `{P : Platform}.

Lemma json_dump_spec data p w :
  fs w !! p = None ->
  fs w !! os_path_dirname p = Some Dir ->
  json_dump data p w
  = (Return tt, with_fs w (<[p := File (Some data)]> (fs w))).
Proof.
  intros Hp Hd. unfold json_dump. rewrite Hp. cbv zeta.
  revert Hd. destruct (os_path_dirname p) as [|s l]; [reflexivity|].
  intros ->. reflexivity.
Qed.

Lemma cache_path_not_in_dir date area q :
  q `prefix_of` os_path_dirname (cache_path_of date area) ->
  q <> cache_path_of date area.
Proof.
  intros Hpre ->. apply prefix_length in Hpre. simpl in Hpre. lia.
Qed.

Lemma fetch_uncached_200 date area w r data :
  fs w !! cache_path_of date area = None ->
  http_get (url_of date area) = Some r ->
  status_code r = 200 ->
  json r = Some data ->
  (forall p doc, p <> [] ->
     p `prefix_of` os_path_dirname (cache_path_of date area) ->
     fs w !! p <> Some (File doc)) ->
  exists w',
    snd (fetch_electricity_cost date area w) = w'
    /\ requests w' = requests w ++ [url_of date area]
    /\ heap w `prefix_of` heap w'
    /\ fs w' !! cache_path_of date area = Some (File (Some data))
    /\ fs w' !! os_path_dirname (cache_path_of date area) = Some Dir
    /\ (forall q, q <> cache_path_of date area ->
          fs w' !! q = fs w !! q
          \/ (fs w !! q = None /\ fs w' !! q = Some Dir
              /\ q `prefix_of` os_path_dirname (cache_path_of date area)))
    /\ series_of (fetch_electricity_cost date area w) = decode_series data.
Proof.
  intros Hc Hr Hs Hj Hnf.
  destruct (os_makedirs_spec (os_path_dirname (cache_path_of date area))
              (with_request w (url_of date area)))
    as (w1 & E1 & Hr1 & Hh1 & Hd1 & Hq1).
  { discriminate. }
  { exact Hnf. }
  assert (fs w1 !! cache_path_of date area = None) as Hc1.
  { destruct (Hq1 (cache_path_of date area)) as [Hsame|(_ & _ & _ & Hpre)].
    - rewrite Hsame. exact Hc.
    - exfalso. eapply cache_path_not_in_dir; [exact Hpre|reflexivity]. }
  set (w2 := with_fs w1 (<[cache_path_of date area := File (Some data)]> (fs w1))).
  assert (fetch_electricity_cost date area w = costs_of_json data w2) as ->.
  { rewrite (fetch_uncached _ _ _ Hc).
    unfold bind at 1. unfold requests_get. rewrite Hr.
    rewrite Hs. simpl (200 =? 200). cbv iota.
    unfold bind at 1. unfold lift. rewrite Hj. simpl or_raise.
    unfold bind at 1. rewrite E1.
    unfold bind at 1. rewrite (json_dump_spec data _ w1 Hc1 Hd1).
    reflexivity. }
  destruct (costs_of_json_spec data w2) as (w' & Hw & Hf & Hrq & Hh & Hser & _).
  exists w'. split; [exact Hw|]. split; [|split; [|split; [|split; [|split]]]].
  - rewrite Hrq. unfold w2. simpl. rewrite Hr1. reflexivity.
  - etransitivity; [|exact Hh]. unfold w2. simpl. rewrite Hh1. reflexivity.
  - rewrite Hf. unfold w2. simpl. apply lookup_insert_eq.
  - rewrite Hf. unfold w2. simpl. rewrite lookup_insert_ne; [exact Hd1|].
    intros E. eapply (cache_path_not_in_dir date area); [|symmetry; exact E].
    reflexivity.
  - intros q Hq. rewrite Hf. unfold w2. simpl.
    rewrite lookup_insert_ne by congruence.
    destruct (Hq1 q) as [Hsame|(Ha & Hb & _ & Hd)].
    + left. exact Hsame.
    + right. repeat split; auto.
  - exact Hser.
Qed.

End FetchMiss.

(** ** fetch_electricity_cost: the request log *)

Section FetchLog.
Context `{P : Platform}.

Lemma mkdir_exist_ok_requests p w :
  requests (snd (mkdir_exist_ok p w)) = requests w.
Proof.
  unfold mkdir_exist_ok. destruct (fs w !! p) as [[?|]|]; try reflexivity.
  cbv zeta. destruct (os_path_dirname p) as [|s l]; [reflexivity|].
  destruct (fs w !! (s :: l)) as [[?|]|]; reflexivity.
Qed.

Lemma makedirs_rev_requests rname w :
  requests (snd (makedirs_rev rname w)) = requests w.
Proof.
  revert w. induction rname as [|t rhead IH]; intros w; [reflexivity|].
  simpl makedirs_rev. unfold bind at 1.
  assert (forall w0, requests (snd (
      (match rhead with
       | [] => ret tt
       | _ :: _ =>
           bind (os_path_exists (reverse rhead)) (fun head_exists =>
           if head_exists then ret tt else makedirs_rev rhead)
       end) w0)) = requests w0) as Hhead.
  { intros w0. destruct rhead as [|t2 rh2] eqn:E; [reflexivity|].
    rewrite <- E in *. unfold bind, os_path_exists.
    case_bool_decide; [reflexivity|]. apply IH. }
  specialize (Hhead w).
  destruct (match rhead with [] => ret tt | _ :: _ => _ end w)
    as [[[]|e] w1]; simpl in Hhead.
  - rewrite mkdir_exist_ok_requests. exact Hhead.
  - exact Hhead.
Qed.

Lemma json_dump_requests data p w :
  requests (snd (json_dump data p w)) = requests w.
Proof.
  unfold json_dump. cbv zeta.
  destruct (fs w !! p) as [[?|]|]; try reflexivity;
    destruct (os_path_dirname p) as [|s l]; try reflexivity;
    destruct (fs w !! (s :: l)) as [[?|]|]; reflexivity.
Qed.

Lemma mkdir_exist_ok_heap p w :
  heap (snd (mkdir_exist_ok p w)) = heap w.
Proof.
  unfold mkdir_exist_ok. destruct (fs w !! p) as [[?|]|]; try reflexivity.
  cbv zeta. destruct (os_path_dirname p) as [|s l]; [reflexivity|].
  destruct (fs w !! (s :: l)) as [[?|]|]; reflexivity.
Qed.

Lemma makedirs_rev_heap rname w :
  heap (snd (makedirs_rev rname w)) = heap w.
Proof.
  revert w. induction rname as [|t rhead IH]; intros w; [reflexivity|].
  simpl makedirs_rev. unfold bind at 1.
  assert (forall w0, heap (snd (
      (match rhead with
       | [] => ret tt
       | _ :: _ =>
           bind (os_path_exists (reverse rhead)) (fun head_exists =>
           if head_exists then ret tt else makedirs_rev rhead)
       end) w0)) = heap w0) as Hhead.
  { intros w0. destruct rhead as [|t2 rh2] eqn:E; [reflexivity|].
    rewrite <- E in *. unfold bind, os_path_exists.
    case_bool_decide; [reflexivity|]. apply IH. }
  specialize (Hhead w).
  destruct (match rhead with [] => ret tt | _ :: _ => _ end w)
    as [[[]|e] w1]; simpl in Hhead.
  - rewrite mkdir_exist_ok_heap. exact Hhead.
  - exact Hhead.
Qed.

Lemma json_dump_heap data p w :
  heap (snd (json_dump data p w)) = heap w.
Proof.
  unfold json_dump. cbv zeta.
  destruct (fs w !! p) as [[?|]|]; try reflexivity;
    destruct (os_path_dirname p) as [|s l]; try reflexivity;
    destruct (fs w !! (s :: l)) as [[?|]|]; reflexivity.
Qed.

Lemma costs_of_json_requests data w :
  requests (snd (costs_of_json data w)) = requests w.
Proof.
  destruct (costs_of_json_spec data w) as (w' & -> & _ & Hr & _). exact Hr.
Qed.

Lemma fetch_requests date area w :
  requests (snd (fetch_electricity_cost date area w))
  = if bool_decide (is_Some (fs w !! cache_path_of date area))
    then requests w
    else requests w ++ [url_of date area].
Proof.
  case_bool_decide as Hc.
  - destruct (fetch_cached_spec date area w Hc) as (w' & -> & _ & Hr & _).
    exact Hr.
  - assert (fs w !! cache_path_of date area = None) as Hn.
    { destruct (fs w !! cache_path_of date area); [|reflexivity].
      exfalso. apply Hc. eauto. }
    rewrite (fetch_uncached _ _ _ Hn). unfold bind at 1, requests_get.
    destruct (http_get (url_of date area)) as [r|]; [|reflexivity].
    destruct (status_code r =? 200); [|reflexivity].
    unfold bind at 1, lift. destruct (json r) as [data|]; [|reflexivity].
    simpl or_raise. cbv iota.
    set (w0 := with_request w (url_of date area)).
    change (requests w ++ [url_of date area]) with (requests w0).
    unfold bind at 1.
    pose proof (makedirs_rev_requests
                  (reverse (os_path_dirname (cache_path_of date area))) w0)
      as H1.
    unfold os_makedirs.
    destruct (makedirs_rev _ w0) as [[[]|e] w1]; simpl in H1; [|exact H1].
    unfold bind at 1.
    pose proof (json_dump_requests data (cache_path_of date area) w1) as H2.
    destruct (json_dump data _ w1) as [[[]|e] w2]; simpl in H2;
      [|simpl; rewrite H2, H1; reflexivity].
    rewrite costs_of_json_requests, H2, H1. reflexivity.
Qed.

(** Which exceptions the steps after a 200 answer can raise. *)

Lemma mkdir_exist_ok_raises p w e w' :
  mkdir_exist_ok p w = (Raise e, w') -> e = OSError.
Proof.
  unfold mkdir_exist_ok. cbv zeta.
  destruct (fs w !! p) as [[?|]|]; try (intros E; inversion E; reflexivity);
    destruct (os_path_dirname p) as [|s l];
    try (intros E; inversion E; reflexivity);
    destruct (fs w !! (s :: l)) as [[?|]|]; intros E; inversion E; reflexivity.
Qed.

Lemma makedirs_rev_raises rname w e w' :
  makedirs_rev rname w = (Raise e, w') -> e = OSError.
Proof.
  revert w. induction rname as [|t rhead IH]; intros w; [discriminate|].
  simpl makedirs_rev. unfold bind at 1.
  destruct rhead as [|t2 rh2] eqn:Eh.
  - unfold ret. apply mkdir_exist_ok_raises.
  - rewrite <- Eh in *. unfold bind at 1, os_path_exists.
    case_bool_decide.
    + unfold ret. apply mkdir_exist_ok_raises.
    + destruct (makedirs_rev rhead w) as [[[]|e0] w1] eqn:E1.
      * apply mkdir_exist_ok_raises.
      * intros E. inversion E; subst. eapply IH. exact E1.
Qed.

Lemma json_dump_raises data p w e w' :
  json_dump data p w = (Raise e, w') -> e = OSError.
Proof.
  unfold json_dump. cbv zeta.
  destruct (fs w !! p) as [[?|]|]; try (intros E; inversion E; reflexivity);
    destruct (os_path_dirname p) as [|s l];
    try (intros E; inversion E; reflexivity);
    destruct (fs w !! (s :: l)) as [[?|]|]; intros E; inversion E; reflexivity.
Qed.

Lemma costs_of_json_raises data w e w' :
  costs_of_json data w = (Raise e, w') -> e = TypeError.
Proof.
  intros E.
  destruct (costs_of_json_spec data w) as (w3 & _ & _ & _ & _ & Hs & _).
  rewrite E in Hs. simpl in Hs. unfold decode_series in Hs.
  destruct (py_iter data) as [items|]; simpl in Hs; [|congruence].
  destruct (mapM ElectricityCost_init items); simpl in Hs; congruence.
Qed.

(** A miss answered with status 200 never raises the module's own
    [Exception]. *)
Lemma fetch_uncached_200_raises date area w r e w' :
  fs w !! cache_path_of date area = None ->
  http_get (url_of date area) = Some r ->
  status_code r = 200 ->
  fetch_electricity_cost date area w = (Raise e, w') ->
  e = JSONDecodeError \/ e = OSError \/ e = TypeError.
Proof.
  intros Hc Hr Hs. rewrite (fetch_uncached _ _ _ Hc).
  unfold bind at 1, requests_get. rewrite Hr, Hs.
  simpl (200 =? 200). cbv iota.
  unfold bind at 1, lift. destruct (json r) as [data|]; simpl or_raise;
    cbv iota; [|intros E; inversion E; auto].
  unfold bind at 1, os_makedirs.
  destruct (makedirs_rev _ _) as [[[]|e1] w1] eqn:E1.
  - unfold bind at 1.
    destruct (json_dump _ _ _) as [[[]|e2] w2] eqn:E2.
    + intros E. apply costs_of_json_raises in E. auto.
    + intros E. inversion E; subst. apply json_dump_raises in E2. auto.
  - intros E. inversion E; subst. apply makedirs_rev_raises in E1. auto.
Qed.

End FetchLog.

(** ** Claims about fetch_electricity_cost *)

(** C4, as amended.  For an uncached key whose request is answered,
    [fetch_electricity_cost] raises its own error, carrying the status code,
    exactly when the status is not 200 (other 2xx statuses fail too).  On
    status 200 with a body that decodes as JSON, and no regular file in the
    way of the cache directories, the decoded structure is stored verbatim
    at the cache path and its directory exists; the outcome is then the
    reading of that structure as a series: the call returns the series when
    the structure is a list of objects with the five fields, and raises
    [TypeError] when it is not, the structure staying in the cache. *)
Theorem fetch_fails_iff_status_not_200 `{P : Platform} date area w r :
  fs w !! cache_path_of date area = None ->
  http_get (url_of date area) = Some r ->
  ((exists w', fetch_electricity_cost date area w
               = (Raise (Exception ("Failed to fetch data: "
                                    +:+ str_int (status_code r))), w'))
   <-> status_code r <> 200)
  /\ (status_code r = 200 ->
      forall data, json r = Some data ->
      no_file_in_the_way (fs w) (os_path_dirname (cache_path_of date area)) ->
      let w' := snd (fetch_electricity_cost date area w) in
      fs w' !! cache_path_of date area = Some (File (Some data))
      /\ fs w' !! os_path_dirname (cache_path_of date area) = Some Dir
      /\ series_of (fetch_electricity_cost date area w) = decode_series data
      /\ (forall cs, decode_series data = Return cs ->
            exists ls,
              fetch_electricity_cost date area w = (Return ls, w')
              /\ objects (heap w') ls = Some cs)
      /\ (forall e, decode_series data = Raise e ->
            fetch_electricity_cost date area w = (Raise TypeError, w'))).
Proof.
  intros Hc Hr. split.
  - split.
    + intros [w' E] Hs.
      destruct (fetch_uncached_200_raises _ _ _ _ _ _ Hc Hr Hs E)
        as [H|[H|H]]; discriminate.
    + intros Hs. eexists. apply fetch_uncached_not_200; assumption.
  - intros Hs data Hj Hnf w'.
    destruct (fetch_uncached_200 date area w r data Hc Hr Hs Hj Hnf)
      as (w'' & Hw & _ & _ & Hf & Hd & _ & Hser).
    subst w'. rewrite Hw.
    split; [exact Hf|]. split; [exact Hd|]. split; [exact Hser|].
    split.
    + intros cs Hcs. rewrite Hcs in Hser.
      apply series_of_Return in Hser. destruct Hser as (ls & Hfst & Hobj).
      exists ls. rewrite Hw in Hobj. split; [|exact Hobj].
      rewrite <- Hw, <- Hfst. apply surjective_pairing.
    + intros e He. pose proof (decode_series_raises _ _ He) as ->.
      rewrite He in Hser. apply series_of_TypeError in Hser.
      rewrite <- Hw, <- Hser. apply surjective_pairing.
Qed.

Lemma fetch_fails_iff_status_not_200_witness :
  let w' := snd (fetch_electricity_cost (P := Scenario.platform)
                   Scenario.day1 SE4 Scenario.fresh) in
  fs w' !! ["cache"; "2024"; "01"; "01_SE4.json"]%string
  = Some (File (Some (Scenario.document Scenario.day1 (Scenario.prices 1))))
  /\ fs w' !! ["cache"; "2024"; "01"]%string = Some Dir
  /\ series_of (fetch_electricity_cost (P := Scenario.platform)
                  Scenario.day1 SE4 Scenario.fresh)
     = decode_series (Scenario.document Scenario.day1 (Scenario.prices 1)).
Proof.
  destruct (fetch_fails_iff_status_not_200 (P := Scenario.platform)
              Scenario.day1 SE4 Scenario.fresh
              (mkresponse 200
                 (Some (Scenario.document Scenario.day1 (Scenario.prices 1)))))
    as [_ H].
  - vm_compute. reflexivity.
  - vm_compute. reflexivity.
  - destruct (H eq_refl _ eq_refl) as (H1 & H2 & H3 & _).
    + intros p doc _ _. simpl. rewrite lookup_empty. discriminate.
    + split; [exact H1|]. split; [exact H2 | exact H3].
Defined.

(** C4, as stated, fails: a key that is not cached, a response with the
    success status 203, and the call raises all the same. *)
Lemma success_status_203_is_refused :
  ~ (forall r,
       fs Scenario.fresh !! cache_path_of (mkdate 2024 1 3) SE4 = None ->
       http_get (Platform := Scenario.platform)
         (url_of (mkdate 2024 1 3) SE4) = Some r ->
       ((exists e w', fetch_electricity_cost (P := Scenario.platform)
                        (mkdate 2024 1 3) SE4 Scenario.fresh = (Raise e, w'))
        <-> spec_success_status (status_code r) = false)).
Proof.
  intros H.
  specialize (H (mkresponse 203
                   (Some (Scenario.document (mkdate 2024 1 3)
                            (Scenario.prices 49))))).
  assert (fs Scenario.fresh !! cache_path_of (mkdate 2024 1 3) SE4 = None)
    as Hc by (vm_compute; reflexivity).
  assert (http_get (Platform := Scenario.platform)
            (url_of (mkdate 2024 1 3) SE4)
          = Some (mkresponse 203
                    (Some (Scenario.document (mkdate 2024 1 3)
                             (Scenario.prices 49)))))
    as Hr by (vm_compute; reflexivity).
  destruct (H Hc Hr) as [Hfail _].
  assert (spec_success_status 203 = false) as Habs; [|discriminate Habs].
  apply Hfail. eexists _, _.
  apply (fetch_uncached_not_200 (P := Scenario.platform) _ _ _ _ Hc Hr).
  simpl. lia.
Qed.

(** C5.  When the response for an uncached key has a status other than 200
    (so in particular any status outside 200..299), the call raises the
    error whose message carries that status; one request was sent and none
    after it, and the cache tree and the heap are as before. *)
Theorem fetch_failure_reports_status_and_leaves_cache `{P : Platform}
    date area w r :
  fs w !! cache_path_of date area = None ->
  http_get (url_of date area) = Some r ->
  status_code r <> 200 ->
  exists w',
    fetch_electricity_cost date area w
    = (Raise (Exception ("Failed to fetch data: " +:+ str_int (status_code r))),
       w')
    /\ requests w' = requests w ++ [url_of date area]
    /\ fs w' = fs w
    /\ heap w' = heap w.
Proof.
  intros Hc Hr Hs. eexists. split.
  - apply fetch_uncached_not_200; eassumption.
  - simpl. auto.
Qed.

Lemma fetch_failure_reports_status_and_leaves_cache_witness :
  exists w',
    fetch_electricity_cost (P := Scenario.platform)
      (mkdate 2024 1 5) SE4 Scenario.fresh
    = (Raise (Exception "Failed to fetch data: 404"), w')
    /\ requests w'
       = ["https://www.elprisetjustnu.se/api/v1/prices/2024/01-05_SE4.json"
          %string]
    /\ fs w' = ∅
    /\ heap w' = [].
Proof.
  apply (fetch_failure_reports_status_and_leaves_cache
           (P := Scenario.platform) (mkdate 2024 1 5) SE4 Scenario.fresh
           (mkresponse 404 None)).
  - vm_compute. reflexivity.
  - vm_compute. reflexivity.
  - simpl. lia.
Defined.

(** C6.  With a file at the cache path, the call returns the series decoded
    from that file (or fails as the decoding does) and sends no request; a
    second call for the same key yields the same series, again without a
    request, and the series of the first call is still intact. *)
Theorem fetch_cached_is_idempotent `{P : Platform} date area w doc :
  fs w !! cache_path_of date area = Some (File doc) ->
  let r1 := fetch_electricity_cost date area w in
  let r2 := fetch_electricity_cost date area (snd r1) in
  series_of r1 = (data ← or_raise JSONDecodeError doc; decode_series data)
  /\ series_of r2 = series_of r1
  /\ series_of (fst r1, snd r2) = series_of r1
  /\ requests (snd r1) = requests w
  /\ requests (snd r2) = requests w.
Proof.
  intros Hc r1 r2.
  destruct (fetch_cached_spec date area w) as (w1 & Hw1 & Hf1 & Hr1 & Hh1 & Hs1).
  { rewrite Hc. eauto. }
  fold r1 in Hw1, Hs1.
  destruct (fetch_cached_spec date area w1) as (w2 & Hw2 & Hf2 & Hr2 & Hh2 & Hs2).
  { rewrite Hf1, Hc. eauto. }
  rewrite Hf1, Hc in Hs2. rewrite Hc in Hs1.
  rewrite <- Hw1 in Hw2, Hs2. fold r2 in Hw2, Hs2.
  assert (series_of r1
          = (data ← or_raise JSONDecodeError doc; decode_series data)) as E1.
  { rewrite Hs1. destruct doc; reflexivity. }
  split; [exact E1|]. split; [|split; [|split]].
  - rewrite Hs2, Hs1. reflexivity.
  - destruct r1 as [[l1|e1] w1'] eqn:Er1; simpl in *; [|reflexivity].
    subst w1'. rewrite Hw2.
    destruct (objects (heap w1) l1) as [cs|] eqn:Eo.
    + rewrite (objects_prefix _ _ _ _ Hh2 Eo). reflexivity.
    + exfalso. simpl in E1. destruct doc as [data|]; simpl in E1;
        [|discriminate].
      destruct (decode_series data) as [cs|e] eqn:Ed; [discriminate|].
      apply decode_series_raises in Ed. subst e. discriminate.
  - rewrite Hw1. exact Hr1.
  - rewrite Hw2. congruence.
Qed.

Lemma fetch_cached_is_idempotent_witness :
  let r1 := fetch_electricity_cost (P := Scenario.platform)
              Scenario.day1 SE4 Scenario.cached in
  let r2 := fetch_electricity_cost (P := Scenario.platform)
              Scenario.day1 SE4 (snd r1) in
  series_of r1 = Return (Scenario.local_series Scenario.day1 (Scenario.prices 1))
  /\ series_of r2 = series_of r1
  /\ requests (snd r2) = [].
Proof.
  destruct (fetch_cached_is_idempotent (P := Scenario.platform)
              Scenario.day1 SE4 Scenario.cached
              (Some (Scenario.document Scenario.day1 (Scenario.prices 1))))
    as (H1 & H2 & _ & _ & H5).
  - vm_compute. reflexivity.
  - split; [|split].
    + rewrite H1. vm_compute. reflexivity.
    + exact H2.
    + exact H5.
Defined.

(** C10.  When something exists at the cache path the call writes nothing:
    the cache tree afterwards is the tree before.  The tree changes only on
    a miss that is answered with status 200. *)
Theorem fetch_cached_writes_nothing `{P : Platform} date area w :
  (is_Some (fs w !! cache_path_of date area) ->
   fs (snd (fetch_electricity_cost date area w)) = fs w)
  /\ (fs (snd (fetch_electricity_cost date area w)) <> fs w ->
      fs w !! cache_path_of date area = None
      /\ exists r, http_get (url_of date area) = Some r
                   /\ status_code r = 200).
Proof.
  split.
  - intros Hc.
    destruct (fetch_cached_spec date area w Hc) as (w' & -> & Hf & _). exact Hf.
  - intros Hne.
    destruct (fs w !! cache_path_of date area) as [n|] eqn:Hc.
    + exfalso. apply Hne.
      destruct (fetch_cached_spec date area w) as (w' & -> & Hf & _);
        [rewrite Hc; eauto | exact Hf].
    + split; [reflexivity|].
      destruct (http_get (url_of date area)) as [r|] eqn:Hr.
      * exists r. split; [reflexivity|].
        destruct (Z.eq_dec (status_code r) 200) as [E|E]; [exact E|].
        exfalso. apply Hne.
        rewrite (fetch_uncached_not_200 _ _ _ _ Hc Hr E). reflexivity.
      * exfalso. apply Hne. rewrite (fetch_uncached _ _ _ Hc).
        unfold bind, requests_get. rewrite Hr. reflexivity.
Qed.

Lemma fetch_cached_writes_nothing_witness :
  fs (snd (fetch_electricity_cost (P := Scenario.platform)
             Scenario.day1 SE4 Scenario.cached))
  = fs Scenario.cached.
Proof.
  apply (fetch_cached_writes_nothing (P := Scenario.platform)
           Scenario.day1 SE4 Scenario.cached).
  vm_compute. eauto.
Defined.

(** ** The URL and the cache path *)

Lemma str_int_year (y : Z) :
  1 <= y <= 9999 ->
  decimal_of_width (digits_of_year y) y (str_int y) = true.
Proof.
  intros H.
  apply (forallb_seqZ
           (fun y => decimal_of_width (digits_of_year y) y (str_int y))
           1 9999);
    [vm_compute; reflexivity | lia].
Qed.

Lemma zero_padded_2 (n : Z) :
  1 <= n <= 31 -> decimal_of_width 2 n (zero_padded 2 n) = true.
Proof.
  intros H.
  apply (forallb_seqZ (fun n => decimal_of_width 2 n (zero_padded 2 n)) 1 31);
    [vm_compute; reflexivity | lia].
Qed.

(** C8, as amended.  For a date with a year in 1..9999, a month in 1..12 and
    a day in 1..31, the URL is
    [https://www.elprisetjustnu.se/api/v1/prices/<year>/<month>-<day>_<code>.json]
    and the cache path is [cache/<year>/<month>/<day>_<code>.json], where
    [<year>] is the year in decimal without padding (so on four digits
    exactly for the years from 1000 on, and on fewer before), [<month>] and
    [<day>] are on two digits, and [<code>] is the area's name, one of
    SE1..SE4.  The call looks for its cache entry at that path and, on a
    miss, sends its one request to that URL. *)
Theorem fetch_url_and_cache_path `{P : Platform} date area :
  1 <= d_year date <= 9999 ->
  1 <= d_month date <= 12 ->
  1 <= d_day date <= 31 ->
  exists year month day code,
    url_of date area
    = "https://www.elprisetjustnu.se/api/v1/prices/" +:+ year +:+ "/"
        +:+ month +:+ "-" +:+ day +:+ "_" +:+ code +:+ ".json"
    /\ cache_path_of date area
       = ["cache"%string; year; month; day +:+ "_" +:+ code +:+ ".json"]
    /\ decimal_of_width (digits_of_year (d_year date)) (d_year date) year
       = true
    /\ (1000 <= d_year date -> decimal_of_width 4 (d_year date) year = true)
    /\ (d_year date < 1000 -> (String.length year < 4)%nat)
    /\ decimal_of_width 2 (d_month date) month = true
    /\ decimal_of_width 2 (d_day date) day = true
    /\ code = name area
    /\ code ∈ ["SE1"; "SE2"; "SE3"; "SE4"]%string
    /\ forall w,
         requests (snd (fetch_electricity_cost date area w))
         = if bool_decide (is_Some (fs w !! cache_path_of date area))
           then requests w
           else requests w ++ [url_of date area].
Proof.
  intros Hy Hm Hd.
  pose proof (str_int_year _ Hy) as HY.
  exists (strftime_Y date), (strftime_m date), (strftime_d date), (name area).
  split; [reflexivity|]. split; [reflexivity|].
  split; [exact HY|].
  split.
  { intros Hk. unfold digits_of_year in HY.
    replace (d_year date <? 10) with false in HY
      by (symmetry; apply Z.ltb_ge; lia).
    replace (d_year date <? 100) with false in HY
      by (symmetry; apply Z.ltb_ge; lia).
    replace (d_year date <? 1000) with false in HY
      by (symmetry; apply Z.ltb_ge; lia).
    exact HY. }
  split.
  { intros Hk. unfold decimal_of_width in HY.
    apply andb_true_iff in HY. destruct HY as [HY _].
    apply andb_true_iff in HY. destruct HY as [HY _].
    apply Nat.eqb_eq in HY. unfold strftime_Y. rewrite HY.
    unfold digits_of_year.
    destruct (d_year date <? 10); [lia|].
    destruct (d_year date <? 100); [lia|].
    replace (d_year date <? 1000) with true
      by (symmetry; apply Z.ltb_lt; lia).
    lia. }
  split; [apply zero_padded_2; lia|].
  split; [apply zero_padded_2; exact Hd|].
  split; [reflexivity|].
  split; [destruct area; apply list_elem_of_In; simpl; auto|].
  intros w. apply fetch_requests.
Qed.

Lemma fetch_url_and_cache_path_witness :
  requests (snd (fetch_electricity_cost (P := Scenario.platform)
                   (mkdate 2024 1 1) SE4 Scenario.fresh))
  = ["https://www.elprisetjustnu.se/api/v1/prices/2024/01-01_SE4.json"%string]
  /\ cache_path_of (mkdate 2024 1 1) SE4
     = ["cache"; "2024"; "01"; "01_SE4.json"]%string.
Proof.
  destruct (fetch_url_and_cache_path (P := Scenario.platform)
              (mkdate 2024 1 1) SE4)
    as (y & m & d & c & Hu & Hp & _ & _ & _ & _ & _ & _ & _ & Hreq);
    [simpl; lia | simpl; lia | simpl; lia |].
  split; [|reflexivity].
  rewrite Hreq. vm_compute. reflexivity.
Defined.

(** C8, as stated, fails: the year is not always on four digits.  For
    1 January 999 the URL and the cache path carry [999]. *)
Lemma year_999_is_not_on_four_digits :
  url_of (mkdate 999 1 1) SE4
  = "https://www.elprisetjustnu.se/api/v1/prices/999/01-01_SE4.json"%string
  /\ cache_path_of (mkdate 999 1 1) SE4
     = ["cache"; "999"; "01"; "01_SE4.json"]%string
  /\ ~ (exists year month day code,
          cache_path_of (mkdate 999 1 1) SE4
          = ["cache"%string; year; month; day +:+ "_" +:+ code +:+ ".json"]
          /\ decimal_of_width 4 999 year = true).
Proof.
  split; [vm_compute; reflexivity|]. split; [vm_compute; reflexivity|].
  intros (year & month & day & code & Hp & Hy).
  assert (cache_path_of (mkdate 999 1 1) SE4
          = ["cache"; "999"; "01"; "01_SE4.json"]%string) as E
    by (vm_compute; reflexivity).
  rewrite E in Hp. injection Hp as <- _ _.
  vm_compute in Hy. discriminate Hy.
Qed.

(** ** The filtering loop of fetch_electricity_cost_utc *)

Section Loop.
Context `{P : Platform}.

Lemma in_utc_day_decide s e ts te :
  in_utc_day s e ts te = bool_decide (datetime_gt te s /\ datetime_le ts e).
Proof.
  unfold in_utc_day, datetime_gtb, datetime_leb.
  case_bool_decide as H; unfold datetime_gt, datetime_le in H.
  - destruct H as [H1 H2]. rewrite H1.
    destruct (datetime_compare ts e); simpl; congruence.
  - destruct (datetime_compare te s) eqn:E1; try reflexivity.
    destruct (datetime_compare ts e) eqn:E2; try reflexivity;
      exfalso; apply H; split; congruence.
Qed.

Lemma spec_utc_interval_Some s e c ts te :
  is_Some (spec_utc_interval s e (c, (ts, te)))
  <-> datetime_gt te s /\ datetime_le ts e.
Proof.
  unfold spec_utc_interval. case_decide as H; split; intros H'.
  - exact H.
  - eauto.
  - destruct H' as [x Hx]. discriminate.
  - contradiction.
Qed.

Lemma filter_costs_utc_step s e l rest acc w c :
  heap w !! l = Some c ->
  filter_costs_utc s e (l :: rest) acc w
  = match parse_utc (time_start c) with
    | Raise ex => (Raise ex, w)
    | Return ts =>
        match parse_utc (time_end c) with
        | Raise ex => (Raise ex, w)
        | Return te =>
            if in_utc_day s e ts te then
              filter_costs_utc s e rest (acc ++ [length (heap w)])
                (with_object w (replace_times c (isoformat ts) (isoformat te)))
            else filter_costs_utc s e rest acc w
        end
    end.
Proof.
  intros H. simpl. unfold bind at 1, read_object. rewrite H.
  unfold bind at 1, lift. destruct (parse_utc (time_start c)) as [ts|ex];
    [|reflexivity].
  unfold bind at 1. destruct (parse_utc (time_end c)) as [te|ex];
    [|reflexivity].
  destruct (in_utc_day s e ts te); reflexivity.
Qed.

Lemma lookup_with_object w x (ls : list loc) (cs : list ElectricityCost) :
  Forall2 (fun l c => heap w !! l = Some c) ls cs ->
  Forall2 (fun l c => heap (with_object w x) !! l = Some c) ls cs.
Proof.
  intros H. eapply Forall2_impl; [exact H|].
  intros l c E. simpl. apply lookup_app_l_Some. exact E.
Qed.

(** When every interval has UTC readings, the loop returns, and what it
    appends to the heap is the series the specification describes. *)
Lemma filter_costs_utc_spec s e srcs cs times :
  Forall2 utc_times_of cs times ->
  forall acc w,
    Forall2 (fun l c => heap w !! l = Some c) srcs cs ->
    filter_costs_utc s e srcs acc w
    = (Return (acc ++ seq (length (heap w))
                          (length (spec_utc_series s e cs times))),
       {| fs := fs w; requests := requests w;
          heap := heap w ++ spec_utc_series s e cs times |}).
Proof.
  intros Ht. revert srcs.
  induction Ht as [|c [ts te] cs times [Hs He] Ht IH]; intros srcs acc w Hl.
  - inversion Hl; subst. simpl. unfold ret. rewrite !app_nil_r.
    f_equal. apply world_eq; reflexivity.
  - inversion Hl as [|l c' rest cs' Hlc Hrest]; subst.
    rewrite (filter_costs_utc_step _ _ _ _ _ _ _ Hlc).
    simpl in Hs, He. rewrite Hs, He.
    unfold spec_utc_series. simpl zip. simpl omap.
    rewrite in_utc_day_decide.
    unfold spec_utc_interval at 1 3. case_decide as Hd.
    + rewrite bool_decide_eq_true_2 by exact Hd.
      rewrite (IH rest _ _ (lookup_with_object _ _ _ _ Hrest)).
      simpl. rewrite length_app. simpl. rewrite <- !app_assoc. simpl.
      replace (length (heap w) + 1)%nat with (S (length (heap w))) by lia.
      f_equal.
    + rewrite bool_decide_eq_false_2 by exact Hd.
      apply (IH rest _ _ Hrest).
Qed.

(** When the loop returns, every interval had UTC readings. *)
Lemma filter_costs_utc_inv s e srcs cs :
  forall acc w out w',
    Forall2 (fun l c => heap w !! l = Some c) srcs cs ->
    filter_costs_utc s e srcs acc w = (Return out, w') ->
    exists times, Forall2 utc_times_of cs times.
Proof.
  revert srcs. induction cs as [|c cs IH]; intros srcs acc w out w' Hl E.
  - exists []. constructor.
  - inversion Hl as [|l c' rest cs' Hlc Hrest]; subst.
    rewrite (filter_costs_utc_step _ _ _ _ _ _ _ Hlc) in E.
    destruct (parse_utc (time_start c)) as [ts|ex] eqn:Hs; [|discriminate].
    destruct (parse_utc (time_end c)) as [te|ex] eqn:He; [|discriminate].
    assert (exists times, Forall2 utc_times_of cs times) as [times Ht].
    { destruct (in_utc_day s e ts te).
      - eapply IH; [|exact E]. apply lookup_with_object. exact Hrest.
      - eapply IH; [|exact E]. exact Hrest. }
    exists ((ts, te) :: times). constructor; [split; assumption | exact Ht].
Qed.

(** Whatever the loop's outcome, it only adds objects. *)
Lemma filter_costs_utc_frame s e srcs :
  forall acc w r w',
    filter_costs_utc s e srcs acc w = (r, w') ->
    fs w' = fs w /\ requests w' = requests w /\ heap w `prefix_of` heap w'.
Proof.
  induction srcs as [|l rest IH]; intros acc w r w' E.
  - inversion E; subst. auto.
  - destruct (heap w !! l) as [c|] eqn:Hl.
    + rewrite (filter_costs_utc_step _ _ _ _ _ _ _ Hl) in E.
      destruct (parse_utc (time_start c)) as [ts|ex];
        [|inversion E; subst; auto].
      destruct (parse_utc (time_end c)) as [te|ex];
        [|inversion E; subst; auto].
      destruct (in_utc_day s e ts te).
      * apply IH in E. destruct E as (Hf & Hr & Hh).
        split; [exact Hf|]. split; [exact Hr|].
        etransitivity; [|exact Hh]. simpl. apply prefix_app_r. reflexivity.
      * apply IH in E. exact E.
    + simpl in E. unfold bind at 1, read_object in E. rewrite Hl in E.
      inversion E; subst. auto.
Qed.

(** The loop fetches nothing: whatever its outcome, it leaves the cache and
    the request log as they are and creates at most one object per input,
    each with the prices of an input object; when it returns, it returns
    the references of exactly the objects it created. *)
Lemma filter_costs_utc_effects s e srcs :
  forall acc w r w',
    filter_costs_utc s e srcs acc w = (r, w') ->
    fs w' = fs w /\ requests w' = requests w
    /\ exists copies,
         heap w' = heap w ++ copies
         /\ (length copies <= length srcs)%nat
         /\ Forall (fun k => exists l c,
                      l ∈ srcs /\ heap w' !! l = Some c
                      /\ SEK_per_kWh k = SEK_per_kWh c
                      /\ EUR_per_kWh k = EUR_per_kWh c
                      /\ EXR k = EXR c) copies
         /\ forall out, r = Return out ->
              out = acc ++ seq (length (heap w)) (length copies).
Proof.
  induction srcs as [|l rest IH]; intros acc w r w' E.
  - inversion E; subst. split; [reflexivity|]. split; [reflexivity|].
    exists []. rewrite !app_nil_r. split; [reflexivity|].
    split; [reflexivity|]. split; [constructor|].
    intros out Ho. injection Ho as <-. simpl. rewrite ?app_nil_r.
    reflexivity.
  - destruct (heap w !! l) as [c|] eqn:Hl.
    + rewrite (filter_costs_utc_step _ _ _ _ _ _ _ Hl) in E.
      assert (forall ex, (Raise ex, w) = (r, w') ->
                fs w' = fs w /\ requests w' = requests w
                /\ exists copies,
                     heap w' = heap w ++ copies
                     /\ (length copies <= length (l :: rest))%nat
                     /\ Forall (fun k => exists l0 c0,
                                  l0 ∈ l :: rest /\ heap w' !! l0 = Some c0
                                  /\ SEK_per_kWh k = SEK_per_kWh c0
                                  /\ EUR_per_kWh k = EUR_per_kWh c0
                                  /\ EXR k = EXR c0) copies
                     /\ forall out, r = Return out ->
                          out = acc ++ seq (length (heap w)) (length copies))
        as Hraise.
      { intros ex Ex. inversion Ex; subst.
        split; [reflexivity|]. split; [reflexivity|].
        exists []. rewrite app_nil_r. split; [reflexivity|].
        split; [simpl; lia|]. split; [constructor|].
        intros out Ho. discriminate Ho. }
      destruct (parse_utc (time_start c)) as [ts|ex]; [|exact (Hraise _ E)].
      destruct (parse_utc (time_end c)) as [te|ex]; [|exact (Hraise _ E)].
      clear Hraise.
      destruct (in_utc_day s e ts te).
      * apply IH in E.
        destruct E as (Hf & Hr & copies & Hh & Hlen & Hall & Hout).
        simpl in Hf, Hr, Hh.
        split; [exact Hf|]. split; [exact Hr|].
        exists (replace_times c (isoformat ts) (isoformat te) :: copies).
        split; [rewrite Hh, <- app_assoc; reflexivity|].
        split; [simpl; lia|].
        split.
        { constructor.
          - exists l, c. split; [apply list_elem_of_here|].
            split; [|auto].
            rewrite Hh. apply lookup_app_l_Some. apply lookup_app_l_Some.
            exact Hl.
          - eapply Forall_impl; [exact Hall|].
            intros k (l0 & c0 & Hin & Hrest). exists l0, c0.
            split; [apply list_elem_of_further; exact Hin | exact Hrest]. }
        intros out Ho. rewrite (Hout out Ho). simpl.
        rewrite length_app, <- app_assoc. simpl.
        rewrite Nat.add_1_r. reflexivity.
      * apply IH in E.
        destruct E as (Hf & Hr & copies & Hh & Hlen & Hall & Hout).
        split; [exact Hf|]. split; [exact Hr|].
        exists copies. split; [exact Hh|]. split; [simpl; lia|].
        split; [|exact Hout].
        eapply Forall_impl; [exact Hall|].
        intros k (l0 & c0 & Hin & Hrest). exists l0, c0.
        split; [apply list_elem_of_further; exact Hin | exact Hrest].
    + simpl in E. unfold bind at 1, read_object in E. rewrite Hl in E.
      inversion E; subst. split; [reflexivity|]. split; [reflexivity|].
      exists []. rewrite app_nil_r. split; [reflexivity|].
      split; [simpl; lia|]. split; [constructor|].
      intros out Ho. discriminate Ho.
Qed.

End Loop.

(** ** fetch_electricity_cost_utc: from a successful call to its steps *)

Section Reconciler.
Context `{P : Platform}.

Lemma costs_of_json_refs data w ls w1 :
  costs_of_json data w = (Return ls, w1) ->
  heap w `prefix_of` heap w1
  /\ exists cs, objects (heap w1) ls = Some cs.
Proof.
  intros E.
  destruct (costs_of_json_spec data w) as (w' & Hw & _ & _ & Hh & Hs & _).
  rewrite E in Hw, Hs. simpl in Hw, Hs. subst w'. split; [exact Hh|].
  destruct (objects (heap w1) ls) as [cs|]; [eauto|].
  simpl in Hs. symmetry in Hs. apply decode_series_raises in Hs. discriminate.
Qed.

(** The references a fetch returns are live, and older objects stay. *)
Lemma fetch_electricity_cost_refs date area w ls w1 :
  fetch_electricity_cost date area w = (Return ls, w1) ->
  heap w `prefix_of` heap w1
  /\ exists cs, objects (heap w1) ls = Some cs.
Proof.
  intros E.
  destruct (fs w !! cache_path_of date area) as [n|] eqn:Hc.
  - rewrite fetch_cached in E by (rewrite Hc; eauto).
    unfold bind, json_load in E. rewrite Hc in E.
    destruct n as [[data|]|]; try discriminate.
    apply costs_of_json_refs in E. exact E.
  - rewrite (fetch_uncached _ _ _ Hc) in E.
    unfold bind at 1, requests_get in E.
    destruct (http_get (url_of date area)) as [r|]; [|discriminate].
    destruct (status_code r =? 200); [|discriminate].
    unfold bind at 1, lift in E. destruct (json r) as [data|]; [|discriminate].
    simpl or_raise in E. cbv iota in E.
    unfold bind at 1, os_makedirs in E.
    pose proof (makedirs_rev_heap
                  (reverse (os_path_dirname (cache_path_of date area)))
                  (with_request w (url_of date area))) as H1.
    destruct (makedirs_rev _ _) as [[[]|e1] w2]; [|discriminate].
    unfold bind at 1 in E.
    pose proof (json_dump_heap data (cache_path_of date area) w2) as H2.
    destruct (json_dump data _ w2) as [[[]|e2] w3]; [|discriminate].
    apply costs_of_json_refs in E. simpl in H1, H2.
    rewrite H2, H1 in E. exact E.
Qed.

Lemma date_eqb_eq a b : date_eqb a b = true <-> a = b.
Proof.
  unfold date_eqb. rewrite !andb_true_iff, !Z.eqb_eq.
  destruct a, b; simpl. split.
  - intros [[-> ->] ->]. reflexivity.
  - intros H. inversion H. auto.
Qed.

Lemma fetch_costs_stockholm_refs sd ed area w ls w1 :
  fetch_costs_stockholm sd ed area w = (Return ls, w1) ->
  heap w `prefix_of` heap w1
  /\ exists cs, objects (heap w1) ls = Some cs.
Proof.
  unfold fetch_costs_stockholm. destruct (date_eqb sd ed).
  - apply fetch_electricity_cost_refs.
  - intros E. apply bind_inv_Return in E as (l1 & wa & E1 & E).
    apply bind_inv_Return in E as (l2 & wb & E2 & E).
    inversion E; subst ls w1; clear E.
    apply fetch_electricity_cost_refs in E1 as [Hp1 [c1 Ho1]].
    apply fetch_electricity_cost_refs in E2 as [Hp2 [c2 Ho2]].
    split; [etransitivity; eassumption|].
    exists (c1 ++ c2). apply objects_app; [|exact Ho2].
    eapply objects_prefix; eassumption.
Qed.

Lemma fetch_electricity_cost_utc_inv date_utc area w out w' :
  fetch_electricity_cost_utc date_utc area w = (Return out, w') ->
  exists s e sd ed srcs w1 cs times,
    utc_day date_utc = Return (s, e)
    /\ stockholm_dates s e = Return (sd, ed)
    /\ fetch_costs_stockholm sd ed area w = (Return srcs, w1)
    /\ objects (heap w1) srcs = Some cs
    /\ Forall2 utc_times_of cs times
    /\ out = seq (length (heap w1)) (length (spec_utc_series s e cs times))
    /\ heap w' = heap w1 ++ spec_utc_series s e cs times
    /\ fs w' = fs w1
    /\ requests w' = requests w1.
Proof.
  intros E. unfold fetch_electricity_cost_utc in E.
  apply bind_inv_Return in E as ([s e] & w0 & E0 & E).
  apply lift_inv_Return in E0 as [Hday ->].
  apply bind_inv_Return in E as ([sd ed] & w0 & E0 & E).
  apply lift_inv_Return in E0 as [Hdates ->].
  apply bind_inv_Return in E as (srcs & w1 & Hfetch & E).
  destruct (fetch_costs_stockholm_refs _ _ _ _ _ _ Hfetch) as [_ [cs Hcs]].
  pose proof Hcs as Hl. apply objects_Forall2 in Hl.
  destruct (filter_costs_utc_inv _ _ _ _ _ _ _ _ Hl E) as [times Ht].
  rewrite (filter_costs_utc_spec _ _ _ _ _ Ht [] w1 Hl) in E.
  inversion E; subst out w'; clear E.
  exists s, e, sd, ed, srcs, w1, cs, times. simpl. auto 10.
Qed.

(** What [parse_utc] returns is labelled UTC. *)
Lemma astimezone_utc_tzinfo dt0 dt :
  astimezone_utc dt0 = Return dt -> tzinfo dt = Some 0.
Proof.
  unfold astimezone_utc. intros H. apply or_raise_inv in H.
  destruct (wall_micros_of_wall_micros _ _ _ H) as [_ H']. exact H'.
Qed.

Lemma parse_utc_tzinfo v dt : parse_utc v = Return dt -> tzinfo dt = Some 0.
Proof.
  destruct v as [| | | |s| |]; try discriminate.
  unfold parse_utc. intros H.
  apply outcome_bind_inv in H as (dt0 & _ & H).
  revert H. apply astimezone_utc_tzinfo.
Qed.

(** The kept intervals, as copies of a selection of the sources. *)
Lemma spec_utc_series_selection s e cs times :
  Forall2 utc_times_of cs times ->
  exists sel,
    sel `sublist_of` zip cs times
    /\ Forall2 (fun k item =>
                  k = replace_times (fst item) (isoformat (fst (snd item)))
                                    (isoformat (snd (snd item)))
                  /\ utc_times_of (fst item) (snd item))
               (spec_utc_series s e cs times) sel.
Proof.
  unfold spec_utc_series.
  induction 1 as [|c [ts te] cs times Hc Ht (sel & Hsub & Hall)]; simpl.
  - exists []. split; constructor.
  - unfold spec_utc_interval at 1. case_decide.
    + exists ((c, (ts, te)) :: sel). split; [constructor; exact Hsub|].
      constructor; [split; [reflexivity|exact Hc] | exact Hall].
    + exists sel. split; [constructor; exact Hsub | exact Hall].
Qed.

End Reconciler.

(** ** The UTC readings of the specification *)

Lemma of_wall_micros_well_formed n tz dt :
  of_wall_micros n tz = Some dt -> well_formed dt.
Proof.
  unfold of_wall_micros, US_PER_DAY. cbv zeta.
  destruct ((1 <=? n / (86400 * 1000000))
            && (n / (86400 * 1000000) <=? Calendar.MAXORDINAL)) eqn:Hr;
    [|discriminate].
  apply andb_true_iff in Hr. destruct Hr as [H1 H2].
  apply Z.leb_le in H1, H2.
  destruct (CalendarFacts.ord2ymd_spec (n / (86400 * 1000000)))
    as (y & m & d & E & Hv & Ho); [lia|].
  rewrite E. intros H. inversion H; subst dt; clear H.
  unfold well_formed.
  cbn [year month day hour minute second microsecond].
  pose proof (Z.mod_pos_bound n (86400 * 1000000) ltac:(lia)) as B1.
  set (rest := n mod (86400 * 1000000)) in *.
  pose proof (Z.div_mod rest 1000000 ltac:(lia)) as D2.
  pose proof (Z.mod_pos_bound rest 1000000 ltac:(lia)) as B2.
  set (secs := rest / 1000000) in *. set (us := rest mod 1000000) in *.
  assert (0 <= secs < 86400) as Bs by lia.
  pose proof (Z.div_mod secs 3600 ltac:(lia)) as D3.
  pose proof (Z.mod_pos_bound secs 3600 ltac:(lia)) as B3.
  set (hh := secs / 3600) in *. set (ms := secs mod 3600) in *.
  pose proof (Z.div_mod ms 60 ltac:(lia)) as D4.
  pose proof (Z.mod_pos_bound ms 60 ltac:(lia)) as B4.
  pose proof (Z.mod_pos_bound secs 60 ltac:(lia)) as B5.
  set (mi := ms / 60) in *.
  clearbody rest secs us hh ms mi.
  split; [exact Hv|]. repeat split; lia.
Qed.

Lemma well_formed_of_wall_micros dt :
  well_formed dt -> of_wall_micros (wall_micros dt) (tzinfo dt) = Some dt.
Proof.
  destruct dt as [y m d hh mm ss us tz]. unfold well_formed, wall_micros.
  cbn [year month day hour minute second microsecond tzinfo].
  intros (Hv & Hh & Hm & Hs & Hu).
  apply of_wall_micros_fields; assumption.
Qed.

(** A well-formed datetime is determined by its wall clock and its label. *)
Lemma well_formed_inj t1 t2 :
  well_formed t1 -> well_formed t2 ->
  wall_micros t1 = wall_micros t2 -> tzinfo t1 = tzinfo t2 -> t1 = t2.
Proof.
  intros W1 W2 Hw Htz.
  apply well_formed_of_wall_micros in W1, W2.
  rewrite Hw, Htz, W2 in W1. injection W1 as W1. symmetry. exact W1.
Qed.

Section Readings.
Context `{P : Platform}.

Lemma spec_utc_reading_unique v t1 t2 :
  spec_utc_reading v t1 -> spec_utc_reading v t2 -> t1 = t2.
Proof.
  intros (x1 & p1 & Hv1 & Hp1 & W1 & Z1 & M1)
         (x2 & p2 & Hv2 & Hp2 & W2 & Z2 & M2).
  rewrite Hv1 in Hv2. injection Hv2 as <-.
  rewrite Hp1 in Hp2. injection Hp2 as <-.
  apply well_formed_inj; congruence.
Qed.

(** The conversion the program performs gives the reading of the
    specification, and nothing else. *)
Lemma parse_utc_spec_reading v t :
  parse_utc v = Return t <-> spec_utc_reading v t.
Proof.
  split.
  - unfold parse_utc. destruct v as [| | | |text| |]; try discriminate.
    intros H. apply outcome_bind_inv in H. destruct H as (parsed & Hp & Ha).
    apply or_raise_inv in Hp.
    revert Ha. unfold astimezone_utc. intros Ha. apply or_raise_inv in Ha.
    exists text, parsed. split; [reflexivity|]. split; [exact Hp|].
    split; [exact (of_wall_micros_well_formed _ _ _ Ha)|].
    apply wall_micros_of_wall_micros in Ha. destruct Ha as [Hw Htz].
    split; [exact Htz|]. exact Hw.
  - intros (text & parsed & -> & Hp & Hwf & Htz & Hw).
    unfold parse_utc. rewrite Hp.
    rewrite (outcome_bind_Return _ _ parsed eq_refl).
    unfold astimezone_utc.
    change (match tzinfo parsed with
            | Some o => o
            | None => local_utcoffset parsed
            end) with (spec_utc_offset parsed).
    rewrite <- Hw, <- Htz. rewrite (well_formed_of_wall_micros t Hwf).
    reflexivity.
Qed.

Lemma utc_times_of_spec c t : utc_times_of c t <-> spec_utc_times c t.
Proof.
  unfold utc_times_of, spec_utc_times.
  rewrite !parse_utc_spec_reading. reflexivity.
Qed.

Lemma Forall2_utc_times_of_spec cs times :
  Forall2 utc_times_of cs times <-> Forall2 spec_utc_times cs times.
Proof.
  split; intros H; (eapply Forall2_impl; [exact H|]);
    intros c t; apply utc_times_of_spec.
Qed.

Lemma spec_utc_times_unique cs times1 times2 :
  Forall2 spec_utc_times cs times1 -> Forall2 spec_utc_times cs times2 ->
  times1 = times2.
Proof.
  intros H. revert times2.
  induction H as [|c [ts te] cs times [Hs He] _ IH]; intros times2 H2.
  - inversion H2. reflexivity.
  - inversion H2 as [|c' [ts' te'] cs' times' [Hs' He'] Hrest]; subst.
    simpl in *.
    rewrite (spec_utc_reading_unique _ _ _ Hs Hs').
    rewrite (spec_utc_reading_unique _ _ _ He He').
    rewrite (IH _ Hrest). reflexivity.
Qed.

End Readings.

(** ** Claims about fetch_electricity_cost_utc *)

(** C1.  [start_utc] is midnight UTC of the requested date and [end_utc] is
    [start_utc + 24h - 1s], its last second.  When the call returns, every
    interval of the underlying fetches has UTC readings [ts], [te] of its
    start and end (the parsed instants in UTC: labelled UTC, the wall clock
    being the parsed wall clock minus the parsed offset; there is one such
    reading), and the result holds, in order, a copy of exactly the
    intervals with [te > start_utc] and [ts <= end_utc].  So an interval that
    ends at [start_utc] is dropped, and an interval that starts at [end_utc]
    is kept exactly when its end is after [start_utc], so whenever it ends
    after it starts. *)
Theorem utc_filter_keeps_overlapping_intervals `{P : Platform}
    date_utc area w out w' :
  fetch_electricity_cost_utc date_utc area w = (Return out, w') ->
  exists start_utc end_utc srcs w1 cs times kept,
    start_utc = mkdatetime (year date_utc) (month date_utc) (day date_utc)
                           0 0 0 0 (Some 0)
    /\ (exists next, datetime_add start_utc (timedelta 1 0) = Some next
                     /\ datetime_sub next (timedelta 0 1) = Some end_utc)
    /\ end_utc = mkdatetime (year date_utc) (month date_utc) (day date_utc)
                            23 59 59 0 (Some 0)
    /\ (exists sd ed,
          stockholm_dates start_utc end_utc = Return (sd, ed)
          /\ fetch_costs_stockholm sd ed area w = (Return srcs, w1))
    /\ objects (heap w1) srcs = Some cs
    /\ Forall2 spec_utc_times cs times
    /\ (forall times', Forall2 spec_utc_times cs times' -> times' = times)
    /\ objects (heap w') out = Some kept
    /\ kept = spec_utc_series start_utc end_utc cs times
    /\ (forall c ts te,
          is_Some (spec_utc_interval start_utc end_utc (c, (ts, te)))
          <-> datetime_gt te start_utc /\ datetime_le ts end_utc)
    /\ (forall c ts,
          spec_utc_interval start_utc end_utc (c, (ts, start_utc)) = None)
    /\ (forall c te,
          is_Some (spec_utc_interval start_utc end_utc (c, (end_utc, te)))
          <-> datetime_gt te start_utc)
    /\ (forall c te,
          datetime_gt te end_utc ->
          is_Some (spec_utc_interval start_utc end_utc (c, (end_utc, te)))).
Proof.
  intros E.
  destruct (fetch_electricity_cost_utc_inv _ _ _ _ _ E)
    as (s & e & sd & ed & srcs & w1 & cs & times
        & Hday & Hdates & Hfetch & Hcs & Ht & Hout & Hheap & _ & _).
  destruct (utc_day_spec _ _ _ Hday) as (_ & Hs & He & Hnext).
  apply Forall2_utc_times_of_spec in Ht.
  exists s, e, srcs, w1, cs, times, (spec_utc_series s e cs times).
  split; [exact Hs|]. split; [exact Hnext|]. split; [exact He|].
  split; [eauto|]. split; [exact Hcs|]. split; [exact Ht|].
  split; [intros times' Ht'; exact (spec_utc_times_unique _ _ _ Ht' Ht)|].
  split; [rewrite Hheap, Hout; apply objects_fresh|].
  split; [reflexivity|].
  split; [intros c ts te; apply spec_utc_interval_Some|].
  split.
  { intros c ts.
    destruct (spec_utc_interval s e (c, (ts, s))) as [k|] eqn:Hk;
      [|reflexivity].
    exfalso. apply (datetime_gt_irrefl s).
    apply (spec_utc_interval_Some s e c ts s). rewrite Hk. eauto. }
  split.
  { intros c te. rewrite spec_utc_interval_Some. split.
    - intros [H _]. exact H.
    - intros H. split; [exact H | apply datetime_le_refl]. }
  intros c te Hte. apply spec_utc_interval_Some. split.
  - apply (datetime_gt_trans te e s Hte). rewrite Hs, He.
    apply last_second_after_midnight.
  - apply datetime_le_refl.
Qed.

Lemma utc_filter_keeps_overlapping_intervals_witness :
  exists out w' kept,
    fetch_electricity_cost_utc (P := Scenario.platform)
      Scenario.date_example SE4 Scenario.fresh = (Return out, w')
    /\ objects (heap w') out = Some kept.
Proof.
  assert (fetch_electricity_cost_utc (P := Scenario.platform)
            Scenario.date_example SE4 Scenario.fresh
          = (Return (seq 48 24),
             snd (fetch_electricity_cost_utc (P := Scenario.platform)
                    Scenario.date_example SE4 Scenario.fresh))) as E
    by (vm_compute; reflexivity).
  destruct (utc_filter_keeps_overlapping_intervals (P := Scenario.platform)
              _ _ _ _ _ E)
    as (s & e & srcs & w1 & cs & times & kept & _ & _ & _ & _ & _ & _ & _
        & Hkept & _).
  eexists _, _, kept. split; [exact E | exact Hkept].
Defined.

(** C7.  When the call returns, each interval of the result is a new object
    whose price fields are those of an interval of the underlying fetches
    and whose [time_start] and [time_end] are the ISO-8601 texts of that
    interval's UTC readings (the parsed instants in UTC: labelled UTC, the
    wall clock being the parsed wall clock minus the parsed offset); the
    results follow the order of their sources.  Every object that existed
    when the loop began, the source intervals among them, has its fields
    unchanged afterwards. *)
Theorem utc_copies_keep_prices_and_sources `{P : Platform}
    date_utc area w out w' :
  fetch_electricity_cost_utc date_utc area w = (Return out, w') ->
  exists srcs w1 cs times kept sel,
    (exists s e sd ed,
       utc_day date_utc = Return (s, e)
       /\ stockholm_dates s e = Return (sd, ed)
       /\ fetch_costs_stockholm sd ed area w = (Return srcs, w1))
    /\ objects (heap w1) srcs = Some cs
    /\ Forall2 spec_utc_times cs times
    /\ (forall times', Forall2 spec_utc_times cs times' -> times' = times)
    /\ objects (heap w') srcs = Some cs
    /\ (forall l c, heap w1 !! l = Some c -> heap w' !! l = Some c)
    /\ Forall (fun l => (length (heap w1) <= l)%nat) out
    /\ NoDup out
    /\ objects (heap w') out = Some kept
    /\ sel `sublist_of` zip cs times
    /\ Forall2 (fun k item =>
                  let '(c, (ts, te)) := item in
                  SEK_per_kWh k = SEK_per_kWh c
                  /\ EUR_per_kWh k = EUR_per_kWh c
                  /\ EXR k = EXR c
                  /\ spec_utc_reading (time_start c) ts
                  /\ spec_utc_reading (time_end c) te
                  /\ time_start k = PStr (isoformat ts)
                  /\ time_end k = PStr (isoformat te)
                  /\ tzinfo ts = Some 0 /\ tzinfo te = Some 0)
               kept sel.
Proof.
  intros E.
  destruct (fetch_electricity_cost_utc_inv _ _ _ _ _ E)
    as (s & e & sd & ed & srcs & w1 & cs & times
        & Hday & Hdates & Hfetch & Hcs & Ht & Hout & Hheap & _ & _).
  destruct (spec_utc_series_selection s e cs times Ht) as (sel & Hsub & Hsel).
  exists srcs, w1, cs, times, (spec_utc_series s e cs times), sel.
  split; [eauto 8|]. split; [exact Hcs|].
  split; [apply Forall2_utc_times_of_spec; exact Ht|].
  split.
  { intros times' Ht'. apply Forall2_utc_times_of_spec in Ht.
    exact (spec_utc_times_unique _ _ _ Ht' Ht). }
  split.
  { eapply objects_prefix; [|exact Hcs]. rewrite Hheap.
    apply prefix_app_r. reflexivity. }
  split.
  { intros l c Hl. rewrite Hheap. apply lookup_app_l_Some. exact Hl. }
  split.
  { rewrite Hout. apply Forall_forall. intros l Hl.
    apply elem_of_seq in Hl. lia. }
  split; [rewrite Hout; apply NoDup_seq|].
  split; [rewrite Hheap, Hout; apply objects_fresh|].
  split; [exact Hsub|].
  eapply Forall2_impl; [exact Hsel|].
  intros k [c [ts te]] [-> [Hs He]]. simpl in Hs, He.
  split; [reflexivity|]. split; [reflexivity|]. split; [reflexivity|].
  split; [apply parse_utc_spec_reading; exact Hs|].
  split; [apply parse_utc_spec_reading; exact He|].
  split; [reflexivity|]. split; [reflexivity|].
  split; eapply parse_utc_tzinfo; eassumption.
Qed.

Lemma utc_copies_keep_prices_and_sources_witness :
  exists out w' srcs cs,
    fetch_electricity_cost_utc (P := Scenario.platform)
      Scenario.date_example SE4 Scenario.fresh = (Return out, w')
    /\ objects (heap w') srcs = Some cs.
Proof.
  assert (fetch_electricity_cost_utc (P := Scenario.platform)
            Scenario.date_example SE4 Scenario.fresh
          = (Return (seq 48 24),
             snd (fetch_electricity_cost_utc (P := Scenario.platform)
                    Scenario.date_example SE4 Scenario.fresh))) as E
    by (vm_compute; reflexivity).
  destruct (utc_copies_keep_prices_and_sources (P := Scenario.platform)
              _ _ _ _ _ E)
    as (srcs & w1 & cs & times & kept & sel & _ & _ & _ & _ & Hsrc & _).
  eexists _, _, srcs, cs. split; [exact E | exact Hsrc].
Defined.

(** C3, as amended.  For a valid date other than 9999-12-31, [start_utc]
    and [end_utc] are converted to Stockholm time and their calendar dates
    taken.  When the two dates are equal the call is one fetch, for that
    date, followed by the loop; otherwise it is the fetch for the start
    date, then the fetch for the end date, then the loop over the start-date
    series followed by the end-date series.  The loop fetches nothing: it
    leaves the cache and the request log as they are and creates only the
    copies it returns, at most one per interval.  So the cache and the
    request log after the call are those the one fetch, or the two fetches
    in a row, leave. *)
Theorem utc_day_fetches_once_or_twice `{P : Platform} date_utc area sd ed :
  Calendar.valid_ymd (year date_utc) (month date_utc) (day date_utc) = true ->
  ~ (year date_utc = 9999 /\ month date_utc = 12 /\ day date_utc = 31) ->
  let start_utc := mkdatetime (year date_utc) (month date_utc) (day date_utc)
                              0 0 0 0 (Some 0) in
  let end_utc := mkdatetime (year date_utc) (month date_utc) (day date_utc)
                            23 59 59 0 (Some 0) in
  stockholm_dates start_utc end_utc = Return (sd, ed) ->
  (exists ls le,
     astimezone_stockholm start_utc = Return ls
     /\ astimezone_stockholm end_utc = Return le
     /\ sd = datetime_date ls /\ ed = datetime_date le)
  /\ (sd = ed ->
      forall w,
        fetch_electricity_cost_utc date_utc area w
        = bind (fetch_electricity_cost sd area)
               (fun costs => filter_costs_utc start_utc end_utc costs []) w)
  /\ (sd <> ed ->
      forall w,
        fetch_electricity_cost_utc date_utc area w
        = bind (fetch_electricity_cost sd area) (fun first =>
          bind (fetch_electricity_cost ed area) (fun second =>
          filter_costs_utc start_utc end_utc (first ++ second) [])) w)
  /\ (forall costs w r w',
        filter_costs_utc start_utc end_utc costs [] w = (r, w') ->
        fs w' = fs w /\ requests w' = requests w
        /\ exists copies,
             heap w' = heap w ++ copies
             /\ (length copies <= length costs)%nat
             /\ Forall (fun k => exists l c,
                          l ∈ costs /\ heap w' !! l = Some c
                          /\ SEK_per_kWh k = SEK_per_kWh c
                          /\ EUR_per_kWh k = EUR_per_kWh c
                          /\ EXR k = EXR c) copies
             /\ forall out, r = Return out ->
                  out = seq (length (heap w)) (length copies))
  /\ (sd = ed ->
      forall w,
        let w1 := snd (fetch_electricity_cost sd area w) in
        let w' := snd (fetch_electricity_cost_utc date_utc area w) in
        fs w' = fs w1 /\ requests w' = requests w1)
  /\ (sd <> ed ->
      forall w,
        let w2 := snd (bind (fetch_electricity_cost sd area)
                            (fun _ => fetch_electricity_cost ed area) w) in
        let w' := snd (fetch_electricity_cost_utc date_utc area w) in
        fs w' = fs w2 /\ requests w' = requests w2).
Proof.
  intros Hv Hlast start_utc end_utc Hdates.
  pose proof (utc_day_total date_utc Hv Hlast) as Hday.
  fold start_utc end_utc in Hday.
  assert (forall w,
    fetch_electricity_cost_utc date_utc area w
    = bind (fetch_costs_stockholm sd ed area)
           (fun costs => filter_costs_utc start_utc end_utc costs []) w)
    as Hrun.
  { intros w. unfold fetch_electricity_cost_utc.
    unfold bind at 1, lift at 1. rewrite Hday.
    unfold bind at 1, lift at 1. rewrite Hdates. reflexivity. }
  assert (sd = ed ->
          forall w,
            fetch_electricity_cost_utc date_utc area w
            = bind (fetch_electricity_cost sd area)
                (fun costs => filter_costs_utc start_utc end_utc costs []) w)
    as Honce.
  { intros Heq w. rewrite Hrun. unfold fetch_costs_stockholm.
    rewrite (proj2 (date_eqb_eq sd ed) Heq). reflexivity. }
  assert (sd <> ed ->
          forall w,
            fetch_electricity_cost_utc date_utc area w
            = bind (fetch_electricity_cost sd area) (fun first =>
              bind (fetch_electricity_cost ed area) (fun second =>
              filter_costs_utc start_utc end_utc (first ++ second) [])) w)
    as Htwice.
  { intros Hne w. rewrite Hrun. unfold fetch_costs_stockholm.
    destruct (date_eqb sd ed) eqn:Hb.
    { exfalso. apply Hne. apply date_eqb_eq. exact Hb. }
    unfold bind. destruct (fetch_electricity_cost sd area w) as [[l1|e1] wa];
      [|reflexivity].
    destruct (fetch_electricity_cost ed area wa) as [[l2|e2] wb];
      reflexivity. }
  split.
  { revert Hdates. unfold stockholm_dates. intros Hdates.
    apply outcome_bind_inv in Hdates as (ls & Hls & Hdates).
    apply outcome_bind_inv in Hdates as (le & Hle & Hdates).
    inversion Hdates. eauto 6. }
  split; [exact Honce|]. split; [exact Htwice|].
  split.
  { intros costs w r w' E.
    exact (filter_costs_utc_effects _ _ _ _ _ _ _ E). }
  split.
  - intros Heq w. cbv zeta. rewrite (Honce Heq w). unfold bind.
    destruct (fetch_electricity_cost sd area w) as [[l1|e1] wa];
      [|split; reflexivity].
    destruct (filter_costs_utc start_utc end_utc l1 [] wa) as [r w'] eqn:E.
    apply filter_costs_utc_frame in E. destruct E as (Hf & Hr & _).
    split; assumption.
  - intros Hne w. cbv zeta. rewrite (Htwice Hne w). unfold bind.
    destruct (fetch_electricity_cost sd area w) as [[l1|e1] wa];
      [|split; reflexivity].
    destruct (fetch_electricity_cost ed area wa) as [[l2|e2] wb];
      [|split; reflexivity].
    destruct (filter_costs_utc start_utc end_utc (l1 ++ l2) [] wb)
      as [r w'] eqn:E.
    apply filter_costs_utc_frame in E. destruct E as (Hf & Hr & _).
    split; assumption.
Qed.

Lemma utc_day_fetches_once_or_twice_witness :
  requests (snd (fetch_electricity_cost_utc (P := Scenario.platform)
                   Scenario.date_example SE4 Scenario.fresh))
  = ["https://www.elprisetjustnu.se/api/v1/prices/2024/01-01_SE4.json";
     "https://www.elprisetjustnu.se/api/v1/prices/2024/01-02_SE4.json"]%string.
Proof.
  destruct (utc_day_fetches_once_or_twice (P := Scenario.platform)
              Scenario.date_example SE4 Scenario.day1 Scenario.day2)
    as (_ & _ & _ & _ & _ & Htwice).
  - vm_compute. reflexivity.
  - simpl. lia.
  - vm_compute. reflexivity.
  - destruct (Htwice ltac:(discriminate) Scenario.fresh) as [_ Hr].
    rewrite Hr. vm_compute. reflexivity.
Defined.

(** C3, as stated, fails: not every UTC date leads to a fetch.  On a fresh
    cache every fetch sends a request, yet for 9999-12-31 the call raises
    [OverflowError] with the world untouched: [end_utc] cannot be computed,
    and nothing is fetched. *)
Lemma utc_last_day_fetches_nothing :
  (forall d,
     requests (snd (fetch_electricity_cost (P := Scenario.platform)
                      d SE4 Scenario.fresh)) = [url_of d SE4])
  /\ fetch_electricity_cost_utc (P := Scenario.platform)
       (mkdatetime 9999 12 31 0 0 0 0 None) SE4 Scenario.fresh
     = (Raise OverflowError, Scenario.fresh)
  /\ ~ (forall date_utc,
          Calendar.valid_ymd (year date_utc) (month date_utc) (day date_utc)
          = true ->
          requests (snd (fetch_electricity_cost_utc (P := Scenario.platform)
                           date_utc SE4 Scenario.fresh)) <> []).
Proof.
  assert (fetch_electricity_cost_utc (P := Scenario.platform)
            (mkdatetime 9999 12 31 0 0 0 0 None) SE4 Scenario.fresh
          = (Raise OverflowError, Scenario.fresh)) as E
    by (vm_compute; reflexivity).
  split.
  { intros d. rewrite fetch_requests. case_bool_decide as Hc.
    - exfalso. destruct Hc as [n Hn]. simpl in Hn.
      rewrite lookup_empty in Hn. discriminate Hn.
    - reflexivity. }
  split; [exact E|].
  intros H.
  apply (H (mkdatetime 9999 12 31 0 0 0 0 None)); [reflexivity|].
  rewrite E. reflexivity.
Qed.

(** C9.  Two datetimes with the same year, month and day, whatever their
    time of day and [tzinfo], give the same outcome and the same world. *)
Theorem utc_fetch_reads_only_the_date `{P : Platform} d1 d2 area w :
  year d1 = year d2 -> month d1 = month d2 -> day d1 = day d2 ->
  fetch_electricity_cost_utc d1 area w = fetch_electricity_cost_utc d2 area w.
Proof.
  intros Hy Hm Hd. unfold fetch_electricity_cost_utc, utc_day.
  rewrite Hy, Hm, Hd. reflexivity.
Qed.

Lemma utc_fetch_reads_only_the_date_witness :
  fetch_electricity_cost_utc (P := Scenario.platform)
    Scenario.date_example SE4 Scenario.fresh
  = fetch_electricity_cost_utc (P := Scenario.platform)
      (mkdatetime 2024 1 1 17 45 12 345 (Some (-18000))) SE4 Scenario.fresh.
Proof.
  apply (utc_fetch_reads_only_the_date (P := Scenario.platform)
           Scenario.date_example
           (mkdatetime 2024 1 1 17 45 12 345 (Some (-18000)))
           SE4 Scenario.fresh); reflexivity.
Defined.

(** ** The worked scenario *)

Section ScenarioFacts.
Context `{P : Platform}.

Lemma astimezone_stockholm_eval dt o u off r :
  tzinfo dt = Some o ->
  of_wall_micros (wall_micros dt - o * 1000000) (Some 0) = Some u ->
  stockholm_utcoffset u = off ->
  of_wall_micros (wall_micros u + off * 1000000) (Some off) = Some r ->
  astimezone_stockholm dt = Return r.
Proof.
  intros Htz Hu Hoff Hr. unfold astimezone_stockholm, astimezone_utc.
  rewrite Htz, Hu. simpl. rewrite Hoff, Hr. reflexivity.
Qed.

(** Where [dateutil] reads a timestamp as [parse_iso] does, the loop's UTC
    readings are those of [Iso.utc_times]. *)
Lemma iso_utc_times c t :
  (forall s dt, Iso.parse_iso s = Some dt -> parser_parse s = Some dt) ->
  Iso.utc_times c = Some t -> utc_times_of c t.
Proof.
  intros Hparse. unfold Iso.utc_times, utc_times_of.
  assert (forall s u, Iso.to_utc s = Some u -> parse_utc (PStr s) = Return u)
    as Hone.
  { intros s u. unfold Iso.to_utc. simpl.
    destruct (Iso.parse_iso s) as [dt|] eqn:Hs; [|discriminate].
    rewrite (Hparse _ _ Hs). simpl.
    destruct (tzinfo dt) as [off|] eqn:Htz; [|discriminate]. simpl.
    unfold astimezone_utc. rewrite Htz. intros ->. reflexivity. }
  destruct (time_start c) as [| | | |s1| |]; try discriminate.
  destruct (time_end c) as [| | | |s2| |]; try discriminate.
  destruct (Iso.to_utc s1) as [ts|] eqn:H1; [|discriminate].
  destruct (Iso.to_utc s2) as [te|] eqn:H2; [|discriminate].
  simpl. intros E. inversion E; subst t. simpl.
  split; apply Hone; assumption.
Qed.

End ScenarioFacts.

(** C2.  Stockholm is one hour ahead of UTC at both ends of UTC day
    2024-01-01, and the timestamps are read as ISO-8601.  When the fetch
    for 2024-01-01 and then the fetch for 2024-01-02 return the 24 hourly
    intervals of those local days, the call for UTC day 2024-01-01 returns
    exactly 24 intervals: the hours of the UTC day, each once and in order,
    from 2024-01-01T00:00:00+00:00 to 2024-01-02T00:00:00+00:00.  The first
    carries the prices of local interval 01:00-02:00 of 2024-01-01 and the
    last those of local interval 00:00-01:00 of 2024-01-02. *)
Theorem utc_day_2024_01_01_has_24_hours `{P : Platform}
    (p1 p2 : Z -> ElectricityCost) w l1 w1 l2 w2 :
  stockholm_utcoffset (mkdatetime 2024 1 1 0 0 0 0 (Some 0)) = 3600 ->
  stockholm_utcoffset (mkdatetime 2024 1 1 23 59 59 0 (Some 0)) = 3600 ->
  (forall s dt, Iso.parse_iso s = Some dt -> parser_parse s = Some dt) ->
  fetch_electricity_cost Scenario.day1 SE4 w = (Return l1, w1) ->
  fetch_electricity_cost Scenario.day2 SE4 w1 = (Return l2, w2) ->
  objects (heap w1) l1 = Some (Scenario.local_series Scenario.day1 p1) ->
  objects (heap w2) l2 = Some (Scenario.local_series Scenario.day2 p2) ->
  exists out w' kept,
    fetch_electricity_cost_utc Scenario.date_example SE4 w = (Return out, w')
    /\ objects (heap w') out = Some kept
    /\ kept = Scenario.utc_series p1 p2
    /\ length kept = 24%nat
    /\ kept !! 0%nat
       = Some (replace_times (p1 1) "2024-01-01T00:00:00+00:00"
                                    "2024-01-01T01:00:00+00:00")
    /\ Scenario.local_series Scenario.day1 p1 !! 1%nat
       = Some (replace_times (p1 1) "2024-01-01T01:00:00+01:00"
                                    "2024-01-01T02:00:00+01:00")
    /\ kept !! 23%nat
       = Some (replace_times (p2 0) "2024-01-01T23:00:00+00:00"
                                    "2024-01-02T00:00:00+00:00")
    /\ map time_start kept
       = map PStr
           ["2024-01-01T00:00:00+00:00"; "2024-01-01T01:00:00+00:00";
            "2024-01-01T02:00:00+00:00"; "2024-01-01T03:00:00+00:00";
            "2024-01-01T04:00:00+00:00"; "2024-01-01T05:00:00+00:00";
            "2024-01-01T06:00:00+00:00"; "2024-01-01T07:00:00+00:00";
            "2024-01-01T08:00:00+00:00"; "2024-01-01T09:00:00+00:00";
            "2024-01-01T10:00:00+00:00"; "2024-01-01T11:00:00+00:00";
            "2024-01-01T12:00:00+00:00"; "2024-01-01T13:00:00+00:00";
            "2024-01-01T14:00:00+00:00"; "2024-01-01T15:00:00+00:00";
            "2024-01-01T16:00:00+00:00"; "2024-01-01T17:00:00+00:00";
            "2024-01-01T18:00:00+00:00"; "2024-01-01T19:00:00+00:00";
            "2024-01-01T20:00:00+00:00"; "2024-01-01T21:00:00+00:00";
            "2024-01-01T22:00:00+00:00"; "2024-01-01T23:00:00+00:00"]%string
    /\ map time_end kept
       = map PStr
           ["2024-01-01T01:00:00+00:00"; "2024-01-01T02:00:00+00:00";
            "2024-01-01T03:00:00+00:00"; "2024-01-01T04:00:00+00:00";
            "2024-01-01T05:00:00+00:00"; "2024-01-01T06:00:00+00:00";
            "2024-01-01T07:00:00+00:00"; "2024-01-01T08:00:00+00:00";
            "2024-01-01T09:00:00+00:00"; "2024-01-01T10:00:00+00:00";
            "2024-01-01T11:00:00+00:00"; "2024-01-01T12:00:00+00:00";
            "2024-01-01T13:00:00+00:00"; "2024-01-01T14:00:00+00:00";
            "2024-01-01T15:00:00+00:00"; "2024-01-01T16:00:00+00:00";
            "2024-01-01T17:00:00+00:00"; "2024-01-01T18:00:00+00:00";
            "2024-01-01T19:00:00+00:00"; "2024-01-01T20:00:00+00:00";
            "2024-01-01T21:00:00+00:00"; "2024-01-01T22:00:00+00:00";
            "2024-01-01T23:00:00+00:00"; "2024-01-02T00:00:00+00:00"]%string.
Proof.
  intros Htz0 Htz1 Hparse Hf1 Hf2 Ho1 Ho2.
  set (s := mkdatetime 2024 1 1 0 0 0 0 (Some 0)) in *.
  set (e := mkdatetime 2024 1 1 23 59 59 0 (Some 0)) in *.
  set (cs := Scenario.local_series Scenario.day1 p1
             ++ Scenario.local_series Scenario.day2 p2).
  assert (utc_day Scenario.date_example = Return (s, e)) as Hday
    by (vm_compute; reflexivity).
  assert (stockholm_dates s e = Return (Scenario.day1, Scenario.day2))
    as Hdates.
  { unfold stockholm_dates.
    rewrite (astimezone_stockholm_eval s 0 s 3600
               (mkdatetime 2024 1 1 1 0 0 0 (Some 3600)));
      [|reflexivity | vm_compute; reflexivity | exact Htz0
       | vm_compute; reflexivity].
    rewrite (astimezone_stockholm_eval e 0 e 3600
               (mkdatetime 2024 1 2 0 59 59 0 (Some 3600)));
      [|reflexivity | vm_compute; reflexivity | exact Htz1
       | vm_compute; reflexivity].
    reflexivity. }
  assert (fetch_costs_stockholm Scenario.day1 Scenario.day2 SE4 w
          = (Return (l1 ++ l2), w2)) as Hfetch.
  { unfold fetch_costs_stockholm.
    change (date_eqb Scenario.day1 Scenario.day2) with false. cbv iota.
    unfold bind. rewrite Hf1, Hf2. reflexivity. }
  assert (objects (heap w2) (l1 ++ l2) = Some cs) as Hcs.
  { apply objects_app; [|exact Ho2].
    eapply objects_prefix; [|exact Ho1].
    apply (fetch_electricity_cost_refs _ _ _ _ _ Hf2). }
  assert (Forall2 utc_times_of cs Scenario.utc_times) as Ht.
  { assert (mapM Iso.utc_times cs = Some Scenario.utc_times) as Hm
      by (vm_compute; reflexivity).
    apply mapM_Some in Hm. eapply Forall2_impl; [exact Hm|].
    intros c t. apply iso_utc_times. exact Hparse. }
  assert (spec_utc_series s e cs Scenario.utc_times = Scenario.utc_series p1 p2)
    as Hkept by (vm_compute; reflexivity).
  eexists _, _, (Scenario.utc_series p1 p2). split.
  { unfold fetch_electricity_cost_utc.
    unfold bind at 1, lift at 1. rewrite Hday.
    unfold bind at 1, lift at 1. rewrite Hdates.
    unfold bind at 1. rewrite Hfetch.
    apply objects_Forall2 in Hcs.
    rewrite (filter_costs_utc_spec s e _ _ _ Ht [] w2 Hcs). rewrite Hkept.
    reflexivity. }
  split; [exact (objects_fresh (heap w2) (Scenario.utc_series p1 p2))|].
  split; [reflexivity|].
  repeat split; vm_compute; reflexivity.
Qed.

Lemma utc_day_2024_01_01_has_24_hours_witness :
  exists out w' kept,
    fetch_electricity_cost_utc (P := Scenario.platform)
      Scenario.date_example SE4 Scenario.fresh = (Return out, w')
    /\ objects (heap w') out = Some kept
    /\ kept = Scenario.utc_series (Scenario.prices 1) (Scenario.prices 25)
    /\ length kept = 24%nat.
Proof.
  edestruct (utc_day_2024_01_01_has_24_hours (P := Scenario.platform)
               (Scenario.prices 1) (Scenario.prices 25) Scenario.fresh)
    as (out & w' & kept & H1 & H2 & H3 & H4 & _).
  - vm_compute. reflexivity.
  - vm_compute. reflexivity.
  - intros s dt H. exact H.
  - vm_compute. reflexivity.
  - vm_compute. reflexivity.
  - vm_compute. reflexivity.
  - vm_compute. reflexivity.
  - exists out, w', kept. auto.
Defined.

(** * Further properties of the two functions *)

(** ** The cache tree only grows *)

Section Grows.
Context `{P : Platform}.

Lemma mkdir_exist_ok_grows p w :
  fs w ⊆ fs (snd (mkdir_exist_ok p w))
  /\ forall q, q <> p -> fs (snd (mkdir_exist_ok p w)) !! q = fs w !! q.
Proof.
  unfold mkdir_exist_ok.
  destruct (fs w !! p) as [[doc|]|] eqn:E; try (split; [reflexivity|auto]).
  cbv zeta. destruct (os_path_dirname p) as [|s l].
  - simpl. split; [apply insert_subseteq; exact E|].
    intros q Hq. apply lookup_insert_ne. congruence.
  - destruct (fs w !! (s :: l)) as [[doc|]|]; try (split; [reflexivity|auto]).
    simpl. split; [apply insert_subseteq; exact E|].
    intros q Hq. apply lookup_insert_ne. congruence.
Qed.

Lemma makedirs_rev_grows rname w :
  fs w ⊆ fs (snd (makedirs_rev rname w))
  /\ forall q : path, (length rname < length q)%nat ->
               fs (snd (makedirs_rev rname w)) !! q = fs w !! q.
Proof.
  revert w. induction rname as [|t rhead IH]; intros w.
  - simpl. split; [reflexivity|auto].
  - simpl makedirs_rev. unfold bind at 1 3.
    assert (forall w0,
      let r := (match rhead with
                | [] => ret tt
                | _ :: _ =>
                    bind (os_path_exists (reverse rhead)) (fun head_exists =>
                    if head_exists then ret tt else makedirs_rev rhead)
                end) w0 in
      fs w0 ⊆ fs (snd r)
      /\ forall q : path, (length rhead < length q)%nat ->
                   fs (snd r) !! q = fs w0 !! q)
      as Hhead.
    { intros w0. destruct rhead as [|t2 rh2] eqn:E.
      - simpl. split; [reflexivity|auto].
      - rewrite <- E in *. cbv zeta. unfold bind, os_path_exists.
        case_bool_decide; [simpl; split; [reflexivity|auto]|]. apply IH. }
    specialize (Hhead w). cbv zeta in Hhead.
    destruct (match rhead with [] => ret tt | _ :: _ => _ end w)
      as [[[]|e] w1]; simpl in Hhead; destruct Hhead as [Hsub Hfar].
    + destruct (mkdir_exist_ok_grows (reverse (t :: rhead)) w1) as [Hs2 Hf2].
      split; [etransitivity; eassumption|].
      intros q Hq. rewrite Hf2.
      * apply Hfar. simpl in Hq. lia.
      * intros ->. rewrite length_reverse in Hq. lia.
    + simpl. split; [exact Hsub|]. intros q Hq. apply Hfar. simpl in Hq. lia.
Qed.

Lemma json_dump_grows data p w :
  fs w !! p = None -> fs w ⊆ fs (snd (json_dump data p w)).
Proof.
  intros E. unfold json_dump. rewrite E. cbv zeta.
  destruct (os_path_dirname p) as [|s l].
  - simpl. apply insert_subseteq. exact E.
  - destruct (fs w !! (s :: l)) as [[doc|]|]; try reflexivity.
    simpl. apply insert_subseteq. exact E.
Qed.

Lemma costs_of_json_fs data w : fs (snd (costs_of_json data w)) = fs w.
Proof.
  destruct (costs_of_json_spec data w) as (w' & -> & Hf & _). exact Hf.
Qed.

Lemma fetch_electricity_cost_grows date area w :
  fs w ⊆ fs (snd (fetch_electricity_cost date area w)).
Proof.
  destruct (fs w !! cache_path_of date area) as [n|] eqn:Hc.
  - destruct (fetch_cached_spec date area w) as (w' & -> & Hf & _);
      [rewrite Hc; eauto|]. rewrite Hf. reflexivity.
  - rewrite (fetch_uncached _ _ _ Hc). unfold bind at 1, requests_get.
    destruct (http_get (url_of date area)) as [r|]; [|reflexivity].
    destruct (status_code r =? 200); [|reflexivity].
    unfold bind at 1, lift. destruct (json r) as [data|]; [|reflexivity].
    simpl or_raise. cbv iota.
    set (w0 := with_request w (url_of date area)).
    change (fs w) with (fs w0). change (fs w !! cache_path_of date area)
      with (fs w0 !! cache_path_of date area) in Hc.
    unfold bind at 1, os_makedirs.
    destruct (makedirs_rev_grows
                (reverse (os_path_dirname (cache_path_of date area))) w0)
      as [H1 F1].
    assert (fs (snd (makedirs_rev
                       (reverse (os_path_dirname (cache_path_of date area)))
                       w0)) !! cache_path_of date area = None) as Hc1.
    { rewrite F1; [exact Hc|]. rewrite length_reverse. simpl. lia. }
    destruct (makedirs_rev _ w0) as [[[]|e] w1]; simpl in H1, Hc1;
      [|exact H1].
    unfold bind at 1.
    pose proof (json_dump_grows data _ w1 Hc1) as H2.
    destruct (json_dump data _ w1) as [[[]|e] w2]; simpl in H2.
    + rewrite costs_of_json_fs. etransitivity; eassumption.
    + simpl. etransitivity; eassumption.
Qed.

Lemma fetch_costs_stockholm_grows sd ed area w :
  fs w ⊆ fs (snd (fetch_costs_stockholm sd ed area w)).
Proof.
  unfold fetch_costs_stockholm. destruct (date_eqb sd ed).
  - apply fetch_electricity_cost_grows.
  - unfold bind at 1.
    pose proof (fetch_electricity_cost_grows sd area w) as H1.
    destruct (fetch_electricity_cost sd area w) as [[l1|e1] w1];
      simpl in H1; [|exact H1].
    unfold bind at 1.
    pose proof (fetch_electricity_cost_grows ed area w1) as H2.
    destruct (fetch_electricity_cost ed area w1) as [[l2|e2] w2];
      simpl in H2; simpl; etransitivity; eassumption.
Qed.

End Grows.

(** X1.  Whatever its outcome, [fetch_electricity_cost] removes and
    overwrites nothing: every file and directory of the tree before the call
    is in the tree after it, unchanged. *)
Theorem fetch_never_removes_or_overwrites `{P : Platform} date area w p n :
  fs w !! p = Some n ->
  fs (snd (fetch_electricity_cost date area w)) !! p = Some n.
Proof.
  intros H. eapply lookup_weaken; [exact H|].
  apply fetch_electricity_cost_grows.
Qed.

Lemma fetch_never_removes_or_overwrites_witness :
  fs (snd (fetch_electricity_cost (P := Scenario.platform)
             Scenario.day2 SE4 Scenario.cached))
    !! ["cache"; "2024"; "01"; "01_SE4.json"]%string
  = Some (File (Some (Scenario.document Scenario.day1 (Scenario.prices 1)))).
Proof.
  apply (fetch_never_removes_or_overwrites (P := Scenario.platform)).
  vm_compute. reflexivity.
Defined.

(** X2.  The same holds for [fetch_electricity_cost_utc], whatever its
    outcome: the filtering loop touches no file, and the fetches only add. *)
Theorem utc_fetch_never_removes_or_overwrites `{P : Platform}
    date_utc area w p n :
  fs w !! p = Some n ->
  fs (snd (fetch_electricity_cost_utc date_utc area w)) !! p = Some n.
Proof.
  intros H. eapply lookup_weaken; [exact H|].
  unfold fetch_electricity_cost_utc. unfold bind at 1, lift at 1.
  destruct (utc_day date_utc) as [[s e]|ex]; [|reflexivity].
  unfold bind at 1, lift at 1.
  destruct (stockholm_dates s e) as [[sd ed]|ex]; [|reflexivity].
  unfold bind at 1.
  pose proof (fetch_costs_stockholm_grows sd ed area w) as H1.
  destruct (fetch_costs_stockholm sd ed area w) as [[srcs|ex] w1];
    simpl in H1; [|exact H1].
  destruct (filter_costs_utc s e srcs [] w1) as [r w'] eqn:E.
  apply filter_costs_utc_frame in E. destruct E as (Hf & _). simpl.
  rewrite Hf. exact H1.
Qed.

Lemma utc_fetch_never_removes_or_overwrites_witness :
  fs (snd (fetch_electricity_cost_utc (P := Scenario.platform)
             Scenario.date_example SE4 Scenario.cached))
    !! ["cache"; "2024"; "01"; "01_SE4.json"]%string
  = Some (File (Some (Scenario.document Scenario.day1 (Scenario.prices 1)))).
Proof.
  apply (utc_fetch_never_removes_or_overwrites (P := Scenario.platform)).
  vm_compute. reflexivity.
Defined.

(** ** A miss followed by a hit *)

(** X3.  After a miss answered with status 200 and a JSON body that reads
    as a series (no regular file being in the way of the cache
    directories), the call returns that series, and a second call for the
    same key is served from the cache: it returns the same series, the two
    calls together sent one request, and the second call leaves the tree as
    the first left it. *)
Theorem fetch_miss_then_hit `{P : Platform} date area w r data cs :
  fs w !! cache_path_of date area = None ->
  http_get (url_of date area) = Some r ->
  status_code r = 200 ->
  json r = Some data ->
  no_file_in_the_way (fs w) (os_path_dirname (cache_path_of date area)) ->
  decode_series data = Return cs ->
  exists ls1 w1 ls2 w2,
    fetch_electricity_cost date area w = (Return ls1, w1)
    /\ objects (heap w1) ls1 = Some cs
    /\ fetch_electricity_cost date area w1 = (Return ls2, w2)
    /\ objects (heap w2) ls2 = Some cs
    /\ requests w2 = requests w ++ [url_of date area]
    /\ fs w2 = fs w1.
Proof.
  intros Hc Hr Hs Hj Hnf Hcs.
  destruct (fetch_uncached_200 date area w r data Hc Hr Hs Hj Hnf)
    as (w1 & Hw1 & Hreq & _ & Hfile & _ & _ & Hser).
  rewrite Hcs in Hser. apply series_of_Return in Hser.
  destruct Hser as (ls1 & Hfst1 & Ho1). rewrite Hw1 in Ho1.
  assert (fetch_electricity_cost date area w = (Return ls1, w1)) as E1.
  { rewrite <- Hw1, <- Hfst1. apply surjective_pairing. }
  destruct (fetch_cached_spec date area w1) as (w2 & Hw2 & Hf2 & Hr2 & _ & Hs2).
  { rewrite Hfile. eauto. }
  rewrite Hfile, Hcs in Hs2. apply series_of_Return in Hs2.
  destruct Hs2 as (ls2 & Hfst2 & Ho2). rewrite Hw2 in Ho2.
  assert (fetch_electricity_cost date area w1 = (Return ls2, w2)) as E2.
  { rewrite <- Hw2, <- Hfst2. apply surjective_pairing. }
  exists ls1, w1, ls2, w2.
  split; [exact E1|]. split; [exact Ho1|]. split; [exact E2|].
  split; [exact Ho2|]. split; [rewrite Hr2; exact Hreq | exact Hf2].
Qed.

Lemma fetch_miss_then_hit_witness :
  exists ls1 w1 ls2 w2,
    fetch_electricity_cost (P := Scenario.platform)
      Scenario.day1 SE4 Scenario.fresh = (Return ls1, w1)
    /\ fetch_electricity_cost (P := Scenario.platform)
         Scenario.day1 SE4 w1 = (Return ls2, w2)
    /\ objects (heap w2) ls2
       = Some (Scenario.local_series Scenario.day1 (Scenario.prices 1))
    /\ requests w2 = [] ++ [url_of Scenario.day1 SE4].
Proof.
  destruct (fetch_miss_then_hit (P := Scenario.platform)
              Scenario.day1 SE4 Scenario.fresh
              (mkresponse 200
                 (Some (Scenario.document Scenario.day1 (Scenario.prices 1))))
              (Scenario.document Scenario.day1 (Scenario.prices 1))
              (Scenario.local_series Scenario.day1 (Scenario.prices 1)))
    as (ls1 & w1 & ls2 & w2 & E1 & _ & E2 & Ho2 & Hreq & _).
  - vm_compute. reflexivity.
  - vm_compute. reflexivity.
  - reflexivity.
  - reflexivity.
  - intros p doc _ _. simpl. rewrite lookup_empty. discriminate.
  - vm_compute. reflexivity.
  - exists ls1, w1, ls2, w2.
    split; [exact E1|]. split; [exact E2|]. split; [exact Ho2 | exact Hreq].
Defined.

(** X4.  The cache is written before the items are turned into intervals:
    a 200 response whose JSON is not a list of interval objects makes the
    call raise [TypeError], yet the body is stored at the cache path, and a
    later call for the key raises [TypeError] again without any request. *)
Theorem fetch_caches_ill_shaped_body `{P : Platform} date area w r data :
  fs w !! cache_path_of date area = None ->
  http_get (url_of date area) = Some r ->
  status_code r = 200 ->
  json r = Some data ->
  no_file_in_the_way (fs w) (os_path_dirname (cache_path_of date area)) ->
  decode_series data = Raise TypeError ->
  exists w1 w2,
    fetch_electricity_cost date area w = (Raise TypeError, w1)
    /\ fs w1 !! cache_path_of date area = Some (File (Some data))
    /\ fetch_electricity_cost date area w1 = (Raise TypeError, w2)
    /\ requests w2 = requests w1.
Proof.
  intros Hc Hr Hs Hj Hnf Hd.
  destruct (fetch_uncached_200 date area w r data Hc Hr Hs Hj Hnf)
    as (w1 & Hw1 & _ & _ & Hfile & _ & _ & Hser).
  destruct (fetch_cached_spec date area w1) as (w2 & Hw2 & _ & Hr2 & _ & Hs2).
  { rewrite Hfile. eauto. }
  rewrite Hfile, Hd in Hs2. rewrite Hd in Hser.
  exists w1, w2.
  destruct (fetch_electricity_cost date area w) as [[l|e] w1'] eqn:E1;
    simpl in Hw1, Hser; subst w1'.
  { destruct (objects (heap w1) l); discriminate. }
  destruct (fetch_electricity_cost date area w1) as [[l|e2] w2'] eqn:E2;
    simpl in Hw2, Hs2; subst w2'.
  { destruct (objects (heap w2) l); discriminate. }
  inversion Hser; inversion Hs2; subst. auto.
Qed.

Lemma fetch_caches_ill_shaped_body_witness :
  exists w1 w2,
    fetch_electricity_cost (P := Faulty.platform) Scenario.day1 SE4
      Scenario.fresh = (Raise TypeError, w1)
    /\ fs w1 !! cache_path_of Scenario.day1 SE4
       = Some (File (Some (PDict [("error"%string, PStr "maintenance")])))
    /\ fetch_electricity_cost (P := Faulty.platform) Scenario.day1 SE4 w1
       = (Raise TypeError, w2)
    /\ requests w2 = requests w1.
Proof.
  apply (fetch_caches_ill_shaped_body (P := Faulty.platform)
           Scenario.day1 SE4 Scenario.fresh
           (mkresponse 200
              (Some (PDict [("error"%string, PStr "maintenance")])))).
  - vm_compute. reflexivity.
  - vm_compute. reflexivity.
  - reflexivity.
  - reflexivity.
  - intros p doc _ _. simpl. rewrite lookup_empty. discriminate.
  - vm_compute. reflexivity.
Defined.

(** X5.  A 200 response whose body is not JSON makes the call raise
    [JSONDecodeError] before anything is written: one request was sent, and
    the tree and the heap are as before. *)
Theorem fetch_rejects_non_json_body `{P : Platform} date area w r :
  fs w !! cache_path_of date area = None ->
  http_get (url_of date area) = Some r ->
  status_code r = 200 ->
  json r = None ->
  exists w',
    fetch_electricity_cost date area w = (Raise JSONDecodeError, w')
    /\ fs w' = fs w
    /\ heap w' = heap w
    /\ requests w' = requests w ++ [url_of date area].
Proof.
  intros Hc Hr Hs Hj. rewrite (fetch_uncached _ _ _ Hc).
  unfold bind at 1, requests_get. rewrite Hr, Hs.
  simpl (200 =? 200). cbv iota. unfold bind at 1, lift. rewrite Hj.
  eexists. split; [reflexivity|]. simpl. auto.
Qed.

Lemma fetch_rejects_non_json_body_witness :
  exists w',
    fetch_electricity_cost (P := Faulty.platform) Scenario.day2 SE4
      Scenario.fresh = (Raise JSONDecodeError, w')
    /\ fs w' = fs Scenario.fresh
    /\ heap w' = heap Scenario.fresh
    /\ requests w' = requests Scenario.fresh ++ [url_of Scenario.day2 SE4].
Proof.
  apply (fetch_rejects_non_json_body (P := Faulty.platform)
           Scenario.day2 SE4 Scenario.fresh (mkresponse 200 None)).
  - vm_compute. reflexivity.
  - vm_compute. reflexivity.
  - reflexivity.
  - reflexivity.
Defined.

(** ** Failures and requests of fetch_electricity_cost_utc *)

Section UtcRuns.
Context `{P : Platform}.

Lemma fetch_electricity_cost_utc_run date_utc area s e sd ed w :
  utc_day date_utc = Return (s, e) ->
  stockholm_dates s e = Return (sd, ed) ->
  fetch_electricity_cost_utc date_utc area w
  = bind (fetch_costs_stockholm sd ed area)
         (fun costs => filter_costs_utc s e costs []) w.
Proof.
  intros Hday Hdates. unfold fetch_electricity_cost_utc.
  unfold bind at 1, lift at 1. rewrite Hday.
  unfold bind at 1, lift at 1. rewrite Hdates. reflexivity.
Qed.

Lemma fetch_requests_suffix date area w :
  exists rs,
    requests (snd (fetch_electricity_cost date area w)) = requests w ++ rs
    /\ rs `sublist_of` [url_of date area].
Proof.
  rewrite fetch_requests. case_bool_decide.
  - exists []. split; [symmetry; apply app_nil_r | apply sublist_nil_l].
  - exists [url_of date area]. split; reflexivity.
Qed.

Lemma fetch_costs_stockholm_requests sd ed area w :
  exists rs,
    requests (snd (fetch_costs_stockholm sd ed area w)) = requests w ++ rs
    /\ rs `sublist_of` [url_of sd area; url_of ed area]
    /\ (sd = ed -> (length rs <= 1)%nat).
Proof.
  unfold fetch_costs_stockholm. destruct (date_eqb sd ed) eqn:Hb.
  - destruct (fetch_requests_suffix sd area w) as (rs & Hr & Hs).
    exists rs. split; [exact Hr|]. split.
    + change [url_of sd area; url_of ed area]
        with ([url_of sd area] ++ [url_of ed area]).
      apply sublist_inserts_r. exact Hs.
    + intros _. apply sublist_length in Hs. exact Hs.
  - assert (sd <> ed) as Hne.
    { intros Heq. apply date_eqb_eq in Heq. congruence. }
    unfold bind at 1.
    destruct (fetch_requests_suffix sd area w) as (rs1 & Hr1 & Hs1).
    destruct (fetch_electricity_cost sd area w) as [[l1|e1] w1];
      simpl in Hr1.
    + unfold bind at 1.
      destruct (fetch_requests_suffix ed area w1) as (rs2 & Hr2 & Hs2).
      assert (requests (snd (fetch_electricity_cost ed area w1))
              = requests w ++ (rs1 ++ rs2)) as Hr.
      { rewrite Hr2, Hr1. symmetry. apply app_assoc. }
      exists (rs1 ++ rs2).
      split; [destruct (fetch_electricity_cost ed area w1) as [[l2|e2] w2];
              exact Hr|].
      split; [|intros Heq; contradiction].
      change [url_of sd area; url_of ed area]
        with ([url_of sd area] ++ [url_of ed area]).
      apply sublist_app; assumption.
    + exists rs1. split; [exact Hr1|]. split; [|intros Heq; contradiction].
      change [url_of sd area; url_of ed area]
        with ([url_of sd area] ++ [url_of ed area]).
      apply sublist_inserts_r. exact Hs1.
Qed.

End UtcRuns.

(** X6.  A failure of an underlying fetch aborts the whole call with the
    same exception.  When the fetch for the start date fails, the world is
    the one that fetch left: the end date is not fetched.  When the fetch
    for the end date fails, what the first fetch stored stays stored. *)
Theorem utc_fetch_aborts_on_fetch_failure `{P : Platform}
    date_utc area s e sd ed w :
  utc_day date_utc = Return (s, e) ->
  stockholm_dates s e = Return (sd, ed) ->
  (forall ex w1,
     fetch_electricity_cost sd area w = (Raise ex, w1) ->
     fetch_electricity_cost_utc date_utc area w = (Raise ex, w1))
  /\ (sd <> ed ->
      forall l1 w1 ex w2,
        fetch_electricity_cost sd area w = (Return l1, w1) ->
        fetch_electricity_cost ed area w1 = (Raise ex, w2) ->
        fetch_electricity_cost_utc date_utc area w = (Raise ex, w2)
        /\ fs w1 ⊆ fs w2).
Proof.
  intros Hday Hdates. split.
  - intros ex w1 E.
    rewrite (fetch_electricity_cost_utc_run _ _ _ _ _ _ _ Hday Hdates).
    unfold bind at 1, fetch_costs_stockholm.
    destruct (date_eqb sd ed).
    + rewrite E. reflexivity.
    + unfold bind at 1. rewrite E. reflexivity.
  - intros Hne l1 w1 ex w2 E1 E2.
    rewrite (fetch_electricity_cost_utc_run _ _ _ _ _ _ _ Hday Hdates).
    unfold bind at 1, fetch_costs_stockholm.
    destruct (date_eqb sd ed) eqn:Hb.
    { exfalso. apply Hne. apply date_eqb_eq. exact Hb. }
    unfold bind at 1. rewrite E1. unfold bind at 1. rewrite E2.
    split; [reflexivity|].
    pose proof (fetch_electricity_cost_grows ed area w1) as H.
    rewrite E2 in H. exact H.
Qed.

Lemma utc_fetch_aborts_on_fetch_failure_witness :
  exists w1,
    fetch_electricity_cost_utc (P := Faulty.platform)
      Scenario.date_example SE4 Scenario.fresh = (Raise TypeError, w1)
    /\ requests w1 = [url_of Scenario.day1 SE4].
Proof.
  destruct (utc_fetch_aborts_on_fetch_failure (P := Faulty.platform)
              Scenario.date_example SE4
              (mkdatetime 2024 1 1 0 0 0 0 (Some 0))
              (mkdatetime 2024 1 1 23 59 59 0 (Some 0))
              Scenario.day1 Scenario.day2 Scenario.fresh) as [H _].
  - vm_compute. reflexivity.
  - vm_compute. reflexivity.
  - eexists. split.
    + apply (H TypeError
               (snd (fetch_electricity_cost (P := Faulty.platform)
                       Scenario.day1 SE4 Scenario.fresh))).
      vm_compute. reflexivity.
    + vm_compute. reflexivity.
Defined.

(** X7.  Whatever its outcome, [fetch_electricity_cost_utc] sends at most
    two requests, and only to the pricing URLs of the two Stockholm dates
    for the requested area, the start date's first; when the two dates are
    equal it sends at most one. *)
Theorem utc_fetch_sends_at_most_two_requests `{P : Platform}
    date_utc area w :
  exists rs,
    requests (snd (fetch_electricity_cost_utc date_utc area w))
    = requests w ++ rs
    /\ (length rs <= 2)%nat
    /\ forall s e sd ed,
         utc_day date_utc = Return (s, e) ->
         stockholm_dates s e = Return (sd, ed) ->
         rs `sublist_of` [url_of sd area; url_of ed area]
         /\ (sd = ed -> (length rs <= 1)%nat).
Proof.
  destruct (utc_day date_utc) as [[s e]|ex] eqn:Hday.
  - destruct (stockholm_dates s e) as [[sd ed]|ex] eqn:Hdates.
    + rewrite (fetch_electricity_cost_utc_run _ _ _ _ _ _ _ Hday Hdates).
      destruct (fetch_costs_stockholm_requests sd ed area w)
        as (rs & Hr & Hsub & Hone).
      exists rs. split.
      * unfold bind.
        destruct (fetch_costs_stockholm sd ed area w) as [[srcs|ex] w1];
          simpl in Hr; [|exact Hr].
        destruct (filter_costs_utc s e srcs [] w1) as [r w'] eqn:E.
        apply filter_costs_utc_frame in E. destruct E as (_ & Hq & _).
        simpl. rewrite Hq. exact Hr.
      * split; [apply sublist_length in Hsub; exact Hsub|].
        intros s' e' sd' ed' E1 E2. inversion E1; subst s' e'.
        rewrite Hdates in E2. inversion E2; subst sd' ed'. auto.
    + exists []. split.
      * unfold fetch_electricity_cost_utc. unfold bind at 1, lift at 1.
        rewrite Hday. unfold bind at 1, lift at 1. rewrite Hdates.
        simpl. symmetry. apply app_nil_r.
      * split; [simpl; lia|]. intros s' e' sd' ed' E1 E2.
        inversion E1; subst s' e'. rewrite Hdates in E2. discriminate.
  - exists []. split.
    + unfold fetch_electricity_cost_utc. unfold bind at 1, lift at 1.
      rewrite Hday. simpl. symmetry. apply app_nil_r.
    + split; [simpl; lia|]. intros s' e' sd' ed' E1. discriminate.
Qed.

(** X8.  For a valid date the UTC window of lines 82-83 exists, midnight to
    23:59:59 of that date, except on 9999-12-31: there adding a day leaves
    the range of [datetime] and the call raises [OverflowError] before it
    fetches anything. *)
Theorem utc_window_fails_only_on_last_day `{P : Platform} date_utc area w :
  Calendar.valid_ymd (year date_utc) (month date_utc) (day date_utc) = true ->
  (year date_utc = 9999 /\ month date_utc = 12 /\ day date_utc = 31 ->
   fetch_electricity_cost_utc date_utc area w = (Raise OverflowError, w))
  /\ (~ (year date_utc = 9999 /\ month date_utc = 12 /\ day date_utc = 31) ->
      utc_day date_utc
      = Return (mkdatetime (year date_utc) (month date_utc) (day date_utc)
                           0 0 0 0 (Some 0),
                mkdatetime (year date_utc) (month date_utc) (day date_utc)
                           23 59 59 0 (Some 0))).
Proof.
  intros Hv. split.
  - intros (Hy & Hm & Hd).
    assert (utc_day date_utc = Raise OverflowError) as Hday.
    { unfold utc_day. rewrite Hy, Hm, Hd. vm_compute. reflexivity. }
    unfold fetch_electricity_cost_utc. unfold bind at 1, lift at 1.
    rewrite Hday. reflexivity.
  - intros Hlast. apply utc_day_total; assumption.
Qed.

Lemma utc_window_fails_only_on_last_day_witness :
  fetch_electricity_cost_utc (P := Scenario.platform)
    (mkdatetime 9999 12 31 8 30 0 0 None) SE4 Scenario.fresh
  = (Raise OverflowError, Scenario.fresh).
Proof.
  apply (utc_window_fails_only_on_last_day (P := Scenario.platform)
           (mkdatetime 9999 12 31 8 30 0 0 None) SE4 Scenario.fresh).
  - vm_compute. reflexivity.
  - simpl. auto.
Defined.

(** ** Repeated calls are served from the cache *)

Section Again.
Context `{P : Platform}.

Lemma json_dump_written data p w w' :
  json_dump data p w = (Return tt, w') ->
  fs w' !! p = Some (File (Some data)).
Proof.
  unfold json_dump. intros E.
  assert (w' = with_fs w (<[p := File (Some data)]> (fs w))) as ->.
  { destruct (fs w !! p) as [[doc|]|]; try discriminate;
      (destruct (os_path_dirname p) as [|x l];
       [|destruct (fs w !! (x :: l)) as [[doc'|]|]]);
      try discriminate; inversion E; reflexivity. }
  simpl. apply lookup_insert_eq.
Qed.

Lemma fetch_cached_run date area w data cs :
  fs w !! cache_path_of date area = Some (File (Some data)) ->
  decode_series data = Return cs ->
  fetch_electricity_cost date area w
  = (Return (seq (length (heap w)) (length cs)),
     {| fs := fs w; requests := requests w; heap := heap w ++ cs |}).
Proof.
  intros Hf Hd. rewrite fetch_cached by (rewrite Hf; eauto).
  unfold bind, json_load. rewrite Hf.
  destruct (costs_of_json_spec data w) as (w' & _ & _ & _ & _ & _ & H).
  apply H. exact Hd.
Qed.

Lemma costs_of_json_values data w ls w1 :
  costs_of_json data w = (Return ls, w1) ->
  exists cs, decode_series data = Return cs
             /\ objects (heap w1) ls = Some cs.
Proof.
  intros E.
  destruct (costs_of_json_refs _ _ _ _ E) as (_ & cs & Hcs).
  destruct (costs_of_json_spec data w) as (w' & _ & _ & _ & _ & Hs & _).
  rewrite E in Hs. simpl in Hs. rewrite Hcs in Hs. simpl in Hs.
  exists cs. split; [symmetry; exact Hs | exact Hcs].
Qed.

(** A successful fetch leaves the key's document in the cache, and the
    series it returned is the one that document decodes to. *)
Lemma fetch_success_cached date area w ls w1 :
  fetch_electricity_cost date area w = (Return ls, w1) ->
  exists data cs,
    fs w1 !! cache_path_of date area = Some (File (Some data))
    /\ decode_series data = Return cs
    /\ objects (heap w1) ls = Some cs.
Proof.
  intros E.
  destruct (fs w !! cache_path_of date area) as [n|] eqn:Hf.
  - rewrite fetch_cached in E by (rewrite Hf; eauto).
    apply bind_inv_Return in E. destruct E as (data & w0 & Ej & E).
    unfold json_load in Ej. rewrite Hf in Ej.
    destruct n as [[data'|]|]; try discriminate.
    inversion Ej; subst data' w0; clear Ej.
    destruct (costs_of_json_values _ _ _ _ E) as (cs & Hd & Ho).
    exists data, cs. split; [|split; assumption].
    pose proof (costs_of_json_fs data w) as Hfs. rewrite E in Hfs.
    simpl in Hfs. rewrite Hfs. exact Hf.
  - rewrite fetch_uncached in E by exact Hf.
    apply bind_inv_Return in E. destruct E as (r & w0 & _ & E).
    destruct (status_code r =? 200); [|discriminate].
    apply bind_inv_Return in E. destruct E as (data & wa & _ & E).
    apply bind_inv_Return in E. destruct E as ([] & wb & _ & E).
    apply bind_inv_Return in E. destruct E as ([] & wc & Ed & E).
    destruct (costs_of_json_values _ _ _ _ E) as (cs & Hd & Ho).
    exists data, cs. split; [|split; assumption].
    pose proof (costs_of_json_fs data wc) as Hfs. rewrite E in Hfs.
    simpl in Hfs. rewrite Hfs. exact (json_dump_written _ _ _ _ Ed).
Qed.

Lemma fetch_again date area w ls w1 :
  fetch_electricity_cost date area w = (Return ls, w1) ->
  exists cs,
    objects (heap w1) ls = Some cs
    /\ forall w2, fs w1 ⊆ fs w2 ->
         fetch_electricity_cost date area w2
         = (Return (seq (length (heap w2)) (length cs)),
            {| fs := fs w2; requests := requests w2;
               heap := heap w2 ++ cs |}).
Proof.
  intros E. destruct (fetch_success_cached _ _ _ _ _ E)
    as (data & cs & Hf & Hd & Ho).
  exists cs. split; [exact Ho|]. intros w2 Hsub.
  apply (fetch_cached_run _ _ _ data); [|exact Hd].
  exact (lookup_weaken _ _ _ _ Hf Hsub).
Qed.

Lemma fetch_costs_stockholm_again sd ed area w srcs wa :
  fetch_costs_stockholm sd ed area w = (Return srcs, wa) ->
  exists cs,
    objects (heap wa) srcs = Some cs
    /\ forall w2, fs wa ⊆ fs w2 ->
         fetch_costs_stockholm sd ed area w2
         = (Return (seq (length (heap w2)) (length cs)),
            {| fs := fs w2; requests := requests w2;
               heap := heap w2 ++ cs |}).
Proof.
  unfold fetch_costs_stockholm. destruct (date_eqb sd ed).
  - apply fetch_again.
  - intros E.
    apply bind_inv_Return in E. destruct E as (l1 & w1 & E1 & E).
    apply bind_inv_Return in E. destruct E as (l2 & w2' & E2 & E).
    unfold ret in E. inversion E; subst srcs w2'; clear E.
    destruct (fetch_again _ _ _ _ _ E1) as (cs1 & Ho1 & F1).
    destruct (fetch_again _ _ _ _ _ E2) as (cs2 & Ho2 & F2).
    destruct (fetch_electricity_cost_refs _ _ _ _ _ E2) as (Hpre & _).
    pose proof (fetch_electricity_cost_grows ed area w1) as Hg.
    rewrite E2 in Hg. simpl in Hg.
    exists (cs1 ++ cs2). split.
    + apply objects_app; [|exact Ho2].
      exact (objects_prefix _ _ _ _ Hpre Ho1).
    + intros w2 Hsub.
      unfold bind at 1. rewrite (F1 w2) by (etransitivity; eassumption).
      unfold bind at 1. rewrite F2 by exact Hsub.
      unfold ret. cbn [fs requests heap].
      rewrite !length_app, seq_app, <- app_assoc. reflexivity.
Qed.

End Again.

(** X9.  Once [fetch_electricity_cost] has returned a series for a key,
    every later call for that key, in any world that still holds what the
    cache held then, returns that series again, sends no request and leaves
    the cache as it is. *)
Theorem fetch_success_is_remembered `{P : Platform} date area w ls w1 w2 :
  fetch_electricity_cost date area w = (Return ls, w1) ->
  fs w1 ⊆ fs w2 ->
  exists ls' w3,
    fetch_electricity_cost date area w2 = (Return ls', w3)
    /\ is_Some (objects (heap w1) ls)
    /\ objects (heap w3) ls' = objects (heap w1) ls
    /\ requests w3 = requests w2
    /\ fs w3 = fs w2.
Proof.
  intros E Hsub. destruct (fetch_again _ _ _ _ _ E) as (cs & Ho & F).
  eexists _, _. split; [exact (F w2 Hsub)|].
  split; [rewrite Ho; eauto|]. split; [|split; reflexivity].
  rewrite Ho. apply objects_fresh.
Qed.

Lemma fetch_success_is_remembered_witness :
  exists ls' w3,
    fetch_electricity_cost (P := Scenario.platform) Scenario.day1 SE4
      (snd (fetch_electricity_cost (P := Scenario.platform)
              Scenario.day2 SE4
              (snd (fetch_electricity_cost (P := Scenario.platform)
                      Scenario.day1 SE4 Scenario.fresh))))
    = (Return ls', w3)
    /\ requests w3
       = [url_of Scenario.day1 SE4; url_of Scenario.day2 SE4].
Proof.
  pose (r1 := fetch_electricity_cost (P := Scenario.platform)
                Scenario.day1 SE4 Scenario.fresh).
  pose (w2 := snd (fetch_electricity_cost (P := Scenario.platform)
                     Scenario.day2 SE4 (snd r1))).
  assert (r1 = (Return (seq 0 24), snd r1)) as E
    by (vm_compute; reflexivity).
  assert (fs (snd r1) ⊆ fs w2) as Hsub
    by (apply fetch_electricity_cost_grows).
  destruct (fetch_success_is_remembered (P := Scenario.platform)
              Scenario.day1 SE4 Scenario.fresh (seq 0 24) (snd r1) w2
              E Hsub) as (ls' & w3 & E3 & _ & _ & Hr & _).
  exists ls', w3. split; [exact E3|].
  rewrite Hr. vm_compute. reflexivity.
Defined.

(** X10.  After a successful [fetch_electricity_cost_utc], the same call
    again succeeds with the same series of values, sends no request and
    leaves the cache as it is: both Stockholm dates are then cached. *)
Theorem utc_fetch_repeat_is_served_from_cache `{P : Platform}
    date_utc area w out w1 :
  fetch_electricity_cost_utc date_utc area w = (Return out, w1) ->
  exists out' w2,
    fetch_electricity_cost_utc date_utc area w1 = (Return out', w2)
    /\ is_Some (objects (heap w1) out)
    /\ objects (heap w2) out' = objects (heap w1) out
    /\ requests w2 = requests w1
    /\ fs w2 = fs w1.
Proof.
  intros E.
  destruct (fetch_electricity_cost_utc_inv _ _ _ _ _ E)
    as (s & e & sd & ed & srcs & wa & cs & times
        & Hday & Hdates & Hf & Ho & Ht & Hout & Hheap & Hfs & Hreq).
  destruct (fetch_costs_stockholm_again _ _ _ _ _ _ Hf) as (cs' & Ho' & F).
  rewrite Ho in Ho'. inversion Ho'; subst cs'; clear Ho'.
  assert (fs wa ⊆ fs w1) as Hsub by (rewrite Hfs; reflexivity).
  pose proof (F w1 Hsub) as F1.
  assert (objects (heap w1) out = Some (spec_utc_series s e cs times)) as Hv.
  { rewrite Hout, Hheap. apply objects_fresh. }
  rewrite (fetch_electricity_cost_utc_run _ _ _ _ _ _ _ Hday Hdates).
  rewrite (bind_Return _ _ _ _ _ F1).
  rewrite (filter_costs_utc_spec s e _ cs times Ht).
  2:{ apply objects_Forall2. cbn [heap]. apply objects_fresh. }
  eexists _, _. split; [reflexivity|].
  split; [rewrite Hv; eauto|]. split; [|split; reflexivity].
  rewrite Hv. cbn [heap app]. apply objects_fresh.
Qed.

Lemma utc_fetch_repeat_is_served_from_cache_witness :
  exists out' w2,
    fetch_electricity_cost_utc (P := Scenario.platform)
      Scenario.date_example SE4
      (snd (fetch_electricity_cost_utc (P := Scenario.platform)
              Scenario.date_example SE4 Scenario.fresh))
    = (Return out', w2)
    /\ requests w2
       = [url_of Scenario.day1 SE4; url_of Scenario.day2 SE4].
Proof.
  pose (r1 := fetch_electricity_cost_utc (P := Scenario.platform)
                Scenario.date_example SE4 Scenario.fresh).
  assert (r1 = (Return (seq 48 24), snd r1)) as E
    by (vm_compute; reflexivity).
  destruct (utc_fetch_repeat_is_served_from_cache (P := Scenario.platform)
              Scenario.date_example SE4 Scenario.fresh (seq 48 24) (snd r1)
              E) as (out' & w2 & E2 & _ & _ & Hr & _).
  exists out', w2. split; [exact E2|].
  rewrite Hr. vm_compute. reflexivity.
Defined.

(** ** The Stockholm dates of a UTC day *)

Section StockholmDates.
Context `{P : Platform}.

Lemma of_wall_micros_range n tz dt :
  of_wall_micros n tz = Some dt ->
  1 <= n / US_PER_DAY <= Calendar.MAXORDINAL.
Proof.
  unfold of_wall_micros. cbv zeta.
  destruct ((1 <=? n / US_PER_DAY)
            && (n / US_PER_DAY <=? Calendar.MAXORDINAL)) eqn:Hr;
    [|discriminate].
  intros _. apply andb_true_iff in Hr. destruct Hr as [H1 H2].
  apply Z.leb_le in H1, H2. lia.
Qed.

(** The date of a wall clock is the date of its whole days. *)
Lemma of_wall_micros_date y m d r tz :
  Calendar.valid_ymd y m d = true ->
  0 <= r < 86400 * 1000000 ->
  exists dt,
    of_wall_micros (Calendar.ymd2ord y m d * (86400 * 1000000) + r) tz
    = Some dt
    /\ datetime_date dt = mkdate y m d.
Proof.
  intros Hv Hr.
  pose proof (CalendarFacts.ymd2ord_range y m d Hv) as Ho.
  unfold of_wall_micros, US_PER_DAY. cbv zeta.
  set (O := Calendar.ymd2ord y m d) in *.
  assert ((O * (86400 * 1000000) + r) / (86400 * 1000000) = O) as ->
    by (symmetry; apply (Z.div_unique _ _ _ r); lia).
  replace ((1 <=? O) && (O <=? Calendar.MAXORDINAL)) with true
    by (symmetry; rewrite andb_true_iff, !Z.leb_le; lia).
  unfold O. rewrite (CalendarFacts.ord2ymd_ymd2ord y m d Hv).
  eexists. split; reflexivity.
Qed.

Lemma astimezone_utc_of_utc y m d hh mm ss :
  Calendar.valid_ymd y m d = true ->
  0 <= hh < 24 -> 0 <= mm < 60 -> 0 <= ss < 60 ->
  astimezone_utc (mkdatetime y m d hh mm ss 0 (Some 0))
  = Return (mkdatetime y m d hh mm ss 0 (Some 0)).
Proof.
  intros Hv Hh Hm Hs. unfold astimezone_utc, wall_micros.
  cbn [year month day hour minute second microsecond tzinfo].
  match goal with
  | |- or_raise _ (of_wall_micros ?n _) = _ =>
      replace n
        with ((Calendar.ymd2ord y m d * 86400 + hh * 3600 + mm * 60 + ss)
              * 1000000 + 0) by lia
  end.
  rewrite (of_wall_micros_fields _ _ _ hh mm ss 0 (Some 0) Hv) by lia.
  reflexivity.
Qed.

Lemma astimezone_stockholm_date y m d y' m' d' hh mm ss r :
  Calendar.valid_ymd y m d = true ->
  0 <= hh < 24 -> 0 <= mm < 60 -> 0 <= ss < 60 ->
  Calendar.valid_ymd y' m' d' = true ->
  0 <= r < 86400 ->
  Calendar.ymd2ord y m d * 86400 + hh * 3600 + mm * 60 + ss
  + stockholm_utcoffset (mkdatetime y m d hh mm ss 0 (Some 0))
  = Calendar.ymd2ord y' m' d' * 86400 + r ->
  exists dt,
    astimezone_stockholm (mkdatetime y m d hh mm ss 0 (Some 0)) = Return dt
    /\ datetime_date dt = mkdate y' m' d'.
Proof.
  intros Hv Hh Hm Hs Hv' Hr E. unfold astimezone_stockholm.
  rewrite (astimezone_utc_of_utc y m d hh mm ss Hv Hh Hm Hs).
  unfold mbind, outcome_bind, wall_micros.
  cbn [year month day hour minute second microsecond tzinfo].
  set (off := stockholm_utcoffset (mkdatetime y m d hh mm ss 0 (Some 0)))
    in *.
  destruct (of_wall_micros_date y' m' d' (r * 1000000) (Some off) Hv')
    as (dt & Hdt & Hdate); [lia|].
  exists dt. split; [|exact Hdate].
  match goal with
  | |- or_raise _ (of_wall_micros ?n _) = _ =>
      replace n
        with (Calendar.ymd2ord y' m' d' * (86400 * 1000000) + r * 1000000)
        by lia
  end.
  rewrite Hdt. reflexivity.
Qed.

Lemma utc_day_before_last date_utc s e :
  utc_day date_utc = Return (s, e) ->
  Calendar.ymd2ord (year date_utc) (month date_utc) (day date_utc) + 1
  <= Calendar.MAXORDINAL.
Proof.
  intros Hday. destruct (utc_day_spec _ _ _ Hday) as (Hv & _).
  pose proof (CalendarFacts.ymd2ord_range _ _ _ Hv) as Hr.
  destruct (Z.eq_dec (Calendar.ymd2ord (year date_utc) (month date_utc)
                        (day date_utc)) Calendar.MAXORDINAL) as [E|E];
    [|lia].
  exfalso.
  destruct (CalendarFacts.ymd2ord_last _ _ _ Hv E) as (Hy & Hm & Hd).
  revert Hday. unfold utc_day. rewrite Hy, Hm, Hd.
  vm_compute. discriminate.
Qed.

Lemma stockholm_dates_east y m d :
  Calendar.valid_ymd y m d = true ->
  Calendar.ymd2ord y m d + 1 <= Calendar.MAXORDINAL ->
  0 <= stockholm_utcoffset (mkdatetime y m d 0 0 0 0 (Some 0)) < 86400 ->
  0 < stockholm_utcoffset (mkdatetime y m d 23 59 59 0 (Some 0)) <= 86400 ->
  exists y' m' d',
    stockholm_dates (mkdatetime y m d 0 0 0 0 (Some 0))
                    (mkdatetime y m d 23 59 59 0 (Some 0))
    = Return (mkdate y m d, mkdate y' m' d')
    /\ Calendar.valid_ymd y' m' d' = true
    /\ Calendar.ymd2ord y' m' d' = Calendar.ymd2ord y m d + 1.
Proof.
  intros Hv Hnext Hs He.
  pose proof (CalendarFacts.ymd2ord_range y m d Hv) as Ho.
  destruct (CalendarFacts.ord2ymd_spec (Calendar.ymd2ord y m d + 1))
    as (y' & m' & d' & _ & Hv' & Ho'); [lia|].
  destruct (astimezone_stockholm_date y m d y m d 0 0 0
              (stockholm_utcoffset (mkdatetime y m d 0 0 0 0 (Some 0))))
    as (ds & Hds & Dds); [exact Hv|lia|lia|lia|exact Hv|lia|lia|].
  destruct (astimezone_stockholm_date y m d y' m' d' 23 59 59
              (stockholm_utcoffset (mkdatetime y m d 23 59 59 0 (Some 0)) - 1))
    as (de & Hde & Dde); [exact Hv|lia|lia|lia|exact Hv'|lia|lia|].
  exists y', m', d'. split; [|split; assumption].
  unfold stockholm_dates.
  rewrite (outcome_bind_Return _ _ _ Hds).
  rewrite (outcome_bind_Return _ _ _ Hde).
  rewrite Dds, Dde. reflexivity.
Qed.

End StockholmDates.

(** X11.  In a zone east of UTC (an offset of more than nothing and at most
    a day at the last second of the UTC day, and of less than a day at its
    first) the two Stockholm dates of lines 86-87 are the requested date and
    the day after it: they differ, so line 91 is not reached and both days
    are fetched. *)
Theorem utc_day_spans_two_dates_east_of_utc `{P : Platform} date_utc s e :
  utc_day date_utc = Return (s, e) ->
  0 <= stockholm_utcoffset s < 86400 ->
  0 < stockholm_utcoffset e <= 86400 ->
  exists sd ed,
    stockholm_dates s e = Return (sd, ed)
    /\ sd = mkdate (year date_utc) (month date_utc) (day date_utc)
    /\ Calendar.valid_ymd (d_year ed) (d_month ed) (d_day ed) = true
    /\ Calendar.ymd2ord (d_year ed) (d_month ed) (d_day ed)
       = Calendar.ymd2ord (d_year sd) (d_month sd) (d_day sd) + 1
    /\ date_eqb sd ed = false.
Proof.
  intros Hday Hs He.
  destruct (utc_day_spec _ _ _ Hday) as (Hv & Es & Ee & _).
  pose proof (utc_day_before_last _ _ _ Hday) as Hnext.
  rewrite Es in Hs. rewrite Ee in He.
  destruct (stockholm_dates_east _ _ _ Hv Hnext Hs He)
    as (y' & m' & d' & Hd & Hv' & Ho').
  exists (mkdate (year date_utc) (month date_utc) (day date_utc)),
         (mkdate y' m' d').
  split; [rewrite Es, Ee; exact Hd|].
  split; [reflexivity|]. split; [exact Hv'|].
  split; [exact Ho'|].
  destruct (date_eqb (mkdate (year date_utc) (month date_utc) (day date_utc))
                     (mkdate y' m' d')) eqn:Hb; [|reflexivity].
  apply date_eqb_eq in Hb. injection Hb as E1 E2 E3.
  rewrite <- E1, <- E2, <- E3 in Ho'. lia.
Qed.

Lemma utc_day_spans_two_dates_east_of_utc_witness :
  exists sd ed,
    stockholm_dates (P := Scenario.platform)
      (mkdatetime 2024 1 1 0 0 0 0 (Some 0))
      (mkdatetime 2024 1 1 23 59 59 0 (Some 0)) = Return (sd, ed)
    /\ date_eqb sd ed = false.
Proof.
  assert (stockholm_utcoffset (Platform := Scenario.platform)
            (mkdatetime 2024 1 1 0 0 0 0 (Some 0)) = 3600) as E1
    by (vm_compute; reflexivity).
  assert (stockholm_utcoffset (Platform := Scenario.platform)
            (mkdatetime 2024 1 1 23 59 59 0 (Some 0)) = 3600) as E2
    by (vm_compute; reflexivity).
  destruct (utc_day_spans_two_dates_east_of_utc (P := Scenario.platform)
              Scenario.date_example
              (mkdatetime 2024 1 1 0 0 0 0 (Some 0))
              (mkdatetime 2024 1 1 23 59 59 0 (Some 0)))
    as (sd & ed & H & _ & _ & _ & Hb).
  - vm_compute. reflexivity.
  - rewrite E1. lia.
  - rewrite E2. lia.
  - exists sd, ed. split; [exact H | exact Hb].
Defined.

(** ** Keys, paths and URLs *)

Lemma decimal_of_width_inv n v s :
  decimal_of_width n v s = true ->
  String.length s = n
  /\ forallb is_digit (list_ascii_of_string s) = true
  /\ Iso.number s 0 = Some v.
Proof.
  unfold decimal_of_width. rewrite !andb_true_iff.
  intros [[Hl Hd] Hn]. apply Nat.eqb_eq in Hl.
  split; [exact Hl|]. split; [exact Hd|].
  destruct (Iso.number s 0) as [v'|]; [|discriminate].
  apply Z.eqb_eq in Hn. congruence.
Qed.

(** A text is the decimal writing of one number at most. *)
Lemma decimal_of_width_inj n1 n2 v1 v2 s :
  decimal_of_width n1 v1 s = true -> decimal_of_width n2 v2 s = true ->
  v1 = v2.
Proof.
  intros H1 H2. apply decimal_of_width_inv in H1, H2.
  destruct H1 as (_ & _ & H1). destruct H2 as (_ & _ & H2). congruence.
Qed.

Lemma append_inj_length (s1 s2 t1 t2 : string) :
  String.length s1 = String.length s2 ->
  s1 +:+ t1 = s2 +:+ t2 -> s1 = s2 /\ t1 = t2.
Proof.
  revert s2. induction s1 as [|c s1 IH]; intros [|c2 s2] Hl E;
    try discriminate.
  - split; [reflexivity | exact E].
  - injection Hl as Hl. injection E as Ec E.
    destruct (IH s2 Hl E) as [-> ->]. subst c2. split; reflexivity.
Qed.

(** Two runs of digits, each followed by a slash, are told apart by the
    slash: a slash is not a digit. *)
Lemma digits_then_slash_inj (s1 s2 t1 t2 : string) :
  forallb is_digit (list_ascii_of_string s1) = true ->
  forallb is_digit (list_ascii_of_string s2) = true ->
  s1 +:+ "/" +:+ t1 = s2 +:+ "/" +:+ t2 -> s1 = s2 /\ t1 = t2.
Proof.
  revert s2. induction s1 as [|c s1 IH]; intros [|c2 s2] H1 H2 E.
  - injection E as E. split; [reflexivity | exact E].
  - exfalso. injection E as Ec E. subst c2. simpl in H2.
    discriminate H2.
  - exfalso. injection E as Ec E. subst c. simpl in H1.
    discriminate H1.
  - injection E as Ec E. subst c2. simpl in H1, H2.
    apply andb_true_iff in H1, H2.
    destruct H1 as [_ H1]. destruct H2 as [_ H2].
    destruct (IH s2 H1 H2 E) as [-> ->]. split; reflexivity.
Qed.

Lemma file_name_inj (d1 d2 : string) a1 a2 :
  String.length d1 = String.length d2 ->
  d1 +:+ "_" +:+ name a1 +:+ ".json" = d2 +:+ "_" +:+ name a2 +:+ ".json" ->
  d1 = d2 /\ a1 = a2.
Proof.
  intros Hl E. destruct (append_inj_length _ _ _ _ Hl E) as [Hd E'].
  split; [exact Hd|].
  destruct a1, a2; try reflexivity; discriminate.
Qed.

Lemma date_of_strftime d1 d2 :
  1 <= d_year d1 <= 9999 -> 1 <= d_month d1 <= 12 -> 1 <= d_day d1 <= 31 ->
  1 <= d_year d2 <= 9999 -> 1 <= d_month d2 <= 12 -> 1 <= d_day d2 <= 31 ->
  strftime_Y d1 = strftime_Y d2 ->
  strftime_m d1 = strftime_m d2 ->
  strftime_d d1 = strftime_d d2 ->
  d1 = d2.
Proof.
  intros Hy1 Hm1 Hd1 Hy2 Hm2 Hd2 EY Em Ed.
  pose proof (str_int_year _ Hy1) as Y1.
  pose proof (str_int_year _ Hy2) as Y2.
  pose proof (zero_padded_2 (d_month d1) ltac:(lia)) as M1.
  pose proof (zero_padded_2 (d_month d2) ltac:(lia)) as M2.
  pose proof (zero_padded_2 _ Hd1) as D1.
  pose proof (zero_padded_2 _ Hd2) as D2.
  unfold strftime_Y in EY. unfold strftime_m in Em. unfold strftime_d in Ed.
  rewrite EY in Y1. rewrite Em in M1. rewrite Ed in D1.
  pose proof (decimal_of_width_inj _ _ _ _ _ Y1 Y2) as E1.
  pose proof (decimal_of_width_inj _ _ _ _ _ M1 M2) as E2.
  pose proof (decimal_of_width_inj _ _ _ _ _ D1 D2) as E3.
  destruct d1, d2. simpl in *. congruence.
Qed.

Lemma strftime_shapes d :
  1 <= d_year d <= 9999 -> 1 <= d_month d <= 12 -> 1 <= d_day d <= 31 ->
  forallb is_digit (list_ascii_of_string (strftime_Y d)) = true
  /\ String.length (strftime_m d) = 2%nat
  /\ String.length (strftime_d d) = 2%nat.
Proof.
  intros Hy Hm Hd.
  pose proof (str_int_year _ Hy) as Y.
  pose proof (zero_padded_2 (d_month d) ltac:(lia)) as M.
  pose proof (zero_padded_2 _ Hd) as D.
  apply decimal_of_width_inv in Y, M, D.
  unfold strftime_Y, strftime_m, strftime_d. tauto.
Qed.

(** X12.  Two different keys never share a cache file or a URL: for dates
    with a year in 1..9999 (written without padding), a month in 1..12 and
    a day in 1..31, the cache path and the URL each determine the date and
    the area. *)
Theorem cache_path_and_url_determine_key date1 area1 date2 area2 :
  1 <= d_year date1 <= 9999 -> 1 <= d_month date1 <= 12 ->
  1 <= d_day date1 <= 31 ->
  1 <= d_year date2 <= 9999 -> 1 <= d_month date2 <= 12 ->
  1 <= d_day date2 <= 31 ->
  (cache_path_of date1 area1 = cache_path_of date2 area2 ->
   date1 = date2 /\ area1 = area2)
  /\ (url_of date1 area1 = url_of date2 area2 ->
      date1 = date2 /\ area1 = area2).
Proof.
  intros Hy1 Hm1 Hd1 Hy2 Hm2 Hd2.
  destruct (strftime_shapes date1 Hy1 Hm1 Hd1) as (DY1 & LM1 & LD1).
  destruct (strftime_shapes date2 Hy2 Hm2 Hd2) as (DY2 & LM2 & LD2).
  assert (String.length (strftime_m date1)
          = String.length (strftime_m date2)) as LM by congruence.
  assert (String.length (strftime_d date1)
          = String.length (strftime_d date2)) as LD by congruence.
  split.
  - unfold cache_path_of. cbv zeta. intros E.
    injection E as EY Em Ef.
    destruct (file_name_inj _ _ _ _ LD Ef) as [Ed Ea].
    split; [|exact Ea].
    apply date_of_strftime; assumption.
  - unfold url_of. cbv zeta. intros E.
    apply append_inj_length in E; [|reflexivity]. destruct E as [_ E].
    apply digits_then_slash_inj in E; [|assumption..].
    destruct E as [EY E].
    apply append_inj_length in E; [|exact LM]. destruct E as [Em E].
    apply append_inj_length in E; [|reflexivity]. destruct E as [_ E].
    destruct (file_name_inj _ _ _ _ LD E) as [Ed Ea].
    split; [|exact Ea].
    apply date_of_strftime; assumption.
Qed.

Lemma cache_path_and_url_determine_key_witness :
  cache_path_of (mkdate 999 1 1) SE4 <> cache_path_of Scenario.day2 SE4
  /\ url_of (mkdate 999 1 1) SE3 <> url_of (mkdate 999 1 1) SE4.
Proof.
  split.
  - intros E.
    destruct (cache_path_and_url_determine_key
                (mkdate 999 1 1) SE4 Scenario.day2 SE4) as [H _];
      [simpl; lia..|].
    destruct (H E) as [Hd _]. discriminate Hd.
  - intros E.
    destruct (cache_path_and_url_determine_key
                (mkdate 999 1 1) SE3 (mkdate 999 1 1) SE4) as [_ H];
      [simpl; lia..|].
    destruct (H E) as [_ Ha]. discriminate Ha.
Defined.

(** ** The items an ElectricityCost is built from *)

Lemma dict_get_Some key entries v :
  dict_get key entries = Some v -> (key, v) ∈ entries.
Proof.
  unfold dict_get. induction entries as [|[k x] rest IH]; simpl.
  - discriminate.
  - destruct (String.eqb k key) eqn:Hk.
    + apply String.eqb_eq in Hk. subst k. simpl. intros E.
      injection E as ->. apply list_elem_of_here.
    + intros E. apply list_elem_of_further. exact (IH E).
Qed.

Lemma dict_get_is_Some key entries :
  key ∈ entries.*1 -> is_Some (dict_get key entries).
Proof.
  unfold dict_get. induction entries as [|[k x] rest IH]; simpl.
  - intros H. inversion H.
  - destruct (String.eqb k key) eqn:Hk.
    + intros _. simpl. eauto.
    + intros H. apply elem_of_cons in H. destruct H as [->|H].
      * rewrite String.eqb_refl in Hk. discriminate.
      * exact (IH H).
Qed.

(** X13.  An item becomes an [ElectricityCost] exactly when it is an object
    whose keys are the five field names, in any order (a missing or an
    additional key is the [TypeError] of the generated [__init__]); each
    field then holds the value the item has under its name, as it is. *)
Theorem ElectricityCost_init_keys entries :
  NoDup entries.*1 ->
  (is_Some (ElectricityCost_init (PDict entries))
   <-> entries.*1 ≡ₚ ["SEK_per_kWh"; "EUR_per_kWh"; "EXR";
                      "time_start"; "time_end"]%string)
  /\ forall c, ElectricityCost_init (PDict entries) = Some c ->
       ("SEK_per_kWh"%string, SEK_per_kWh c) ∈ entries
       /\ ("EUR_per_kWh"%string, EUR_per_kWh c) ∈ entries
       /\ ("EXR"%string, EXR c) ∈ entries
       /\ ("time_start"%string, time_start c) ∈ entries
       /\ ("time_end"%string, time_end c) ∈ entries.
Proof.
  intros Hnd.
  assert (forall c, ElectricityCost_init (PDict entries) = Some c ->
            length entries = 5%nat
            /\ ("SEK_per_kWh"%string, SEK_per_kWh c) ∈ entries
            /\ ("EUR_per_kWh"%string, EUR_per_kWh c) ∈ entries
            /\ ("EXR"%string, EXR c) ∈ entries
            /\ ("time_start"%string, time_start c) ∈ entries
            /\ ("time_end"%string, time_end c) ∈ entries) as Hfields.
  { intros c. unfold ElectricityCost_init.
    destruct (length entries =? 5)%nat eqn:Hl; [|discriminate].
    apply Nat.eqb_eq in Hl.
    destruct (dict_get "SEK_per_kWh" entries) as [a|] eqn:Ha;
      [|discriminate].
    destruct (dict_get "EUR_per_kWh" entries) as [b|] eqn:Hb;
      [|discriminate].
    destruct (dict_get "EXR" entries) as [x|] eqn:Hx; [|discriminate].
    destruct (dict_get "time_start" entries) as [ts|] eqn:Hts;
      [|discriminate].
    destruct (dict_get "time_end" entries) as [te|] eqn:Hte;
      [|discriminate].
    simpl. intros E. injection E as <-. simpl.
    split; [exact Hl|]. repeat split; apply dict_get_Some; assumption. }
  split; [|intros c Hc; apply Hfields in Hc; tauto].
  split.
  - intros [c Hc]. apply Hfields in Hc.
    destruct Hc as (Hl & H1 & H2 & H3 & H4 & H5).
    symmetry. apply submseteq_length_Permutation.
    + apply NoDup_submseteq.
      * apply (bool_decide_unpack _). vm_compute. reflexivity.
      * intros k Hk.
        repeat (apply elem_of_cons in Hk; destruct Hk as [->|Hk]);
          [..|inversion Hk];
          match goal with
          | H : (?k, ?v) ∈ entries |- ?k ∈ _ =>
              exact (list_elem_of_fmap_2 fst entries (k, v) H)
          end.
    + rewrite length_fmap, Hl. simpl. lia.
  - intros Hp.
    assert (length entries = 5%nat) as Hl.
    { rewrite <- (length_fmap fst entries), Hp. reflexivity. }
    assert (forall k,
              k ∈ ["SEK_per_kWh"; "EUR_per_kWh"; "EXR";
                   "time_start"; "time_end"]%string ->
              is_Some (dict_get k entries)) as Hget.
    { intros k Hk. apply dict_get_is_Some. rewrite Hp. exact Hk. }
    unfold ElectricityCost_init. rewrite Hl. simpl.
    destruct (Hget "SEK_per_kWh"%string) as [a ->];
      [apply list_elem_of_In; simpl; auto|].
    destruct (Hget "EUR_per_kWh"%string) as [b ->];
      [apply list_elem_of_In; simpl; auto|].
    destruct (Hget "EXR"%string) as [x ->];
      [apply list_elem_of_In; simpl; auto|].
    destruct (Hget "time_start"%string) as [ts ->];
      [apply list_elem_of_In; simpl; auto|].
    destruct (Hget "time_end"%string) as [te ->];
      [apply list_elem_of_In; simpl; auto 6|].
    simpl. eauto.
Qed.

Lemma ElectricityCost_init_keys_witness :
  is_Some (ElectricityCost_init
             (PDict [("time_end"%string, PStr "2024-01-01T01:00:00+01:00");
                     ("EXR"%string, PInt 11);
                     ("time_start"%string, PStr "2024-01-01T00:00:00+01:00");
                     ("EUR_per_kWh"%string, PInt 2);
                     ("SEK_per_kWh"%string, PInt 22)])).
Proof.
  apply (ElectricityCost_init_keys
           [("time_end"%string, PStr "2024-01-01T01:00:00+01:00");
            ("EXR"%string, PInt 11);
            ("time_start"%string, PStr "2024-01-01T00:00:00+01:00");
            ("EUR_per_kWh"%string, PInt 2);
            ("SEK_per_kWh"%string, PInt 22)]).
  - apply (bool_decide_unpack _). vm_compute. reflexivity.
  - simpl. apply (bool_decide_unpack _). vm_compute. reflexivity.
Defined.
